(** * ghidralldb.commands: a shallow embedding and its verified properties

    The module [commands.py] of the LLDB agent mirrors the state of the
    process under inspection into a Ghidra trace.  This file embeds the
    parts of the module that its specification talks about: the path
    patterns, the page quantizer, the register byte codec, the session
    state [STATE] with its accessors, and the commands that read or
    mutate the trace.

    Python integers are unbounded, so they are [Z]; [//] is floor
    division, which is [Z.div] for the positive divisor used here.
    Byte strings are [list byte].  Functions that may raise return in the
    monad [M], which threads the world and keeps every effect that
    happened before the exception. *)

From Stdlib Require Import ZArith List String Ascii Bool Lia.
From Stdlib Require Import Strings.Byte DecimalString HexadecimalString.
From Stdlib Require DecimalZ HexadecimalZ OctalString.
Import ListNotations.

Local Open Scope string_scope.
Local Open Scope Z_scope.

(** ** Exceptions *)

(** The exception classes the module raises or lets through.  [HostError]
    stands for any other subclass of [Exception] raised by a collaborator,
    [HostInterrupt] for a [BaseException] that is not an [Exception]
    (e.g. [KeyboardInterrupt]). *)
Inductive exn : Type :=
| RuntimeError (msg : string)
| ValueError (msg : string)
| KeyError (msg : string)
| IndexError (msg : string)
| AttributeError (msg : string)
| TypeError (msg : string)
| SystemExit (msg : string)
| AssertionError (msg : string)
| HostError (msg : string)
| HostInterrupt (msg : string).

(** [isinstance(e, Exception)] *)
Definition is_Exception (e : exn) : bool :=
  match e with
  | HostInterrupt _ | SystemExit _ => false
  | _ => true
  end.

(** [str(e)] *)
Definition str_exn (e : exn) : string :=
  match e with
  | RuntimeError m | ValueError m | KeyError m | IndexError m
  | AttributeError m | TypeError m | SystemExit m | AssertionError m
  | HostError m | HostInterrupt m => m
  end.

(** ** The constants of the [lldb] module that the code names *)

Module lldb.

(** [lldb.ByteOrder] *)
Definition eByteOrderInvalid : Z := 0.
Definition eByteOrderBig : Z := 1.
Definition eByteOrderPDP : Z := 2.
Definition eByteOrderLittle : Z := 4.

(** [lldb.StateType] *)
Definition eStateInvalid : Z := 0.
Definition eStateUnloaded : Z := 1.
Definition eStateConnected : Z := 2.
Definition eStateAttaching : Z := 3.
Definition eStateLaunching : Z := 4.
Definition eStateStopped : Z := 5.
Definition eStateRunning : Z := 6.
Definition eStateStepping : Z := 7.
Definition eStateCrashed : Z := 8.
Definition eStateDetached : Z := 9.
Definition eStateExited : Z := 10.
Definition eStateSuspended : Z := 11.

(** Attribute lookup on the module object, [lldb.<name>], for the process
    state constants: a name the module does not define raises
    [AttributeError]. *)
Definition getattr (name : string) : exn + Z :=
  if String.eqb name "eStateInvalid" then inr eStateInvalid
  else if String.eqb name "eStateUnloaded" then inr eStateUnloaded
  else if String.eqb name "eStateConnected" then inr eStateConnected
  else if String.eqb name "eStateAttaching" then inr eStateAttaching
  else if String.eqb name "eStateLaunching" then inr eStateLaunching
  else if String.eqb name "eStateStopped" then inr eStateStopped
  else if String.eqb name "eStateRunning" then inr eStateRunning
  else if String.eqb name "eStateStepping" then inr eStateStepping
  else if String.eqb name "eStateCrashed" then inr eStateCrashed
  else if String.eqb name "eStateDetached" then inr eStateDetached
  else if String.eqb name "eStateExited" then inr eStateExited
  else if String.eqb name "eStateSuspended" then inr eStateSuspended
  else inl (AttributeError
              ("module 'lldb' has no attribute '" ++ name ++ "'")).

End lldb.

(** ** Python's integer formatting and [str.format] *)

(** [str(n)] for an integer *)
Definition str_int (n : Z) : string :=
  DecimalString.NilZero.string_of_int (Z.to_int n).

(** [format(n, 'x')]: lowercase hexadecimal digits, [-] for a negative *)
Definition hex_digits (n : Z) : string :=
  HexadecimalString.NilZero.string_of_int (Z.to_hex_int n).

(** [format(n, 'o')] *)
Definition oct_digits (n : Z) : string :=
  match n with
  | Z0 => "0"
  | Zpos p => OctalString.Raw.of_pos p ""
  | Zneg p => String "-" (OctalString.Raw.of_pos p "")
  end.

(** [hex(n)] *)
Definition hex (n : Z) : string :=
  if n <? 0 then "-0x" ++ hex_digits (- n) else "0x" ++ hex_digits n.

Fixpoint zeros (k : nat) : string :=
  match k with
  | O => ""
  | S k' => String "0" (zeros k')
  end.

(** [format(n, '0Wx')]: the sign first, then zeros up to the width [W] *)
Definition hex_zero_padded (width : nat) (n : Z) : string :=
  if n <? 0 then
    let d := hex_digits (- n) in
    String "-" (zeros (width - 1 - String.length d) ++ d)
  else
    let d := hex_digits n in
    zeros (width - String.length d) ++ d.

(** A keyword argument of [str.format] *)
Inductive fmt_arg : Type :=
| FInt (n : Z)
| FStr (s : string).

Definition kwargs : Type := list (string * fmt_arg).

Fixpoint kw_lookup (kw : kwargs) (name : string) : option fmt_arg :=
  match kw with
  | [] => None
  | (k, v) :: kw' => if String.eqb k name then Some v else kw_lookup kw' name
  end.

(** The text of a replacement field is [name] or [name:spec]. *)
Fixpoint split_colon (field : string) : string * option string :=
  match field with
  | EmptyString => ("", None)
  | String c rest =>
      if Ascii.eqb c ":" then ("", Some rest)
      else let '(name, spec) := split_colon rest in (String c name, spec)
  end.

(** The format specifications the module uses: none, [x] and [08x]. *)
Definition format_value (v : fmt_arg) (spec : option string) : exn + string :=
  match v, spec with
  | FInt n, None => inr (str_int n)
  | FStr s, None => inr s
  | FInt n, Some sp =>
      if String.eqb sp "" then inr (str_int n)
      else if String.eqb sp "x" then inr (hex_digits n)
      else if String.eqb sp "08x" then inr (hex_zero_padded 8 n)
      else inl (ValueError "Invalid format specifier")
  | FStr s, Some sp =>
      if String.eqb sp "" then inr s
      else inl (ValueError "Unknown format code for object of type 'str'")
  end.

Definition format_field (kw : kwargs) (field : string) : exn + string :=
  let '(name, spec) := split_colon field in
  match kw_lookup kw name with
  | None => inl (KeyError name)
  | Some v => format_value v spec
  end.

(** [pattern.format] with keyword arguments [kw], scanning left to right.  [field] is [Some acc]
    while the scanner is inside a replacement field; doubled braces are
    the escapes of a literal brace. *)
Fixpoint format_go (kw : kwargs) (field : option string) (s : string)
  : exn + string :=
  match field, s with
  | None, EmptyString => inr ""
  | Some _, EmptyString =>
      inl (ValueError "expected '}' before end of string")
  | Some acc, String c s' =>
      if Ascii.eqb c "}" then
        match format_field kw acc with
        | inl e => inl e
        | inr txt =>
            match format_go kw None s' with
            | inl e => inl e
            | inr r => inr (txt ++ r)
            end
        end
      else format_go kw (Some (acc ++ String c "")) s'
  | None, String c s' =>
      if Ascii.eqb c "{" then
        match s' with
        | String c2 s'' =>
            if Ascii.eqb c2 "{" then
              match format_go kw None s'' with
              | inl e => inl e
              | inr r => inr (String "{" r)
              end
            else format_go kw (Some "") s'
        | EmptyString => format_go kw (Some "") s'
        end
      else if Ascii.eqb c "}" then
        match s' with
        | String c2 s'' =>
            if Ascii.eqb c2 "}" then
              match format_go kw None s'' with
              | inl e => inl e
              | inr r => inr (String "}" r)
              end
            else inl (ValueError "Single '}' encountered in format string")
        | EmptyString =>
            inl (ValueError "Single '}' encountered in format string")
        end
      else
        match format_go kw None s' with
        | inl e => inl e
        | inr r => inr (String c r)
        end
  end.

Definition format (pattern : string) (kw : kwargs) : exn + string :=
  format_go kw None pattern.

(** ** Module constants *)

Definition PAGE_SIZE : Z := 4096.

Definition DEFAULT_REGISTER_BANK : string := "General Purpose Registers".

Definition AVAILABLES_PATH : string := "Available".
Definition AVAILABLE_KEY_PATTERN : string := "[{pid}]".
Definition AVAILABLE_PATTERN : string := AVAILABLES_PATH ++ AVAILABLE_KEY_PATTERN.
Definition BREAKPOINT_KEY_PATTERN : string := "[{breaknum}]".
Definition WATCHPOINT_KEY_PATTERN : string := "[{watchnum}]".
Definition BREAK_LOC_KEY_PATTERN : string := "[{locnum}]".
Definition PROCESSES_PATH : string := "Processes".
Definition PROCESS_KEY_PATTERN : string := "[{procnum}]".
Definition PROCESS_PATTERN : string := PROCESSES_PATH ++ PROCESS_KEY_PATTERN.
Definition PROC_WATCHES_PATTERN : string := PROCESS_PATTERN ++ ".Watchpoints".
Definition PROC_WATCH_PATTERN : string :=
  PROC_WATCHES_PATTERN ++ WATCHPOINT_KEY_PATTERN.
Definition PROC_BREAKS_PATTERN : string := PROCESS_PATTERN ++ ".Breakpoints".
Definition PROC_BREAK_PATTERN : string :=
  PROC_BREAKS_PATTERN ++ BREAKPOINT_KEY_PATTERN.
Definition ENV_PATTERN : string := PROCESS_PATTERN ++ ".Environment".
Definition THREADS_PATTERN : string := PROCESS_PATTERN ++ ".Threads".
Definition THREAD_KEY_PATTERN : string := "[{tnum}]".
Definition THREAD_PATTERN : string := THREADS_PATTERN ++ THREAD_KEY_PATTERN.
Definition STACK_PATTERN : string := THREAD_PATTERN ++ ".Stack".
Definition FRAME_KEY_PATTERN : string := "[{level}]".
Definition FRAME_PATTERN : string := STACK_PATTERN ++ FRAME_KEY_PATTERN.
Definition REGS_PATTERN : string := FRAME_PATTERN ++ ".Registers".
Definition BANK_PATTERN : string := REGS_PATTERN ++ ".{bank}".
Definition MEMORY_PATTERN : string := PROCESS_PATTERN ++ ".Memory".
Definition REGION_KEY_PATTERN : string := "[{start:08x}]".
Definition REGION_PATTERN : string := MEMORY_PATTERN ++ REGION_KEY_PATTERN.
Definition MODULES_PATTERN : string := PROCESS_PATTERN ++ ".Modules".
Definition MODULE_KEY_PATTERN : string := "[{modpath}]".
Definition MODULE_PATTERN : string := MODULES_PATTERN ++ MODULE_KEY_PATTERN.
Definition SECTIONS_ADD_PATTERN : string := ".Sections".
Definition SECTION_KEY_PATTERN : string := "[{secname}]".
Definition SECTION_ADD_PATTERN : string :=
  SECTIONS_ADD_PATTERN ++ SECTION_KEY_PATTERN.

(** ** Pure helpers *)

Definition quantize_pages (start end_ : Z) : Z * Z :=
  (start / PAGE_SIZE * PAGE_SIZE,
   (end_ + PAGE_SIZE - 1) / PAGE_SIZE * PAGE_SIZE).

(** [lldb.SBData], as far as the codec reads it *)
Record SBData : Type := mkSBData {
  byte_order : Z;
  uint8s : list byte
}.

Inductive ByteOrderName : Type := big | little.

Definition get_byte_order (order : Z) : exn + ByteOrderName :=
  if order =? lldb.eByteOrderBig then inr big
  else if order =? lldb.eByteOrderLittle then inr little
  else if order =? lldb.eByteOrderPDP then
    inl (ValueError "PDP byte order unsupported")
  else inl (ValueError ("Unrecognized order: " ++ str_int order)).

Definition data_to_reg_bytes (data : SBData) : exn + list byte :=
  match get_byte_order (byte_order data) with
  | inl e => inl e
  | inr little => inr (rev (uint8s data))
  | inr big => inr (uint8s data)
  end.

(** [int.from_bytes(bs, 'big')] *)
Fixpoint int_from_bytes_big (acc : Z) (bs : list byte) : Z :=
  match bs with
  | [] => acc
  | b :: bs' => int_from_bytes_big (acc * 256 + Z.of_N (Byte.to_N b)) bs'
  end.

Definition int_from_bytes (bs : list byte) (order : ByteOrderName) : Z :=
  match order with
  | big => int_from_bytes_big 0 bs
  | little => int_from_bytes_big 0 (rev bs)
  end.

Definition data_to_int (data : SBData) : exn + Z :=
  match get_byte_order (byte_order data) with
  | inl e => inl e
  | inr order => inr (int_from_bytes (uint8s data) order)
  end.

(** ** Values exchanged with the trace client *)

(** [ghidratrace.client.Address] *)
Record Address : Type := mkAddress {
  space : string;
  offset : Z
}.

(** [ghidratrace.client.AddressRange], built by [addr.extend(length)] *)
Record AddressRange : Type := mkAddressRange {
  range_start : Address;
  range_length : Z
}.

Definition extend (a : Address) (length : Z) : AddressRange :=
  mkAddressRange a length.

(** [ghidratrace.sch]: a schema is its name. *)
Definition Schema : Type := string.

Module sch.
Definition VOID : Schema := "VOID".
Definition BOOL : Schema := "BOOL".
Definition BYTE : Schema := "BYTE".
Definition CHAR : Schema := "CHAR".
Definition SHORT : Schema := "SHORT".
Definition INT : Schema := "INT".
Definition LONG : Schema := "LONG".
Definition STRING : Schema := "STRING".
Definition ADDRESS : Schema := "ADDRESS".
Definition BOOL_ARR : Schema := "BOOL_ARR".
Definition BYTE_ARR : Schema := "BYTE_ARR".
Definition CHAR_ARR : Schema := "CHAR_ARR".
Definition SHORT_ARR : Schema := "SHORT_ARR".
Definition INT_ARR : Schema := "INT_ARR".
Definition LONG_ARR : Schema := "LONG_ARR".
Definition OBJECT : Schema := "OBJECT".
End sch.

(** The Python values the module hands to [set_value]. *)
Inductive value : Type :=
| VNone
| VBool (b : bool)
| VInt (n : Z)
| VStr (s : string)
| VBytes (bs : list byte)
| VAddress (a : Address)
| VMapped (base : string) (a : Address)
| VRange (r : AddressRange)
| VBoolList (l : list bool)
| VIntList (l : list Z)
| VStrList (l : list string)
| VObject (path : string).

(** A register value as the register mapper returns it *)
Record RegVal : Type := mkRegVal {
  reg_name : string;
  reg_value : list byte
}.

(** What [trace.put_bytes] returns: a count, or a future of it. *)
Inductive CountReply : Type :=
| Count (n : Z)
| FutureDone (n : Z)
| FuturePending.

(** ** The objects of the debugger host *)

Record SBAddress : Type := mkSBAddress {
  IsValid : bool;
  address_int : Z          (* [int(address)] *)
}.

Inductive BasicType : Type :=
| eBasicTypeInvalid | eBasicTypeVoid
| eBasicTypeChar | eBasicTypeSignedChar | eBasicTypeUnsignedChar
| eBasicTypeWChar | eBasicTypeSignedWChar | eBasicTypeUnsignedWChar
| eBasicTypeShort | eBasicTypeUnsignedShort
| eBasicTypeInt | eBasicTypeUnsignedInt
| eBasicTypeLong | eBasicTypeUnsignedLong
| eBasicTypeLongLong | eBasicTypeUnsignedLongLong
| eBasicTypeBool
| eBasicTypeOther.

(** [lldb.SBType]: typedefs, basic types, arrays, pointers, and the rest
    (structs, unions, floating types, ...). *)
Inductive SBType : Type :=
| TTypedef (name : string) (target : SBType)
| TBasic (name : string) (code : BasicType)
| TArray (name : string) (elem : SBType)
| TPointer (name : string)
| TOther (name : string).

Record SBValue : Type := mkSBValue {
  GetType : SBType;
  GetValue : option string;
  GetValueAsUnsigned : Z;          (* also [value.unsigned] *)
  GetSummary : option string;
  data : SBData;
  addr : SBAddress;
  size : Z;
  children : list Z;               (* [GetChildAtIndex(i).GetValueAsUnsigned()] *)
  value_str : string               (* [str(val)] *)
}.

(** A register of a bank: [item.GetName()], [item.value], [item.data] *)
Record SBRegister : Type := mkSBRegister {
  reg_GetName : string;
  reg_display : option string;
  reg_data : SBData
}.

(** A register bank: an [SBValue] with one child per register *)
Record SBBank : Type := mkSBBank {
  bank_name : string;
  bank_children : list SBRegister
}.

Record SBFrame : Type := mkSBFrame {
  GetFrameID : Z;
  GetPC : Z;
  GetFunctionName : option string;
  frame_description : string;      (* [util.get_description(f)] *)
  GetRegisters : list SBBank;
  GetFirstValueByName : string -> SBBank
}.

Record SBThread : Type := mkSBThread {
  GetThreadID : Z;
  GetName : option string;
  thread_description : string;     (* [util.get_description(t)] *)
  frames : list SBFrame
}.

Record SBProcess : Type := mkSBProcess {
  GetProcessID : Z;
  is_running : bool;
  is_stopped : bool;
  state : Z;
  threads : list SBThread
}.

(** A region as [util.REGION_INFO_READER] reports it *)
Record Region : Type := mkRegion {
  r_start : Z;
  r_end : Z;
  r_offset : Z;
  r_perms : option string;
  r_objfile : option string
}.

Record Section_ : Type := mkSection {
  s_start : Z;
  s_end : Z;
  s_offset : Z;
  s_attrs : list string
}.

Record Module_ : Type := mkModule {
  m_name : string;
  m_base : Z;
  m_max : Z;
  m_sections : list (string * Section_)
}.

Record SBBreakpointLocation : Type := mkSBBreakpointLocation {
  GetLoadAddress : Z;
  loc_IsEnabled : bool
}.

Record SBBreakpoint : Type := mkSBBreakpoint {
  bp_GetID : Z;
  bp_IsHardware : bool;
  bp_description : string;                 (* [util.get_description(b)] *)
  bp_commands : option (list string);      (* [GetCommandLineCommands] *)
  bp_GetCondition : option string;
  bp_GetHitCount : Z;
  bp_GetIgnoreCount : Z;
  bp_IsOneShot : bool;
  bp_IsEnabled : bool;
  bp_has_location : bool;                  (* [b.location is not None] *)
  bp_locations : list SBBreakpointLocation
}.

Record SBWatchpoint : Type := mkSBWatchpoint {
  wp_GetID : Z;
  wp_description : string;                 (* [util.get_description(w, level=0)] *)
  GetWatchAddress : Z;
  GetWatchSize : Z;
  wp_GetCondition : option string;
  wp_GetHitCount : Z;
  wp_GetIgnoreCount : Z;
  GetHardwareIndex : Z;
  wp_IsEnabled : bool
}.

(** ** The session state *)

Record Client : Type := mkClient {
  client_description : string
}.

Record DefaultMemoryMapper : Type := mkMemoryMapper {
  map : option SBProcess -> Z -> string * Address
}.

Record DefaultRegisterMapper : Type := mkRegisterMapper {
  map_value : option SBProcess -> string -> list byte -> RegVal;
  map_name : option SBProcess -> string -> string
}.

Record Extra : Type := mkExtra {
  memory_mapper : option DefaultMemoryMapper;
  register_mapper : option DefaultRegisterMapper
}.

Record Trace : Type := mkTrace {
  trace_name : string;
  extra : Extra
}.

Record Transaction : Type := mkTransaction {
  tx_description : string;
  tx_undoable : bool
}.

Record State : Type := mkState {
  client : option Client;
  trace : option Trace;
  tx : option Transaction
}.

(** ** Effects *)

(** Everything the module does to the outside: calls on the socket, the
    client and the trace, memory reads on the target, and output.  The log
    of a world lists them in the order they were issued. *)
Inductive event : Type :=
(* the command result object and the console *)
| ResultClear
| SetStatusSuccess                 (* [eReturnStatusSuccessFinishNoResult] *)
| SetError (msg : string)
| PutCString (s : string)
| Print (s : string)
(* the debugger host *)
| ReadMemory (start length : Z)
| HandleCommand (cmd : string)
| Sleep (milliseconds : Z)
| InstallHooks | RemoveHooks | EnableCurrentProcess | DisableCurrentProcess
| OnStop
(* sockets and the client *)
| SocketConnect (host : string) (port : Z)
| SocketListen (host : string) (port : Z)
| SocketAccept
| NewClient (description : string)
| ClientClose
| CreateTrace (name language compiler : string)
| BatchStart
| BatchEnd
(* the trace *)
| TraceClose
| TraceSave
| Snapshot (description : string) (time : option Z)
| StartTx (description : string) (undoable : bool)
| Commit
| Abort
| CreateOverlaySpace (base space_ : string)
| PutBytes (a : Address) (buf : list byte)
| SetMemoryState (r : AddressRange) (st : string)
| DeleteBytes (r : AddressRange)
| PutRegisters (space_ : string) (values : list RegVal)
| DeleteRegisters (space_ : string) (names : list string)
| CreateRootObject (schema_xml schema : string)
| CreateObject (path : string)
| InsertObject (path : string)
| RemoveObject (path : string)
| SetValue (path key : string) (v : value) (schema : option Schema)
| RetainValues (path : string) (keys : list string) (kinds : string)
| ActivateObject (path : string)
| Disassemble (a : Address)
| GetObject (path : string)
| GetValues (pattern : string)
| GetValuesIntersecting (r : AddressRange).

(** The collaborators of the module, none of which is part of it: Python
    built-ins, the socket and trace client, and the helper modules [util]
    and [arch] in front of the debugger.  [fails] tells, from the effects
    so far, whether a call on the socket, client or trace raises, and
    what. *)
Record Host : Type := mkHost {
  (* Python *)
  py_int : string -> option Z;                  (* [int(s)]; [None]: [ValueError] *)
  py_repr : string -> string;                   (* [repr(s)] of a [str] *)
  decode : string -> list byte -> exn + string; (* [str(b, encoding)] *)
  currentframe : bool;                          (* [inspect.currentframe() is not None] *)
  read_schema : exn + string;                   (* reading [schema.xml] *)
  (* socket, client, trace *)
  fails : list event -> event -> option exn;
  getsockname : string -> Z -> string * Z;
  accept : string * Z;
  getpeername : string * Z;
  put_bytes_reply : Address -> list byte -> CountReply;
  disassemble_reply : Address -> Z;
  insert_reply : string -> string;
  object_id : string -> string;
  values_table : event -> list string;          (* rows of [print_tabular_values] *)
  (* [retain_values_parser.parse_args]: the kinds, one of elements (the
     default, [-e]), attributes ([-a]) and both ([-b]), and the arguments *)
  parse_retain_values : list string -> exn + (string * list string);
  (* util *)
  LLDB_VERSION_display : string;
  LLDB_VERSION_full : string;
  get_process : Z -> option SBProcess;          (* by the time of the call *)
  GetNumModules : Z;
  executable_basename : option string;
  breakpoints : list SBBreakpoint;
  watchpoints : list SBWatchpoint;
  selected_thread : option SBThread;
  selected_frame : option SBFrame;
  parse_and_eval : string -> exn + Z;
  get_eval : string -> exn + SBValue;
  proc_ReadMemory : Z -> Z -> bool * option (list byte);
  probe_region_zero : bool;   (* [proc.GetMemoryRegionInfo(0, info).Success()] *)
  get_regions : exn + list Region;
  full_mem : Region;
  get_modules : list (string * Module_);
  process_iter : list (Z * string);             (* [psutil]: pid and name *)
  (* arch *)
  compute_ghidra_lcsp : exn + (string * string);
  compute_memory_mapper : string -> exn + DefaultMemoryMapper;
  compute_register_mapper : string -> exn + DefaultRegisterMapper;
  get_arch : string;
  get_osabi : string;
  get_endian : string
}.

(** The world: the module global [STATE], the convenience variables kept
    by [util], the clock, and the log of effects. *)
Record World : Type := mkWorld {
  STATE : State;
  conv_map : list (string * string);
  clock : Z;                        (* milliseconds *)
  log : list event
}.

Definition with_STATE (w : World) (s : State) : World :=
  mkWorld s (conv_map w) (clock w) (log w).

Definition with_log (w : World) (l : list event) : World :=
  mkWorld (STATE w) (conv_map w) (clock w) l.

(** ** The monad of the embedding *)

(** A computation runs in a world and returns a value or the exception
    it raised, with the world as it is at that point. *)
Definition M (A : Type) : Type := World -> (exn + A) * World.

Definition ret {A : Type} (a : A) : M A := fun w => (inr a, w).

Definition raise {A : Type} (e : exn) : M A := fun w => (inl e, w).

Definition bind {A B : Type} (m : M A) (k : A -> M B) : M B :=
  fun w =>
    match m w with
    | (inl e, w') => (inl e, w')
    | (inr a, w') => k a w'
    end.

Declare Scope py_scope.
Delimit Scope py_scope with py.
Notation "x <- m ;; k" := (bind m (fun x => k))
  (at level 61, m at next level, right associativity) : py_scope.
Notation "' pat <- m ;; k" := (bind m (fun x => match x with pat => k end))
  (at level 61, pat pattern, m at next level, right associativity) : py_scope.
Notation "m ;; k" := (bind m (fun _ => k))
  (at level 61, right associativity) : py_scope.
Local Open Scope py_scope.

(** A result computed outside the world *)
Definition lift {A : Type} (r : exn + A) : M A := fun w => (r, w).

(** [try: body / except Cls as e: handler(e)], where [catches] decides
    [isinstance(e, Cls)] *)
Definition try_except {A : Type} (body : M A) (catches : exn -> bool)
    (handler : exn -> M A) : M A :=
  fun w =>
    match body w with
    | (inl e, w') => if catches e then handler e w' else (inl e, w')
    | r => r
    end.

(** An effect that cannot raise *)
Definition record (ev : event) : M unit :=
  fun w => (inr tt, with_log w (log w ++ [ev])).

(** [for x in xs: body(x)] *)
Fixpoint for_each {A : Type} (xs : list A) (body : A -> M unit) : M unit :=
  match xs with
  | [] => ret tt
  | x :: xs' => body x ;; for_each xs' body
  end.

(** Attribute access on a value that may be [None] *)
Definition deref {A : Type} (o : option A) (attr : string) : M A :=
  match o with
  | Some a => ret a
  | None =>
      raise (AttributeError
               ("'NoneType' object has no attribute '" ++ attr ++ "'"))
  end.

(** [args[i]] *)
Definition index (args : list string) (i : nat) : M string :=
  match nth_error args i with
  | Some a => ret a
  | None => raise (IndexError "list index out of range")
  end.

(** [s.split(sep)] for a one-character separator *)
Fixpoint split (sep : ascii) (s : string) : list string :=
  match s with
  | EmptyString => [""]
  | String c rest =>
      if Ascii.eqb c sep then "" :: split sep rest
      else
        match split sep rest with
        | [] => [String c ""]
        | p :: ps => String c p :: ps
        end
  end.

(** [sub in s] for strings *)
Fixpoint contains (sub s : string) : bool :=
  if String.prefix sub s then true
  else
    match s with
    | EmptyString => false
    | String _ rest => contains sub rest
    end.

(** [len(xs)] *)
Definition len {A : Type} (xs : list A) : Z := Z.of_nat (List.length xs).

Definition is_ValueError (e : exn) : bool :=
  match e with
  | ValueError _ => true
  | _ => false
  end.

Definition is_BaseException (e : exn) : bool := true.

(** ** [State]: the accessors of the session state *)

(** Reading the fields of [STATE] *)
Definition get_STATE : M State := fun w => (inr (STATE w), w).

Definition set_client (c : option Client) : M unit :=
  fun w => (inr tt, with_STATE w (mkState c (trace (STATE w)) (tx (STATE w)))).

Definition set_trace (t : option Trace) : M unit :=
  fun w => (inr tt, with_STATE w (mkState (client (STATE w)) t (tx (STATE w)))).

Definition set_tx (t : option Transaction) : M unit :=
  fun w => (inr tt, with_STATE w (mkState (client (STATE w)) (trace (STATE w)) t)).

(** [util.set_convenience_variable], [util.get_convenience_variable] *)
Definition set_convenience_variable (name val : string) : M unit :=
  fun w => (inr tt, mkWorld (STATE w) ((name, val) :: conv_map w) (clock w) (log w)).

Fixpoint assoc (name : string) (l : list (string * string)) : option string :=
  match l with
  | [] => None
  | (k, v) :: l' => if String.eqb k name then Some v else assoc name l'
  end.

Definition get_convenience_variable (name : string) : M string :=
  fun w =>
    (inr match assoc name (conv_map w) with Some v => v | None => "auto" end, w).

Definition require_client : M Client :=
  fun w =>
    match client (STATE w) with
    | None => (inl (RuntimeError "Not connected"), w)
    | Some c => (inr c, w)
    end.

Definition require_no_client : M unit :=
  fun w =>
    match client (STATE w) with
    | Some _ => (inl (RuntimeError "Already connected"), w)
    | None => (inr tt, w)
    end.

Definition reset_tx : M unit := set_tx None.

Definition reset_trace : M unit :=
  set_trace None ;;
  set_convenience_variable "_ghidra_tracing" "false" ;;
  reset_tx.

Definition reset_client : M unit :=
  set_client None ;;
  reset_trace.

Definition require_trace : M Trace :=
  fun w =>
    match trace (STATE w) with
    | None => (inl (RuntimeError "No trace active"), w)
    | Some t => (inr t, w)
    end.

Definition require_no_trace : M unit :=
  fun w =>
    match trace (STATE w) with
    | Some _ => (inl (RuntimeError "Trace already started"), w)
    | None => (inr tt, w)
    end.

Definition require_tx : M (Trace * Transaction) :=
  trace <- require_trace ;;
  fun w =>
    match tx (STATE w) with
    | None => (inl (RuntimeError "No transaction"), w)
    | Some t => (inr (trace, t), w)
    end.

Definition require_no_tx : M unit :=
  fun w =>
    match tx (STATE w) with
    | Some _ => (inl (RuntimeError "Transaction already started"), w)
    | None => (inr tt, w)
    end.

(** [Extra.require_mm], [Extra.require_rm] *)
Definition require_mm (e : Extra) : M DefaultMemoryMapper :=
  match memory_mapper e with
  | None => raise (RuntimeError "No memory mapper")
  | Some mm => ret mm
  end.

Definition require_rm (e : Extra) : M DefaultRegisterMapper :=
  match register_mapper e with
  | None => raise (RuntimeError "No register mapper")
  | Some rm => ret rm
  end.

(** [STATE = State()]: the constructor calls [reset_client]. *)
Definition initial_world : World :=
  mkWorld (mkState None None None) [("_ghidra_tracing", "false")] 0 [].

Section Commands.

Variable h : Host.

(** A call on the socket, the client or the trace: it is issued, and then
    it may raise. *)
Definition call (ev : event) : M unit :=
  fun w =>
    match fails h (log w) ev with
    | Some e => (record ev ;; raise e) w
    | None => record ev w
    end.

(** [convert_errors]: the decorator of every command.  No exception leaves
    a command; it ends up as the error of the result object. *)
Definition convert_errors (func : M unit) : M unit :=
  record ResultClear ;;
  fun w =>
    match func w with
    | (inr _, w') => record SetStatusSuccess w'
    | (inl e, w') =>
        if is_BaseException e then record (SetError (str_exn e)) w'
        else (inl e, w')
    end.

(** [int(s)]: the error shows the word as [repr] prints it. *)
Definition int (s : string) : M Z :=
  match py_int h s with
  | Some n => ret n
  | None =>
      raise (ValueError ("invalid literal for int() with base 10: "
                           ++ py_repr h s))
  end.

(** [util.get_process()], at the time of the call *)
Definition util_get_process : M (option SBProcess) :=
  fun w => (inr (get_process h (clock w)), w).

(** Modelled from the spec: [Trace.open_tx] of the client library, which
    is not part of this module.  The transaction is a scoped acquisition
    released on every exit path: committed when the body returns, aborted
    when it raises. *)
Definition open_tx {A : Type} (description : string)
    (body : Transaction -> M A) : M A :=
  call (StartTx description false) ;;
  fun w =>
    match body (mkTransaction description false) w with
    | (inr a, w') => (call Commit ;; ret a) w'
    | (inl e, w') => (call Abort ;; raise e) w'
    end.

(** Modelled from the spec: [Client.batch] of the client library, which
    groups the calls issued inside it. *)
Definition batch {A : Type} (body : M A) : M A :=
  call BatchStart ;;
  a <- body ;;
  call BatchEnd ;;
  ret a.

Definition ghidra_trace_connect_func (args : list string) : M unit :=
  require_no_client ;;
  if negb (len args =? 1) then
    raise (RuntimeError "Usage: ghidra trace connect ADDRESS")
  else
    address <- index args 0 ;;
    let parts := split ":" address in
    if negb (len parts =? 2) then
      raise (RuntimeError "ADDRESS must be HOST:PORT")
    else
      host <- index parts 0 ;;
      port <- index parts 1 ;;
      try_except
        (p <- int port ;;
         call (SocketConnect host p) ;;
         let description := "lldb-" ++ LLDB_VERSION_full h in
         call (NewClient description) ;;
         set_client (Some (mkClient description)))
        is_ValueError
        (fun _ => raise (RuntimeError "port must be numeric")).

Definition ghidra_trace_connect (args : list string) : M unit :=
  convert_errors (ghidra_trace_connect_func args).

Definition ghidra_trace_listen_func (args : list string) : M unit :=
  '(host, port) <-
    (if len args =? 0 then ret ("0.0.0.0", inl 0)
     else if len args =? 1 then
       address <- index args 0 ;;
       let parts := split ":" address in
       if len parts =? 1 then
         p <- index parts 0 ;; ret ("0.0.0.0", inr p)
       else if len parts =? 2 then
         host <- index parts 0 ;;
         p <- index parts 1 ;;
         ret (host, inr p)
       else raise (RuntimeError "ADDRESS must be PORT or HOST:PORT")
     else raise (RuntimeError "Usage: ghidra trace listen [ADDRESS]")) ;;
  require_no_client ;;
  try_except
    (p <- match port with inl n => ret n | inr s => int s end ;;
     call (SocketListen host p) ;;
     let '(host', port') := getsockname h host p in
     record (Print ("Listening at " ++ host' ++ ":" ++ str_int port' ++ "...")) ;;
     call SocketAccept ;;
     let '(chost, cport) := accept h in
     record (Print ("Connection from " ++ chost ++ ":" ++ str_int cport)) ;;
     let description := LLDB_VERSION_display h in
     call (NewClient description) ;;
     set_client (Some (mkClient description)))
    is_ValueError
    (fun _ => raise (RuntimeError "PORT must be numeric")).

Definition ghidra_trace_listen (args : list string) : M unit :=
  convert_errors (ghidra_trace_listen_func args).

Definition ghidra_trace_disconnect_func (args : list string) : M unit :=
  if negb (len args =? 0) then
    raise (RuntimeError "Usage: ghidra trace disconnect")
  else
    _ <- require_client ;;
    call ClientClose ;;
    reset_client.

Definition ghidra_trace_disconnect (args : list string) : M unit :=
  convert_errors (ghidra_trace_disconnect_func args).

(** [s.split('/')[-1]] *)
Definition basename (s : string) : string :=
  List.last (split "/" s) "".

Definition compute_name : string :=
  match executable_basename h with
  | None => "lldb/noname"
  | Some progname => "lldb/" ++ basename progname
  end.

Definition set_memory_mapper (mm : DefaultMemoryMapper) : M unit :=
  fun w =>
    match trace (STATE w) with
    | None => (inl (AttributeError "'NoneType' object has no attribute 'extra'"), w)
    | Some t =>
        set_trace (Some (mkTrace (trace_name t)
                           (mkExtra (Some mm) (register_mapper (extra t))))) w
    end.

Definition set_register_mapper (rm : DefaultRegisterMapper) : M unit :=
  fun w =>
    match trace (STATE w) with
    | None => (inl (AttributeError "'NoneType' object has no attribute 'extra'"), w)
    | Some t =>
        set_trace (Some (mkTrace (trace_name t)
                           (mkExtra (memory_mapper (extra t)) (Some rm)))) w
    end.

Definition start_trace (name : string) : M unit :=
  '(language, compiler) <- lift (compute_ghidra_lcsp h) ;;
  _ <- require_client ;;
  call (CreateTrace name language compiler) ;;
  set_trace (Some (mkTrace name (mkExtra None None))) ;;
  mm <- lift (compute_memory_mapper h language) ;;
  set_memory_mapper mm ;;
  rm <- lift (compute_register_mapper h language) ;;
  set_register_mapper rm ;;
  (if currentframe h then ret tt
   else raise (AssertionError "cannot locate schema.xml")) ;;
  schema_xml <- lift (read_schema h) ;;
  open_tx "Create Root Object" (fun _ =>
    call (CreateRootObject schema_xml "LldbSession") ;;
    call (SetValue "" "_display" (VStr (LLDB_VERSION_display h)) None) ;;
    call (CreateObject AVAILABLES_PATH) ;;
    call (InsertObject AVAILABLES_PATH) ;;
    call (CreateObject PROCESSES_PATH) ;;
    call (InsertObject PROCESSES_PATH)) ;;
  set_convenience_variable "_ghidra_tracing" "true".


Definition ghidra_trace_start_func (args : list string) : M unit :=
  name <-
    (if len args =? 0 then ret compute_name
     else if len args =? 1 then index args 0
     else raise (RuntimeError "Usage: ghidra trace start [NAME]")) ;;
  _ <- require_client ;;
  require_no_trace ;;
  start_trace name.

Definition ghidra_trace_start (args : list string) : M unit :=
  convert_errors (ghidra_trace_start_func args).

Definition ghidra_trace_stop_func (args : list string) : M unit :=
  if negb (len args =? 0) then
    raise (RuntimeError "Usage: ghidra trace stop")
  else
    _ <- require_trace ;;
    call TraceClose ;;
    reset_trace.

Definition ghidra_trace_stop (args : list string) : M unit :=
  convert_errors (ghidra_trace_stop_func args).

Definition ghidra_trace_restart_func (args : list string) : M unit :=
  name <-
    (if len args =? 0 then ret compute_name
     else if len args =? 1 then index args 0
     else raise (RuntimeError "Usage: ghidra trace restart [NAME]")) ;;
  _ <- require_client ;;
  s <- get_STATE ;;
  match trace s with
  | Some _ => call TraceClose ;; reset_trace
  | None => ret tt
  end ;;
  start_trace name.

Definition ghidra_trace_restart (args : list string) : M unit :=
  convert_errors (ghidra_trace_restart_func args).

Definition ghidra_trace_info_func (args : list string) : M unit :=
  if negb (len args =? 0) then
    raise (RuntimeError "Usage: ghidra trace info")
  else
    s <- get_STATE ;;
    match client s with
    | None => record (Print "Not connected to Ghidra")
    | Some _ =>
        let '(host, port) := getpeername h in
        record (Print ("Connected to Ghidra at " ++ host ++ ":"
                         ++ str_int port)) ;;
        match trace s with
        | None => record (Print "No trace")
        | Some _ => record (Print "Trace active")
        end
    end.

Definition ghidra_trace_info (args : list string) : M unit :=
  convert_errors (ghidra_trace_info_func args).

Definition ghidra_trace_info_lcsp_func (args : list string) : M unit :=
  if negb (len args =? 0) then
    raise (RuntimeError "Usage: ghidra trace info-lcsp")
  else
    '(language, compiler) <- lift (compute_ghidra_lcsp h) ;;
    record (Print ("Selected Ghidra language: " ++ language)) ;;
    record (Print ("Selected Ghidra compiler: " ++ compiler)).

Definition ghidra_trace_info_lcsp (args : list string) : M unit :=
  convert_errors (ghidra_trace_info_lcsp_func args).

Definition ghidra_trace_txstart_func (args : list string) : M unit :=
  if negb (len args =? 1) then
    raise (RuntimeError "Usage: ghidra trace tx-start DESCRIPTION")
  else
    description <- index args 0 ;;
    require_no_tx ;;
    _ <- require_trace ;;
    call (StartTx description false) ;;
    set_tx (Some (mkTransaction description false)).

Definition ghidra_trace_txstart (args : list string) : M unit :=
  convert_errors (ghidra_trace_txstart_func args).

Definition ghidra_trace_txcommit_func (args : list string) : M unit :=
  if negb (len args =? 0) then
    raise (RuntimeError "Usage: ghidra trace tx-commit")
  else
    _ <- require_tx ;;
    call Commit ;;
    reset_tx.

Definition ghidra_trace_txcommit (args : list string) : M unit :=
  convert_errors (ghidra_trace_txcommit_func args).

Definition ghidra_trace_txabort_func (args : list string) : M unit :=
  if negb (len args =? 0) then
    raise (RuntimeError "Usage: ghidra trace tx-abort")
  else
    _ <- require_tx ;;
    record (Print "Aborting trace transaction!") ;;
    call Abort ;;
    reset_tx.

Definition ghidra_trace_txabort (args : list string) : M unit :=
  convert_errors (ghidra_trace_txabort_func args).

(** [open_tracked_tx]: the context manager.  When the body raises, the
    statement after the inner [with] is not reached. *)
Definition open_tracked_tx {A : Type} (description : string)
    (body : Transaction -> M A) : M A :=
  _ <- require_trace ;;
  a <- open_tx description (fun t => set_tx (Some t) ;; body t) ;;
  reset_tx ;;
  ret a.

(** [ghidra_trace_txopen], given what the command interpreter does with
    the text of [COMMAND] *)
Definition ghidra_trace_txopen_func (args : list string)
    (HandleCommand_cmd : M unit) : M unit :=
  if negb (len args =? 2) then
    raise (RuntimeError "Usage: ghidra trace tx-open DESCRIPTION COMMAND")
  else
    description <- index args 0 ;;
    cmd <- index args 1 ;;
    open_tracked_tx description (fun _ =>
      record (HandleCommand cmd) ;;
      HandleCommand_cmd).

Definition ghidra_trace_txopen (args : list string)
    (HandleCommand_cmd : M unit) : M unit :=
  convert_errors (ghidra_trace_txopen_func args HandleCommand_cmd).

Definition ghidra_trace_save_func (args : list string) : M unit :=
  if negb (len args =? 0) then
    raise (RuntimeError "Usage: ghidra trace save")
  else
    _ <- require_trace ;;
    call TraceSave.

Definition ghidra_trace_save (args : list string) : M unit :=
  convert_errors (ghidra_trace_save_func args).

Definition ghidra_trace_new_snap_func (args : list string) : M unit :=
  '(time, description) <-
    (if len args =? 1 then
       d <- index args 0 ;; ret (None, d)
     else if len args =? 2 then
       a0 <- index args 0 ;;
       t <- int a0 ;;
       d <- index args 1 ;;
       ret (Some t, d)
     else raise (RuntimeError "Usage: ghidra trace new-snap [SNAP] DESCRIPTION")) ;;
  _ <- require_trace ;;
  call (Snapshot description time).

Definition ghidra_trace_new_snap (args : list string) : M unit :=
  convert_errors (ghidra_trace_new_snap_func args).

(** ** Memory *)

(** [put_bytes]; [result] tells whether a result object was passed
    ([result is not None]). *)
Definition put_bytes (start end_ : Z) (result : bool) (pages : bool) : M unit :=
  tr <- require_trace ;;
  let '(start, end_) :=
    if pages then quantize_pages start end_ else (start, end_) in
  proc <- util_get_process ;;
  if end_ - start <=? 0 then ret tt
  else
    _ <- deref proc "ReadMemory" ;;
    record (ReadMemory start (end_ - start)) ;;
    match proc_ReadMemory h start (end_ - start) with
    | (true, Some buf) =>
        mm <- require_mm (extra tr) ;;
        let '(base, addr) := map mm proc start in
        (if negb (String.eqb base (space addr)) then
           call (CreateOverlaySpace base (space addr))
         else ret tt) ;;
        call (PutBytes addr buf) ;;
        if negb result then ret tt
        else
          match put_bytes_reply h addr buf with
          | FutureDone n =>
              record (PutCString ("Wrote " ++ str_int n ++ " bytes"))
          | FuturePending =>
              record (PutCString ("Wrong " ++ str_int (len buf)
                                    ++ " bytes, perhaps in the future"))
          | Count n =>
              record (PutCString ("Wrote " ++ str_int n ++ " bytes"))
          end
    | _ => raise (RuntimeError ("Cannot read memory at " ++ hex_digits start))
    end.

Definition eval_address (address : string) : M Z :=
  try_except (lift (parse_and_eval h address)) is_BaseException
    (fun e => raise (RuntimeError
       ("Cannot convert '" ++ address ++ "' to address: " ++ str_exn e))).

Definition eval_range (address length : string) : M (Z * Z) :=
  start <- eval_address address ;;
  end_ <- try_except
            (n <- lift (parse_and_eval h length) ;; ret (start + n))
            is_BaseException
            (fun e => raise (RuntimeError
               ("Cannot convert '" ++ length ++ "' to length: " ++ str_exn e))) ;;
  ret (start, end_).

Definition putmem (address length : string) (result : bool) (pages : bool)
  : M unit :=
  '(start, end_) <- eval_range address length ;;
  put_bytes start end_ result pages.

(** [util.get_eval(expr).unsigned != 0] *)
Definition eval_flag (expr : string) : M bool :=
  v <- lift (get_eval h expr) ;;
  ret (negb (GetValueAsUnsigned v =? 0)).

Definition ghidra_trace_putmem_func (args : list string) : M unit :=
  '(address, length, pages) <-
    (if len args =? 2 then
       address <- index args 0 ;;
       length <- index args 1 ;;
       ret (address, length, true)
     else if len args =? 3 then
       address <- index args 0 ;;
       length <- index args 1 ;;
       a2 <- index args 2 ;;
       pages <- eval_flag a2 ;;
       ret (address, length, pages)
     else raise (RuntimeError "Usage: ghidra trace putmem ADDRESS LENGTH [PAGES]")) ;;
  _ <- require_tx ;;
  putmem address length true pages.

Definition ghidra_trace_putmem (args : list string) : M unit :=
  convert_errors (ghidra_trace_putmem_func args).

Definition ghidra_trace_putval_func (args : list string) : M unit :=
  '(expression, pages) <-
    (if len args =? 1 then
       expression <- index args 0 ;;
       ret (expression, true)
     else if len args =? 2 then
       expression <- index args 0 ;;
       a2 <- index args 2 ;;
       pages <- eval_flag a2 ;;
       ret (expression, pages)
     else raise (RuntimeError "Usage: ghidra trace putval EXPRESSION [PAGES]")) ;;
  _ <- require_tx ;;
  '(val, address) <-
    try_except
      (val <- lift (get_eval h expression) ;;
       ret (val, addr val))
      is_BaseException
      (fun e => raise (RuntimeError
         ("Could not evaluate " ++ expression ++ ": " ++ str_exn e))) ;;
  if negb (IsValid address) then
    raise (RuntimeError
             ("Expression " ++ expression ++ " does not have an address"))
  else
    let start := address_int address in
    let end_ := start + start + size val in
    put_bytes start end_ true pages.

Definition ghidra_trace_putval (args : list string) : M unit :=
  convert_errors (ghidra_trace_putval_func args).

(** Modelled from the spec: [Trace.validate_state] of the client library,
    which is not part of this module.  The memory states are the closed
    set known, unknown, error. *)
Definition validate_state (st : string) : M unit :=
  if String.eqb st "known" || String.eqb st "unknown" || String.eqb st "error"
  then ret tt
  else raise (ValueError ("Invalid memory state: " ++ st)).

Definition putmem_state (address length st : string) (pages : bool) : M unit :=
  tr <- require_trace ;;
  validate_state st ;;
  '(start, end_) <- eval_range address length ;;
  let '(start, end_) :=
    if pages then quantize_pages start end_ else (start, end_) in
  proc <- util_get_process ;;
  mm <- require_mm (extra tr) ;;
  let '(base, addr) := map mm proc start in
  (if negb (String.eqb base (space addr)) then
     call (CreateOverlaySpace base (space addr))
   else ret tt) ;;
  call (SetMemoryState (extend addr (end_ - start)) st).

Definition ghidra_trace_putmem_state_func (args : list string) : M unit :=
  '(address, length, st, pages) <-
    (if len args =? 3 then
       address <- index args 0 ;;
       length <- index args 1 ;;
       st <- index args 2 ;;
       ret (address, length, st, true)
     else if len args =? 4 then
       address <- index args 0 ;;
       length <- index args 1 ;;
       st <- index args 2 ;;
       a2 <- index args 2 ;;
       pages <- eval_flag a2 ;;
       ret (address, length, st, pages)
     else raise (RuntimeError
                   "Usage: ghidra trace putmem ADDRESS LENGTH STATE [PAGES]")) ;;
  _ <- require_tx ;;
  putmem_state address length st pages.

Definition ghidra_trace_putmem_state (args : list string) : M unit :=
  convert_errors (ghidra_trace_putmem_state_func args).

Definition ghidra_trace_delmem_func (args : list string) : M unit :=
  tr <- require_trace ;;
  if negb (len args =? 2) then
    raise (RuntimeError "Usage: ghidra trace delmem ADDRESS LENGTH")
  else
    address <- index args 0 ;;
    length <- index args 1 ;;
    _ <- require_tx ;;
    '(start, end_) <- eval_range address length ;;
    proc <- util_get_process ;;
    mm <- require_mm (extra tr) ;;
    let '(base, addr) := map mm proc start in
    call (DeleteBytes (extend addr (end_ - start))).

Definition ghidra_trace_delmem (args : list string) : M unit :=
  convert_errors (ghidra_trace_delmem_func args).

(** ** Registers *)

(** A loop that appends to a list: [for x in xs: acc.append(body(x))] *)
Fixpoint for_append {A B : Type} (xs : list A) (acc : list B)
    (body : A -> M B) : M (list B) :=
  match xs with
  | [] => ret acc
  | x :: xs' => b <- body x ;; for_append xs' (acc ++ [b]) body
  end.

Definition value_of_option_string (o : option string) : value :=
  match o with
  | Some s => VStr s
  | None => VNone
  end.

Definition regs_space (proc : option SBProcess) (frame : SBFrame) : M string :=
  p <- deref proc "GetProcessID" ;;
  t <- deref (selected_thread h) "GetThreadID" ;;
  lift (format REGS_PATTERN
          [("procnum", FInt (GetProcessID p)); ("tnum", FInt (GetThreadID t));
           ("level", FInt (GetFrameID frame))]).

Definition putreg (frame : SBFrame) (bank : SBBank) : M unit :=
  proc <- util_get_process ;;
  space_ <- regs_space proc frame ;;
  p <- deref proc "GetProcessID" ;;
  t <- deref (selected_thread h) "GetThreadID" ;;
  bank_path <- lift (format BANK_PATTERN
          [("procnum", FInt (GetProcessID p)); ("tnum", FInt (GetThreadID t));
           ("level", FInt (GetFrameID frame)); ("bank", FStr (bank_name bank))]) ;;
  tr <- require_trace ;;
  call (CreateOverlaySpace "register" space_) ;;
  call (CreateObject space_) ;;
  call (InsertObject space_) ;;
  call (CreateObject bank_path) ;;
  call (InsertObject bank_path) ;;
  mapper <- require_rm (extra tr) ;;
  values <- for_append (bank_children bank) [] (fun item =>
    bytes <- lift (data_to_reg_bytes (reg_data item)) ;;
    let v := map_value mapper proc (reg_GetName item) bytes in
    call (SetValue bank_path (reg_GetName item)
            (value_of_option_string (reg_display item)) None) ;;
    ret v) ;;
  call (PutRegisters space_ values).

Definition ghidra_trace_putreg_func (args : list string) : M unit :=
  _ <- require_tx ;;
  group <-
    (if len args =? 0 then ret "all"
     else if len args =? 1 then index args 0
     else raise (RuntimeError "Usage: ghidra trace putreg [GROUP]")) ;;
  frame <- deref (selected_frame h) "GetRegisters" ;;
  let regs := GetRegisters frame in
  batch
    (if negb (String.eqb group "all") then
       putreg frame (GetFirstValueByName frame group)
     else
       for_each regs (fun bank => putreg frame bank)).

Definition ghidra_trace_putreg (args : list string) : M unit :=
  convert_errors (ghidra_trace_putreg_func args).

Definition collect_mapped_names (names : list string)
    (proc : option SBProcess) (bank : SBBank) : M (list string) :=
  tr <- require_trace ;;
  mapper <- require_rm (extra tr) ;;
  for_append (bank_children bank) names (fun item =>
    ret (map_name mapper proc (reg_GetName item))).

(** A loop that threads an accumulator *)
Fixpoint for_fold {A S : Type} (xs : list A) (acc : S)
    (body : S -> A -> M S) : M S :=
  match xs with
  | [] => ret acc
  | x :: xs' => acc' <- body acc x ;; for_fold xs' acc' body
  end.

Definition ghidra_trace_delreg_func (args : list string) : M unit :=
  group <-
    (if len args =? 0 then ret "all"
     else if len args =? 1 then index args 0
     else raise (RuntimeError "Usage: ghidra trace delreg [GROUP]")) ;;
  _ <- require_tx ;;
  proc <- util_get_process ;;
  frame <- deref (selected_frame h) "GetRegisters" ;;
  let regs := GetRegisters frame in
  space_ <- regs_space proc frame ;;
  names <-
    (if negb (String.eqb group "all") then
       collect_mapped_names [] proc (GetFirstValueByName frame group)
     else
       for_fold regs [] (fun names bank => collect_mapped_names names proc bank)) ;;
  call (DeleteRegisters space_ names).

Definition ghidra_trace_delreg (args : list string) : M unit :=
  convert_errors (ghidra_trace_delreg_func args).

(** ** Objects *)

Definition ghidra_trace_create_obj_func (args : list string) : M unit :=
  if negb (len args =? 1) then
    raise (RuntimeError "Usage: ghidra trace create-obj PATH")
  else
    path <- index args 0 ;;
    _ <- require_tx ;;
    call (CreateObject path) ;;
    call (InsertObject path) ;;
    record (PutCString ("Created object: id=" ++ object_id h path
                          ++ ", path='" ++ path ++ "'")).

Definition ghidra_trace_create_obj (args : list string) : M unit :=
  convert_errors (ghidra_trace_create_obj_func args).

Definition ghidra_trace_insert_obj_func (args : list string) : M unit :=
  if negb (len args =? 1) then
    raise (RuntimeError "Usage: ghidra trace insert-obj PATH")
  else
    path <- index args 0 ;;
    _ <- require_tx ;;
    call (InsertObject path) ;;
    record (PutCString ("Inserted object: lifespan=" ++ insert_reply h path)).

Definition ghidra_trace_insert_obj (args : list string) : M unit :=
  convert_errors (ghidra_trace_insert_obj_func args).

Definition ghidra_trace_remove_obj_func (args : list string) : M unit :=
  if negb (len args =? 1) then
    raise (RuntimeError "Usage: ghidra trace remove-obj PATH")
  else
    path <- index args 0 ;;
    _ <- require_tx ;;
    call (RemoveObject path).

Definition ghidra_trace_remove_obj (args : list string) : M unit :=
  convert_errors (ghidra_trace_remove_obj_func args).

(** ** Values *)

(** [bytes(ints)]: every element must be in [range(0, 256)]. *)
Fixpoint bytes_of_ints (ns : list Z) : exn + list byte :=
  match ns with
  | [] => inr []
  | n :: ns' =>
      match (if (0 <=? n) && (n <? 256) then Byte.of_N (Z.to_N n) else None) with
      | None => inl (ValueError "bytes must be in range(0, 256)")
      | Some b =>
          match bytes_of_ints ns' with
          | inl e => inl e
          | inr bs => inr (b :: bs)
          end
      end
  end.

Definition to_bytes (val : SBValue) : exn + list byte :=
  bytes_of_ints (children val).

Definition to_string (val : SBValue) (encoding : string) : exn + string :=
  match bytes_of_ints (children val) with
  | inl e => inl e
  | inr b => decode h encoding b
  end.

Definition to_bool_list (val : SBValue) : list bool :=
  List.map (fun n => negb (n =? 0)) (children val).

Definition to_int_list (val : SBValue) : list Z := children val.

Definition to_short_list (val : SBValue) : list Z := children val.

Fixpoint strip_typedefs (t : SBType) : SBType :=
  match t with
  | TTypedef _ target => strip_typedefs target
  | _ => t
  end.

Definition GetBasicType (t : SBType) : BasicType :=
  match t with
  | TBasic _ code => code
  | _ => eBasicTypeInvalid
  end.

Definition type_GetName (t : SBType) : string :=
  match t with
  | TTypedef name _ | TBasic name _ | TArray name _ | TPointer name
  | TOther name => name
  end.

Definition is_char_code (c : BasicType) : bool :=
  match c with
  | eBasicTypeChar | eBasicTypeSignedChar | eBasicTypeUnsignedChar => true
  | _ => false
  end.

Definition is_short_code (c : BasicType) : bool :=
  match c with
  | eBasicTypeShort | eBasicTypeUnsignedShort => true
  | _ => false
  end.

Definition is_int_code (c : BasicType) : bool :=
  match c with
  | eBasicTypeInt | eBasicTypeUnsignedInt => true
  | _ => false
  end.

Definition is_long_code (c : BasicType) : bool :=
  match c with
  | eBasicTypeLong | eBasicTypeUnsignedLong
  | eBasicTypeLongLong | eBasicTypeUnsignedLongLong => true
  | _ => false
  end.

Definition is_wchar_code (c : BasicType) : bool :=
  match c with
  | eBasicTypeSignedWChar | eBasicTypeUnsignedWChar => true
  | _ => false
  end.

Definition schema_is (schema : option Schema) (s : Schema) : bool :=
  match schema with
  | Some s' => String.eqb s' s
  | None => false
  end.

Definition str_schema (schema : option Schema) : string :=
  match schema with
  | Some s => s
  | None => "None"
  end.

Definition convert_array (val : SBValue) (etype : SBType)
    (schema : option Schema) (otherwise : M (value * option Schema))
  : M (value * option Schema) :=
  let etype := strip_typedefs etype in
  let ecode := GetBasicType etype in
  match ecode with
  | eBasicTypeBool => ret (VBoolList (to_bool_list val), Some sch.BOOL_ARR)
  | _ =>
  if is_char_code ecode then
    if schema_is schema sch.BYTE_ARR then
      b <- lift (to_bytes val) ;; ret (VBytes b, schema)
    else if schema_is schema sch.CHAR_ARR then
      s <- lift (to_string val "utf-8") ;; ret (VStr s, schema)
    else
      s <- lift (to_string val "utf-8") ;; ret (VStr s, Some sch.STRING)
  else if is_short_code ecode then
    match schema with
    | None =>
        if String.eqb (type_GetName etype) "wchar_t" then
          s <- lift (to_string val "utf-16") ;; ret (VStr s, Some sch.STRING)
        else ret (VIntList (to_int_list val), Some sch.SHORT_ARR)
    | Some _ =>
        if schema_is schema sch.CHAR_ARR then
          s <- lift (to_string val "utf-16") ;; ret (VStr s, schema)
        else ret (VIntList (to_int_list val), schema)
    end
  else if is_wchar_code ecode then
    match schema with
    | Some _ =>
        if negb (schema_is schema sch.CHAR_ARR) then
          ret (VIntList (to_short_list val), schema)
        else
          s <- lift (to_string val "utf-16") ;; ret (VStr s, Some sch.STRING)
    | None =>
        s <- lift (to_string val "utf-16") ;; ret (VStr s, Some sch.STRING)
    end
  else if is_int_code ecode then
    match schema with
    | None =>
        if String.eqb (type_GetName etype) "wchar_t" then
          s <- lift (to_string val "utf-32") ;; ret (VStr s, Some sch.STRING)
        else ret (VIntList (to_int_list val), Some sch.INT_ARR)
    | Some _ =>
        if schema_is schema sch.CHAR_ARR then
          s <- lift (to_string val "utf-32") ;; ret (VStr s, schema)
        else ret (VIntList (to_int_list val), schema)
    end
  else if is_long_code ecode then
    match schema with
    | Some _ => ret (VIntList (to_int_list val), schema)
    | None => ret (VIntList (to_int_list val), Some sch.LONG_ARR)
    end
  else otherwise
  end.

Definition convert_value (expr : string) (val : SBValue)
    (schema : option Schema) : M (value * option Schema) :=
  let type := strip_typedefs (GetType val) in
  let code := GetBasicType type in
  let unconvertible : M (value * option Schema) :=
    raise (ValueError ("Cannot convert (" ++ str_schema schema ++ "): '"
                         ++ expr ++ "', value='" ++ value_str val ++ "'")) in
  match code with
  | eBasicTypeVoid => ret (VNone, Some sch.VOID)
  | eBasicTypeBool =>
      ret (VBool match GetValue val with
                 | Some s => negb (String.eqb s "")
                 | None => false
                 end, Some sch.BOOL)
  | _ =>
  if is_char_code code then
    v <- match GetValue val with
         | Some s => ret s
         | None => raise (TypeError "argument of type 'NoneType' is not iterable")
         end ;;
    if negb (contains "\x" v) then ret (VInt (GetValueAsUnsigned val), Some sch.CHAR)
    else ret (VInt (GetValueAsUnsigned val), Some sch.BYTE)
  else if is_short_code code then
    n <- lift (data_to_int (data val)) ;; ret (VInt n, Some sch.SHORT)
  else if is_int_code code then
    n <- lift (data_to_int (data val)) ;; ret (VInt n, Some sch.INT)
  else if is_long_code code then
    n <- lift (data_to_int (data val)) ;; ret (VInt n, Some sch.LONG)
  else
    let type_name := type_GetName type in
    if String.prefix "const char[" type_name then
      ret (value_of_option_string (GetSummary val), Some sch.STRING)
    else if String.prefix "const wchar_t[" type_name then
      ret (value_of_option_string (GetSummary val), Some sch.STRING)
    else
      match type with
      | TArray _ etype => convert_array val etype schema unconvertible
      | TPointer _ =>
          offset <- lift (data_to_int (data val)) ;;
          proc <- util_get_process ;;
          tr <- require_trace ;;
          mm <- require_mm (extra tr) ;;
          let '(base, addr) := map mm proc offset in
          ret (VMapped base addr, Some sch.ADDRESS)
      | _ => unconvertible
      end
  end.

Definition eval_value (expr : string) (schema : option Schema)
  : M (value * option Schema) :=
  val <- lift (get_eval h expr) ;;
  convert_value expr val schema.

Definition ghidra_trace_set_value_func (args : list string) : M unit :=
  '(path, key, val_expr, schema) <-
    (if len args =? 3 then
       path <- index args 0 ;;
       key <- index args 1 ;;
       v <- index args 2 ;;
       ret (path, key, v, None)
     else if len args =? 4 then
       path <- index args 0 ;;
       key <- index args 1 ;;
       v <- index args 2 ;;
       s <- index args 3 ;;
       ret (path, key, v, Some s)
     else raise (RuntimeError
                   "Usage: ghidra trace set-value PATH KEY VALUE [SCHEMA]")) ;;
  _ <- require_tx ;;
  '(val, schema) <-
    (if schema_is schema sch.OBJECT then ret (VObject val_expr, schema)
     else
       '(val, schema) <- eval_value val_expr schema ;;
       match val with
       | VMapped base addr =>
           if schema_is schema sch.ADDRESS then
             (if negb (String.eqb base (space addr)) then
                call (CreateOverlaySpace base (space addr))
              else ret tt) ;;
             ret (VAddress addr, schema)
           else ret (val, schema)
       | _ => ret (val, schema)
       end) ;;
  call (SetValue path key val schema).

Definition ghidra_trace_set_value (args : list string) : M unit :=
  convert_errors (ghidra_trace_set_value_func args).

Definition ghidra_trace_retain_values_func (args : list string) : M unit :=
  '(kinds, args) <- lift (parse_retain_values h args) ;;
  if len args <? 1 then
    raise (RuntimeError
             "Usage: ghidra trace retain-values [OPTIONS] PATH [KEYS...]")
  else
    path <- index args 0 ;;
    let keys := List.tl args in
    _ <- require_tx ;;
    call (RetainValues path keys kinds).

Definition ghidra_trace_retain_values (args : list string) : M unit :=
  convert_errors (ghidra_trace_retain_values_func args).

Definition tab : string := String (ascii_of_nat 9) "".

Definition ghidra_trace_get_obj_func (args : list string) : M unit :=
  if negb (len args =? 1) then
    raise (RuntimeError "Usage: ghidra trace get-obj PATH")
  else
    path <- index args 0 ;;
    _ <- require_trace ;;
    call (GetObject path) ;;
    record (PutCString (object_id h path ++ tab ++ path)).

Definition ghidra_trace_get_obj (args : list string) : M unit :=
  convert_errors (ghidra_trace_get_obj_func args).

(** [print_tabular_values(values, result.PutCString)] *)
Definition print_tabular_values (query : event) : M unit :=
  for_each (values_table h query) (fun row => record (PutCString row)).

Definition ghidra_trace_get_values_func (args : list string) : M unit :=
  if negb (len args =? 1) then
    raise (RuntimeError "Usage: ghidra trace get-values PATTERN")
  else
    pattern <- index args 0 ;;
    _ <- require_trace ;;
    call (GetValues pattern) ;;
    print_tabular_values (GetValues pattern).

Definition ghidra_trace_get_values (args : list string) : M unit :=
  convert_errors (ghidra_trace_get_values_func args).

Definition ghidra_trace_get_values_rng_func (args : list string) : M unit :=
  if negb (len args =? 2) then
    raise (RuntimeError "Usage: ghidra trace get-values-rng ADDRESS LENGTH")
  else
    address <- index args 0 ;;
    length <- index args 1 ;;
    tr <- require_trace ;;
    '(start, end_) <- eval_range address length ;;
    proc <- util_get_process ;;
    mm <- require_mm (extra tr) ;;
    let '(base, addr) := map mm proc start in
    let query := GetValuesIntersecting (extend addr (end_ - start)) in
    call query ;;
    print_tabular_values query.

Definition ghidra_trace_get_values_rng (args : list string) : M unit :=
  convert_errors (ghidra_trace_get_values_rng_func args).

(** [activate]: the call on the trace sits inside the branch for an
    omitted path. *)
Definition activate (path : option string) : M unit :=
  _ <- require_trace ;;
  match path with
  | Some _ => ret tt
  | None =>
      proc <- util_get_process ;;
      let t := selected_thread h in
      let frame := selected_frame h in
      path <-
        match frame, t with
        | Some f, _ =>
            p <- deref proc "GetProcessID" ;;
            t' <- deref t "GetThreadID" ;;
            lift (format FRAME_PATTERN
                    [("procnum", FInt (GetProcessID p));
                     ("tnum", FInt (GetThreadID t'));
                     ("level", FInt (GetFrameID f))])
        | None, Some t' =>
            p <- deref proc "GetProcessID" ;;
            lift (format THREAD_PATTERN
                    [("procnum", FInt (GetProcessID p));
                     ("tnum", FInt (GetThreadID t'))])
        | None, None =>
            p <- deref proc "GetProcessID" ;;
            lift (format PROCESS_PATTERN [("procnum", FInt (GetProcessID p))])
        end ;;
      call (ActivateObject path)
  end.

Definition ghidra_trace_activate_func (args : list string) : M unit :=
  path <-
    (if len args =? 0 then ret None
     else if len args =? 1 then p <- index args 0 ;; ret (Some p)
     else raise (RuntimeError "Usage: ghidra trace putmem ADDRESS LENGTH [PAGES]")) ;;
  activate path.

Definition ghidra_trace_activate (args : list string) : M unit :=
  convert_errors (ghidra_trace_activate_func args).

Definition ghidra_trace_disassemble_func (args : list string) : M unit :=
  if negb (len args =? 1) then
    raise (RuntimeError "Usage: ghidra trace disassemble ADDRESS")
  else
    address <- index args 0 ;;
    '(tr, _) <- require_tx ;;
    start <- eval_address address ;;
    proc <- util_get_process ;;
    mm <- require_mm (extra tr) ;;
    let '(base, addr) := map mm proc start in
    (if negb (String.eqb base (space addr)) then
       call (CreateOverlaySpace base (space addr))
     else ret tt) ;;
    call (Disassemble addr) ;;
    record (PutCString ("Disassembled " ++ str_int (disassemble_reply h addr)
                          ++ " bytes")).

Definition ghidra_trace_disassemble (args : list string) : M unit :=
  convert_errors (ghidra_trace_disassemble_func args).

(** ** The synchronizers *)

Definition compute_proc_state (proc : SBProcess) : string :=
  if is_running proc then "RUNNING" else "STOPPED".

Definition put_processes : M unit :=
  _ <- require_trace ;;
  proc <- util_get_process ;;
  p <- deref proc "GetProcessID" ;;
  ipath <- lift (format PROCESS_PATTERN [("procnum", FInt (GetProcessID p))]) ;;
  key <- lift (format PROCESS_KEY_PATTERN [("procnum", FInt (GetProcessID p))]) ;;
  let keys := [key] in
  call (CreateObject ipath) ;;
  let istate := compute_proc_state p in
  call (SetValue ipath "State" (VStr istate) None) ;;
  call (InsertObject ipath) ;;
  call (RetainValues PROCESSES_PATH keys "elements").

Definition put_state (event_process : SBProcess) : M unit :=
  ipath <- lift (format PROCESS_PATTERN
                   [("procnum", FInt (GetProcessID event_process))]) ;;
  _ <- require_trace ;;
  batch
    (open_tx "State" (fun _ =>
       call (CreateObject ipath) ;;
       let st := if is_stopped event_process then "STOPPED" else "RUNNING" in
       call (SetValue ipath "State" (VStr st) None) ;;
       call (InsertObject ipath))).

Definition ghidra_trace_put_processes_func (args : list string) : M unit :=
  if negb (len args =? 0) then
    raise (RuntimeError "Usage: ghidra trace put-processes")
  else
    _ <- require_tx ;;
    batch put_processes.

Definition ghidra_trace_put_processes (args : list string) : M unit :=
  convert_errors (ghidra_trace_put_processes_func args).

Definition put_available : M unit :=
  _ <- require_trace ;;
  keys <- for_append (process_iter h) [] (fun proc =>
    let '(pid, name) := proc in
    ppath <- lift (format AVAILABLE_PATTERN [("pid", FInt pid)]) ;;
    call (CreateObject ppath) ;;
    key <- lift (format AVAILABLE_KEY_PATTERN [("pid", FInt pid)]) ;;
    call (SetValue ppath "PID" (VInt pid) None) ;;
    call (SetValue ppath "_display" (VStr (str_int pid ++ " " ++ name)) None) ;;
    call (InsertObject ppath) ;;
    ret key) ;;
  call (RetainValues AVAILABLES_PATH keys "elements").

Definition ghidra_trace_put_available_func (args : list string) : M unit :=
  if negb (len args =? 0) then
    raise (RuntimeError "Usage: ghidra trace put-available")
  else
    _ <- require_tx ;;
    batch put_available.

Definition ghidra_trace_put_available (args : list string) : M unit :=
  convert_errors (ghidra_trace_put_available_func args).

(** Truth value of an optional string: [None] and [''] are false. *)
Definition truthy (o : option string) : bool :=
  match o with
  | Some s => negb (String.eqb s "")
  | None => false
  end.

Definition overlay_if_needed (base : string) (addr : Address) : M unit :=
  if negb (String.eqb base (space addr)) then
    call (CreateOverlaySpace base (space addr))
  else ret tt.

Definition put_single_breakpoint (b : SBBreakpoint) (proc : option SBProcess)
  : M unit :=
  tr <- require_trace ;;
  mapper <- require_mm (extra tr) ;;
  p <- deref proc "GetProcessID" ;;
  bpt_path <- lift (format PROC_BREAK_PATTERN
                      [("procnum", FInt (GetProcessID p));
                       ("breaknum", FInt (bp_GetID b))]) ;;
  call (CreateObject bpt_path) ;;
  (if bp_IsHardware b then
     call (SetValue bpt_path "Expression" (VStr (bp_description b)) None) ;;
     call (SetValue bpt_path "Kinds" (VStr "HW_EXECUTE") None)
   else
     call (SetValue bpt_path "Expression" (VStr (bp_description b)) None) ;;
     call (SetValue bpt_path "Kinds" (VStr "SW_EXECUTE") None)) ;;
  match bp_commands b with
  | Some cmds => call (SetValue bpt_path "Commands" (VStrList cmds) None)
  | None => ret tt
  end ;;
  (if truthy (bp_GetCondition b) then
     call (SetValue bpt_path "Condition"
             (value_of_option_string (bp_GetCondition b)) None)
   else ret tt) ;;
  call (SetValue bpt_path "Hit Count" (VInt (bp_GetHitCount b)) None) ;;
  call (SetValue bpt_path "Ignore Count" (VInt (bp_GetIgnoreCount b)) None) ;;
  call (SetValue bpt_path "Temporary" (VBool (bp_IsOneShot b)) None) ;;
  call (SetValue bpt_path "Enabled" (VBool (bp_IsEnabled b)) None) ;;
  '(_, loc_keys) <- for_fold (bp_locations b) (0, [])
    (fun '(i, loc_keys) l =>
       k <- lift (format BREAK_LOC_KEY_PATTERN [("locnum", FInt (i + 1))]) ;;
       call (CreateObject (bpt_path ++ k)) ;;
       (if bp_has_location b then
          let '(base, addr) := map mapper proc (GetLoadAddress l) in
          overlay_if_needed base addr ;;
          call (SetValue (bpt_path ++ k) "Range" (VRange (extend addr 1)) None) ;;
          call (SetValue (bpt_path ++ k) "Enabled" (VBool (loc_IsEnabled l)) None)
        else ret tt) ;;
       call (InsertObject (bpt_path ++ k)) ;;
       ret (i + 1, (loc_keys ++ [k])%list)) ;;
  call (RetainValues bpt_path loc_keys "elements") ;;
  call (InsertObject bpt_path).

Definition put_single_watchpoint (w : SBWatchpoint) (proc : option SBProcess)
  : M unit :=
  tr <- require_trace ;;
  mapper <- require_mm (extra tr) ;;
  p <- deref proc "GetProcessID" ;;
  wpt_path <- lift (format PROC_WATCH_PATTERN
                      [("procnum", FInt (GetProcessID p));
                       ("watchnum", FInt (wp_GetID w))]) ;;
  call (CreateObject wpt_path) ;;
  let desc := wp_description w in
  call (SetValue wpt_path "Expression" (VStr desc) None) ;;
  call (SetValue wpt_path "Kinds" (VStr "WRITE") None) ;;
  (if contains "type = r" desc then
     call (SetValue wpt_path "Kinds" (VStr "READ") None)
   else ret tt) ;;
  (if contains "type = rw" desc then
     call (SetValue wpt_path "Kinds" (VStr "READ,WRITE") None)
   else ret tt) ;;
  let '(base, addr) := map mapper proc (GetWatchAddress w) in
  overlay_if_needed base addr ;;
  call (SetValue wpt_path "Range" (VRange (extend addr (GetWatchSize w))) None) ;;
  (if truthy (wp_GetCondition w) then
     call (SetValue wpt_path "Condition"
             (value_of_option_string (wp_GetCondition w)) None)
   else ret tt) ;;
  call (SetValue wpt_path "Hit Count" (VInt (wp_GetHitCount w)) None) ;;
  call (SetValue wpt_path "Ignore Count" (VInt (wp_GetIgnoreCount w)) None) ;;
  call (SetValue wpt_path "Hardware Index" (VInt (GetHardwareIndex w)) None) ;;
  call (SetValue wpt_path "Watch Address" (VStr (hex (GetWatchAddress w))) None) ;;
  call (SetValue wpt_path "Watch Size" (VInt (GetWatchSize w)) None) ;;
  call (SetValue wpt_path "Enabled" (VBool (wp_IsEnabled w)) None) ;;
  call (InsertObject wpt_path).

Definition put_breakpoints : M unit :=
  proc <- util_get_process ;;
  p <- deref proc "GetProcessID" ;;
  cont_path <- lift (format PROC_BREAKS_PATTERN
                       [("procnum", FInt (GetProcessID p))]) ;;
  _ <- require_trace ;;
  call (CreateObject cont_path) ;;
  keys <- for_append (breakpoints h) [] (fun b =>
    k <- lift (format BREAKPOINT_KEY_PATTERN [("breaknum", FInt (bp_GetID b))]) ;;
    put_single_breakpoint b proc ;;
    ret k) ;;
  call (InsertObject cont_path) ;;
  call (RetainValues cont_path keys "elements").

Definition put_watchpoints : M unit :=
  proc <- util_get_process ;;
  p <- deref proc "GetProcessID" ;;
  cont_path <- lift (format PROC_WATCHES_PATTERN
                       [("procnum", FInt (GetProcessID p))]) ;;
  _ <- require_trace ;;
  call (CreateObject cont_path) ;;
  keys <- for_append (watchpoints h) [] (fun b =>
    k <- lift (format WATCHPOINT_KEY_PATTERN [("watchnum", FInt (wp_GetID b))]) ;;
    put_single_watchpoint b proc ;;
    ret k) ;;
  call (InsertObject cont_path) ;;
  call (RetainValues cont_path keys "elements").

Definition ghidra_trace_put_breakpoints_func (args : list string) : M unit :=
  if negb (len args =? 0) then
    raise (RuntimeError "Usage: ghidra trace put-breakpoints")
  else
    _ <- require_tx ;;
    batch put_breakpoints.

Definition ghidra_trace_put_breakpoints (args : list string) : M unit :=
  convert_errors (ghidra_trace_put_breakpoints_func args).

Definition ghidra_trace_put_watchpoints_func (args : list string) : M unit :=
  if negb (len args =? 0) then
    raise (RuntimeError "Usage: ghidra trace put-watchpoints")
  else
    _ <- require_tx ;;
    batch put_watchpoints.

Definition ghidra_trace_put_watchpoints (args : list string) : M unit :=
  convert_errors (ghidra_trace_put_watchpoints_func args).

Definition put_environment : M unit :=
  proc <- util_get_process ;;
  p <- deref proc "GetProcessID" ;;
  epath <- lift (format ENV_PATTERN [("procnum", FInt (GetProcessID p))]) ;;
  _ <- require_trace ;;
  call (CreateObject epath) ;;
  call (SetValue epath "Debugger" (VStr "lldb") None) ;;
  call (SetValue epath "Arch" (VStr (get_arch h)) None) ;;
  call (SetValue epath "OS" (VStr (get_osabi h)) None) ;;
  call (SetValue epath "Endian" (VStr (get_endian h)) None) ;;
  call (InsertObject epath).

Definition ghidra_trace_put_environment_func (args : list string) : M unit :=
  if negb (len args =? 0) then
    raise (RuntimeError "Usage: ghidra trace put-environment")
  else
    _ <- require_tx ;;
    batch put_environment.

Definition ghidra_trace_put_environment (args : list string) : M unit :=
  convert_errors (ghidra_trace_put_environment_func args).

Definition should_query_regions : M bool :=
  if GetNumModules h =? 0 then ret true
  else
    proc <- util_get_process ;;
    _ <- deref proc "GetMemoryRegionInfo" ;;
    ret (probe_region_zero h).

(** [perms == None or c in perms] *)
Definition perm_or_none (perms : option string) (c : string) : bool :=
  match perms with
  | None => true
  | Some p => contains c p
  end.

Definition put_regions : M unit :=
  proc <- util_get_process ;;
  query <- should_query_regions ;;
  regions <-
    (if query then
       try_except (lift (get_regions h)) is_Exception (fun _ => ret [])
     else ret []) ;;
  let regions :=
    if (len regions =? 0) &&
       match selected_thread h with Some _ => true | None => false end
    then [full_mem h] else regions in
  tr <- require_trace ;;
  mapper <- require_mm (extra tr) ;;
  keys <- for_append regions [] (fun r =>
    p <- deref proc "GetProcessID" ;;
    rpath <- lift (format REGION_PATTERN
                     [("procnum", FInt (GetProcessID p));
                      ("start", FInt (r_start r))]) ;;
    key <- lift (format REGION_KEY_PATTERN [("start", FInt (r_start r))]) ;;
    call (CreateObject rpath) ;;
    let '(start_base, start_addr) := map mapper proc (r_start r) in
    overlay_if_needed start_base start_addr ;;
    call (SetValue rpath "Range"
            (VRange (extend start_addr (r_end r - r_start r))) None) ;;
    match r_perms r with
    | Some perms => call (SetValue rpath "Permissions" (VStr perms) None)
    | None => ret tt
    end ;;
    call (SetValue rpath "_readable" (VBool (perm_or_none (r_perms r) "r")) None) ;;
    call (SetValue rpath "_writable" (VBool (perm_or_none (r_perms r) "w")) None) ;;
    call (SetValue rpath "_executable" (VBool (perm_or_none (r_perms r) "x")) None) ;;
    call (SetValue rpath "Offset" (VStr (hex (r_offset r))) None) ;;
    call (SetValue rpath "Object File" (value_of_option_string (r_objfile r)) None) ;;
    call (InsertObject rpath) ;;
    ret key) ;;
  p <- deref proc "GetProcessID" ;;
  mpath <- lift (format MEMORY_PATTERN [("procnum", FInt (GetProcessID p))]) ;;
  call (RetainValues mpath keys "elements").

Definition ghidra_trace_put_regions_func (args : list string) : M unit :=
  if negb (len args =? 0) then
    raise (RuntimeError "Usage: ghidra trace put-regions")
  else
    _ <- require_tx ;;
    batch put_regions.

Definition ghidra_trace_put_regions (args : list string) : M unit :=
  convert_errors (ghidra_trace_put_regions_func args).

Definition put_modules : M unit :=
  proc <- util_get_process ;;
  let modules := get_modules h in
  tr <- require_trace ;;
  mapper <- require_mm (extra tr) ;;
  mod_keys <- for_append modules [] (fun '(mk, m) =>
    p <- deref proc "GetProcessID" ;;
    mpath <- lift (format MODULE_PATTERN
                     [("procnum", FInt (GetProcessID p)); ("modpath", FStr mk)]) ;;
    call (CreateObject mpath) ;;
    mod_key <- lift (format MODULE_KEY_PATTERN [("modpath", FStr mk)]) ;;
    call (SetValue mpath "Name" (VStr (m_name m)) None) ;;
    let '(base_base, base_addr) := map mapper proc (m_base m) in
    overlay_if_needed base_base base_addr ;;
    (if m_max m >? m_base m then
       call (SetValue mpath "Range"
               (VRange (extend base_addr (m_max m - m_base m + 1))) None)
     else ret tt) ;;
    sec_keys <- for_append (m_sections m) [] (fun '(sk, s) =>
      sec <- lift (format SECTION_ADD_PATTERN [("secname", FStr sk)]) ;;
      let spath := mpath ++ sec in
      call (CreateObject spath) ;;
      sec_key <- lift (format SECTION_KEY_PATTERN [("secname", FStr sk)]) ;;
      let '(start_base, start_addr) := map mapper proc (s_start s) in
      overlay_if_needed start_base start_addr ;;
      call (SetValue spath "Range"
              (VRange (extend start_addr (s_end s - s_start s + 1))) None) ;;
      call (SetValue spath "Offset" (VStr (hex (s_offset s))) None) ;;
      call (SetValue spath "Attrs" (VStrList (s_attrs s)) None) ;;
      call (InsertObject spath) ;;
      ret sec_key) ;;
    call (InsertObject mpath) ;;
    call (RetainValues (mpath ++ SECTIONS_ADD_PATTERN) sec_keys "elements") ;;
    ret mod_key) ;;
  p <- deref proc "GetProcessID" ;;
  mods <- lift (format MODULES_PATTERN [("procnum", FInt (GetProcessID p))]) ;;
  call (RetainValues mods mod_keys "elements").

Definition ghidra_trace_put_modules_func (args : list string) : M unit :=
  if negb (len args =? 0) then
    raise (RuntimeError "Usage: ghidra trace put-modules")
  else
    _ <- require_tx ;;
    batch put_modules.

Definition ghidra_trace_put_modules (args : list string) : M unit :=
  convert_errors (ghidra_trace_put_modules_func args).

Definition compute_thread_display (t : SBThread) : string :=
  thread_description t.

Definition put_threads : M unit :=
  radix_raw <- get_convenience_variable "output-radix" ;;
  radix <- (if String.eqb radix_raw "auto" then ret 16 else int radix_raw) ;;
  proc <- util_get_process ;;
  tr <- require_trace ;;
  p <- deref proc "threads" ;;
  keys <- for_append (threads p) [] (fun t =>
    tpath <- lift (format THREAD_PATTERN
                     [("procnum", FInt (GetProcessID p));
                      ("tnum", FInt (GetThreadID t))]) ;;
    call (CreateObject tpath) ;;
    key <- lift (format THREAD_KEY_PATTERN [("tnum", FInt (GetThreadID t))]) ;;
    call (SetValue tpath "State" (VStr (compute_proc_state p)) None) ;;
    call (SetValue tpath "Name" (value_of_option_string (GetName t)) None) ;;
    let tid := GetThreadID t in
    call (SetValue tpath "TID" (VInt tid) None) ;;
    let tidstr :=
      if radix =? 16 then "0x" ++ hex_digits tid
      else if radix =? 8 then "0" ++ oct_digits tid
      else str_int tid in
    call (SetValue tpath "_short_display"
            (VStr ("[" ++ str_int (GetProcessID p) ++ "."
                     ++ str_int (GetThreadID t) ++ ":" ++ tidstr ++ "]")) None) ;;
    call (SetValue tpath "_display" (VStr (compute_thread_display t)) None) ;;
    call (InsertObject tpath) ;;
    ret key) ;;
  tpath <- lift (format THREADS_PATTERN [("procnum", FInt (GetProcessID p))]) ;;
  call (RetainValues tpath keys "elements").

Definition put_event_thread : M unit :=
  proc <- util_get_process ;;
  let t := selected_thread h in
  _ <- require_trace ;;
  tobj <-
    match t with
    | Some t' =>
        p <- deref proc "GetProcessID" ;;
        tpath <- lift (format THREAD_PATTERN
                         [("procnum", FInt (GetProcessID p));
                          ("tnum", FInt (GetThreadID t'))]) ;;
        ret (VObject tpath)
    | None => ret VNone
    end ;;
  call (SetValue "" "_event_thread" tobj None).

Definition ghidra_trace_put_threads_func (args : list string) : M unit :=
  if negb (len args =? 0) then
    raise (RuntimeError "Usage: ghidra trace put-threads")
  else
    _ <- require_tx ;;
    batch put_threads.

Definition ghidra_trace_put_threads (args : list string) : M unit :=
  convert_errors (ghidra_trace_put_threads_func args).

Definition str_option (o : option string) : string :=
  match o with
  | Some s => s
  | None => "None"
  end.

Definition put_frames : M unit :=
  proc <- util_get_process ;;
  tr <- require_trace ;;
  mapper <- require_mm (extra tr) ;;
  match selected_thread h with
  | None => ret tt
  | Some t =>
      keys <- for_append (frames t) [] (fun f =>
        p <- deref proc "GetProcessID" ;;
        fpath <- lift (format FRAME_PATTERN
                         [("procnum", FInt (GetProcessID p));
                          ("tnum", FInt (GetThreadID t));
                          ("level", FInt (GetFrameID f))]) ;;
        call (CreateObject fpath) ;;
        key <- lift (format FRAME_KEY_PATTERN [("level", FInt (GetFrameID f))]) ;;
        let '(base, pc) := map mapper proc (GetPC f) in
        overlay_if_needed base pc ;;
        call (SetValue fpath "PC" (VAddress pc) None) ;;
        call (SetValue fpath "Function" (VStr (str_option (GetFunctionName f))) None) ;;
        call (SetValue fpath "_display" (VStr (frame_description f)) None) ;;
        call (InsertObject fpath) ;;
        call (CreateObject (fpath ++ ".Registers")) ;;
        call (InsertObject (fpath ++ ".Registers")) ;;
        ret key) ;;
      p <- deref proc "GetProcessID" ;;
      spath <- lift (format STACK_PATTERN
                       [("procnum", FInt (GetProcessID p));
                        ("tnum", FInt (GetThreadID t))]) ;;
      call (RetainValues spath keys "elements")
  end.

Definition ghidra_trace_put_frames_func (args : list string) : M unit :=
  if negb (len args =? 0) then
    raise (RuntimeError "Usage: ghidra trace put-frames")
  else
    _ <- require_tx ;;
    batch put_frames.

Definition ghidra_trace_put_frames (args : list string) : M unit :=
  convert_errors (ghidra_trace_put_frames_func args).

(** [ghidra_trace_put_all].  The three commands it calls first are the
    decorated ones, each given its command line: [shlex.split] makes three
    words of [DEFAULT_REGISTER_BANK] and two of ["$pc 1"] and ["$sp 1"]. *)
Definition ghidra_trace_put_all_func (args : list string) : M unit :=
  if negb (len args =? 0) then
    raise (RuntimeError "Usage: ghidra trace put-all")
  else
    _ <- require_tx ;;
    batch
      (ghidra_trace_putreg ["General"; "Purpose"; "Registers"] ;;
       ghidra_trace_putmem ["$pc"; "1"] ;;
       ghidra_trace_putmem ["$sp"; "1"] ;;
       put_processes ;;
       put_environment ;;
       put_regions ;;
       put_modules ;;
       put_threads ;;
       put_frames ;;
       put_breakpoints ;;
       put_watchpoints ;;
       put_available).

Definition ghidra_trace_put_all (args : list string) : M unit :=
  convert_errors (ghidra_trace_put_all_func args).

(** ** Hooks *)

(** The hooks live in the module [hooks]; here a call on them is an
    effect. *)

Definition ghidra_trace_install_hooks_func (args : list string) : M unit :=
  if negb (len args =? 0) then
    raise (RuntimeError "Usage: ghidra trace install-hooks")
  else record InstallHooks.

Definition ghidra_trace_install_hooks (args : list string) : M unit :=
  convert_errors (ghidra_trace_install_hooks_func args).

Definition ghidra_trace_remove_hooks_func (args : list string) : M unit :=
  if negb (len args =? 0) then
    raise (RuntimeError "Usage: ghidra trace remove-hooks")
  else record RemoveHooks.

Definition ghidra_trace_remove_hooks (args : list string) : M unit :=
  convert_errors (ghidra_trace_remove_hooks_func args).

Definition ghidra_trace_sync_enable_func (args : list string) : M unit :=
  if negb (len args =? 0) then
    raise (RuntimeError "Usage: ghidra trace sync-enable")
  else
    record InstallHooks ;;
    record EnableCurrentProcess.

Definition ghidra_trace_sync_enable (args : list string) : M unit :=
  convert_errors (ghidra_trace_sync_enable_func args).

Definition ghidra_trace_sync_disable_func (args : list string) : M unit :=
  if negb (len args =? 0) then
    raise (RuntimeError "Usage: ghidra trace sync-disable")
  else record DisableCurrentProcess.

Definition ghidra_trace_sync_disable (args : list string) : M unit :=
  convert_errors (ghidra_trace_sync_disable_func args).

Definition ghidra_trace_sync_synth_stopped_func (args : list string) : M unit :=
  record OnStop.

Definition ghidra_trace_sync_synth_stopped (args : list string) : M unit :=
  convert_errors (ghidra_trace_sync_synth_stopped_func args).

(** ** Waiting for the process to stop *)

(** [time.time()], in milliseconds *)
Definition time_time : M Z := fun w => (inr (clock w), w).

(** [time.sleep(0.1)] *)
Definition time_sleep (milliseconds : Z) : M unit :=
  fun w =>
    (inr tt,
     mkWorld (STATE w) (conv_map w) (clock w + milliseconds)
       (log w ++ [Sleep milliseconds])).

(** The condition of the loop,
    [p is not None and p.state == lldb.eStateRunnig], with the name of the
    constant as the source spells it. *)
Definition still_running (p : option SBProcess) : M bool :=
  match p with
  | None => ret false
  | Some p' =>
      running <- lift (lldb.getattr "eStateRunnig") ;;
      ret (state p' =? running)
  end.

(** The [while] loop.  Every iteration sleeps 100 milliseconds and the
    loop raises once more than [timeout] seconds have passed, so it runs
    [wait_fuel timeout] times at most; [None] stands for a loop that is
    still running after that many iterations. *)
Fixpoint wait_loop (fuel : nat) (start timeout : Z) (p : option SBProcess)
  : M (option (option SBProcess)) :=
  match fuel with
  | O => ret None
  | S fuel' =>
      go_on <- still_running p ;;
      if go_on then
        time_sleep 100 ;;
        p' <- util_get_process ;;
        now <- time_time ;;
        if now - start >? 1000 * timeout then
          raise (RuntimeError "Timed out waiting for thread to stop")
        else wait_loop fuel' start timeout p'
      else ret (Some p)
  end.

Definition wait_fuel (timeout : Z) : nat := S (S (Z.to_nat (10 * timeout))).

Definition ghidra_util_wait_stopped_func (args : list string) : M unit :=
  timeout <-
    (if len args =? 0 then ret 1
     else if len args =? 1 then a0 <- index args 0 ;; int a0
     else raise (RuntimeError "Usage: ghidra util wait-stopped [SECONDS]")) ;;
  start <- time_time ;;
  p <- util_get_process ;;
  r <- wait_loop (wait_fuel timeout) start timeout p ;;
  match r with
  | None => ret tt
  | Some p =>
      p' <- deref p "state" ;;
      record (Print ("Finished wait. State=" ++ str_int (state p')))
  end.

Definition ghidra_util_wait_stopped (args : list string) : M unit :=
  convert_errors (ghidra_util_wait_stopped_func args).

(** ** The command interpreter *)

(** The commands this module registers with the debugger *)
Inductive CommandName : Type :=
| trace_connect | trace_listen | trace_disconnect
| trace_start | trace_stop | trace_restart
| trace_info | trace_info_lcsp
| trace_tx_start | trace_tx_commit | trace_tx_abort
| trace_save | trace_new_snap
| trace_putmem | trace_putval | trace_putmem_state | trace_delmem
| trace_putreg | trace_delreg
| trace_create_obj | trace_insert_obj | trace_remove_obj
| trace_set_value | trace_retain_values
| trace_get_obj | trace_get_values | trace_get_values_rng
| trace_activate | trace_disassemble
| trace_put_processes | trace_put_available
| trace_put_breakpoints | trace_put_watchpoints
| trace_put_environment | trace_put_regions | trace_put_modules
| trace_put_threads | trace_put_frames | trace_put_all
| trace_install_hooks | trace_remove_hooks
| trace_sync_enable | trace_sync_disable | trace_sync_synth_stopped
| util_wait_stopped.

(** What the body of a command is, before [convert_errors] *)
Definition command_func (c : CommandName) : list string -> M unit :=
  match c with
  | trace_connect => ghidra_trace_connect_func
  | trace_listen => ghidra_trace_listen_func
  | trace_disconnect => ghidra_trace_disconnect_func
  | trace_start => ghidra_trace_start_func
  | trace_stop => ghidra_trace_stop_func
  | trace_restart => ghidra_trace_restart_func
  | trace_info => ghidra_trace_info_func
  | trace_info_lcsp => ghidra_trace_info_lcsp_func
  | trace_tx_start => ghidra_trace_txstart_func
  | trace_tx_commit => ghidra_trace_txcommit_func
  | trace_tx_abort => ghidra_trace_txabort_func
  | trace_save => ghidra_trace_save_func
  | trace_new_snap => ghidra_trace_new_snap_func
  | trace_putmem => ghidra_trace_putmem_func
  | trace_putval => ghidra_trace_putval_func
  | trace_putmem_state => ghidra_trace_putmem_state_func
  | trace_delmem => ghidra_trace_delmem_func
  | trace_putreg => ghidra_trace_putreg_func
  | trace_delreg => ghidra_trace_delreg_func
  | trace_create_obj => ghidra_trace_create_obj_func
  | trace_insert_obj => ghidra_trace_insert_obj_func
  | trace_remove_obj => ghidra_trace_remove_obj_func
  | trace_set_value => ghidra_trace_set_value_func
  | trace_retain_values => ghidra_trace_retain_values_func
  | trace_get_obj => ghidra_trace_get_obj_func
  | trace_get_values => ghidra_trace_get_values_func
  | trace_get_values_rng => ghidra_trace_get_values_rng_func
  | trace_activate => ghidra_trace_activate_func
  | trace_disassemble => ghidra_trace_disassemble_func
  | trace_put_processes => ghidra_trace_put_processes_func
  | trace_put_available => ghidra_trace_put_available_func
  | trace_put_breakpoints => ghidra_trace_put_breakpoints_func
  | trace_put_watchpoints => ghidra_trace_put_watchpoints_func
  | trace_put_environment => ghidra_trace_put_environment_func
  | trace_put_regions => ghidra_trace_put_regions_func
  | trace_put_modules => ghidra_trace_put_modules_func
  | trace_put_threads => ghidra_trace_put_threads_func
  | trace_put_frames => ghidra_trace_put_frames_func
  | trace_put_all => ghidra_trace_put_all_func
  | trace_install_hooks => ghidra_trace_install_hooks_func
  | trace_remove_hooks => ghidra_trace_remove_hooks_func
  | trace_sync_enable => ghidra_trace_sync_enable_func
  | trace_sync_disable => ghidra_trace_sync_disable_func
  | trace_sync_synth_stopped => ghidra_trace_sync_synth_stopped_func
  | util_wait_stopped => ghidra_util_wait_stopped_func
  end.

(** A command line as the interpreter resolves it: a command of this
    module with its words, [tx-open] with the command its second word
    resolves to, or a command of the debugger itself, which does not touch
    the session. *)
Inductive Command : Type :=
| Ghidra (c : CommandName) (args : list string)
| TxOpen (args : list string) (nested : Command)
| Foreign (text : string).

(** [HandleCommand]: running a command line *)
Fixpoint run (c : Command) : M unit :=
  match c with
  | Ghidra name args => convert_errors (command_func name args)
  | TxOpen args nested => ghidra_trace_txopen args (run nested)
  | Foreign _ => ret tt
  end.

(*END-COMMANDS*)
End Commands.

(** ** A concrete host and concrete worlds *)

Module Demo.

Definition mm : DefaultMemoryMapper :=
  mkMemoryMapper (fun _ off => ("ram", mkAddress "ram" off)).

Definition rm : DefaultRegisterMapper :=
  mkRegisterMapper (fun _ name bytes => mkRegVal name bytes) (fun _ name => name).

Definition rip : SBRegister :=
  mkSBRegister "rip" (Some "0x0000000000401000")
    (mkSBData lldb.eByteOrderLittle [x00; x10; x40; x00; x00; x00; x00; x00]).

Definition gpr : SBBank := mkSBBank "General Purpose Registers" [rip].

Definition frame0 : SBFrame :=
  mkSBFrame 0 4198400 (Some "main") "frame #0: main" [gpr] (fun _ => gpr).

Definition thread3 : SBThread :=
  mkSBThread 3 (Some "main-thread") "thread #3" [frame0].

Definition process7 : SBProcess :=
  mkSBProcess 7 true false lldb.eStateRunning [thread3].

(** An [int] variable at address 8192 *)
Definition counter : SBValue :=
  mkSBValue (TBasic "int" eBasicTypeInt) (Some "1") 1 None
    (mkSBData lldb.eByteOrderLittle [x01; x00; x00; x00])
    (mkSBAddress true 8192) 4 [] "(int) counter = 1".

(** [repr] of a word of ASCII characters: single quotes, or double quotes
    for a word with a single quote and no double quote; the quote and
    the backslash are escaped, and so are the control characters. *)
Definition hex_digit (n : N) : string :=
  match String.get (N.to_nat n) "0123456789abcdef" with
  | Some c => String c ""
  | None => ""
  end.

Fixpoint repr_chars (quote : ascii) (s : string) : string :=
  match s with
  | EmptyString => ""
  | String c rest =>
      let backslash := ascii_of_nat 92 in
      let n := N_of_ascii c in
      (if Ascii.eqb c quote || Ascii.eqb c backslash then
         String backslash (String c "")
       else if N.eqb n 9 then String backslash "t"
       else if N.eqb n 10 then String backslash "n"
       else if N.eqb n 13 then String backslash "r"
       else if N.ltb n 32 || N.eqb n 127 then
         String backslash
           ("x" ++ hex_digit (N.div n 16) ++ hex_digit (N.modulo n 16))
       else String c "")
      ++ repr_chars quote rest
  end.

Definition repr (s : string) : string :=
  let double := ascii_of_nat 34 in
  let quote :=
    if contains "'" s && negb (contains (String double "") s) then double
    else "'"%char in
  String quote (repr_chars quote s ++ String quote "").

Definition host : Host := {|
  py_int := fun s =>
    option_map Z.of_int (DecimalString.NilZero.int_of_string s);
  py_repr := repr;
  decode := fun _ _ => inr "";
  currentframe := true;
  read_schema := inr "<context/>";
  fails := fun _ _ => None;
  getsockname := fun host port => (host, port);
  accept := ("127.0.0.1", 54321);
  getpeername := ("127.0.0.1", 15432);
  put_bytes_reply := fun _ buf => Count (len buf);
  disassemble_reply := fun _ => 1;
  insert_reply := fun _ => "[0,+inf)";
  object_id := fun _ => "1";
  values_table := fun _ => [];
  parse_retain_values := fun args => inr ("elements", args);
  LLDB_VERSION_display := "lldb 17.0";
  LLDB_VERSION_full := "17.0.6";
  get_process := fun _ => Some process7;
  GetNumModules := 1;
  executable_basename := Some "a.out";
  breakpoints := [];
  watchpoints := [];
  selected_thread := Some thread3;
  selected_frame := Some frame0;
  parse_and_eval := fun s =>
    match DecimalString.NilZero.int_of_string s with
    | Some d => inr (Z.of_int d)
    | None => inl (HostError "not a number")
    end;
  get_eval := fun s =>
    if String.eqb s "counter" then inr counter
    else inl (HostError "undeclared identifier");
  proc_ReadMemory := fun start length => (true, Some (repeat x00 (Z.to_nat length)));
  probe_region_zero := false;
  get_regions := inl (HostError "regions are not supported");
  full_mem := mkRegion 0 18446744073709551616 0 None None;
  get_modules := [];
  process_iter := [];
  compute_ghidra_lcsp := inr ("x86:LE:64:default", "gcc");
  compute_memory_mapper := fun _ => inr mm;
  compute_register_mapper := fun _ => inr rm;
  get_arch := "x86_64";
  get_osabi := "linux";
  get_endian := "little"
|}.

Definition the_client : Client := mkClient "lldb-17.0.6".

Definition the_trace : Trace := mkTrace "lldb/a.out" (mkExtra (Some mm) (Some rm)).

Definition the_tx : Transaction := mkTransaction "demo" false.

(** Connected, with a trace, no transaction open *)
Definition traced : World :=
  mkWorld (mkState (Some the_client) (Some the_trace) None)
    [("_ghidra_tracing", "true")] 0 [].

(** Connected, with a trace and an open transaction *)
Definition in_tx : World :=
  mkWorld (mkState (Some the_client) (Some the_trace) (Some the_tx))
    [("_ghidra_tracing", "true")] 0 [].

(** Connected, no trace yet *)
Definition connected : World :=
  mkWorld (mkState (Some the_client) None None)
    [("_ghidra_tracing", "false")] 0 [].

(** The same host, for a target whose language has no memory mapper *)
Definition host_without_mapper : Host :=
  mkHost (py_int host) (py_repr host) (decode host) (currentframe host)
    (read_schema host)
    (fails host) (getsockname host) (accept host) (getpeername host)
    (put_bytes_reply host) (disassemble_reply host) (insert_reply host)
    (object_id host) (values_table host) (parse_retain_values host)
    (LLDB_VERSION_display host) (LLDB_VERSION_full host) (get_process host)
    (GetNumModules host) (executable_basename host) (breakpoints host)
    (watchpoints host) (selected_thread host) (selected_frame host)
    (parse_and_eval host) (get_eval host) (proc_ReadMemory host)
    (probe_region_zero host) (get_regions host) (full_mem host)
    (get_modules host) (process_iter host) (compute_ghidra_lcsp host)
    (fun _ => inl (KeyError "x86:LE:64:default"))
    (compute_register_mapper host) (get_arch host) (get_osabi host)
    (get_endian host).

End Demo.

(** ** The inverse of the register byte canonicalization *)

(** The [lldb] constant of a supported byte order *)
Definition order_code (o : ByteOrderName) : Z :=
  match o with
  | big => lldb.eByteOrderBig
  | little => lldb.eByteOrderLittle
  end.

(** From the specification, not from the source, which only has the
    forward direction: canonical big-endian register bytes taken back to
    the byte order of their source. *)
Definition from_reg_bytes (o : ByteOrderName) (canon : list byte) : list byte :=
  match o with
  | big => canon
  | little => rev canon
  end.

(** ** Frame paths *)

(** [FRAME_PATTERN.format(procnum=..., tnum=..., level=...)] *)
Definition frame_path (procnum tnum level : Z) : exn + string :=
  format FRAME_PATTERN
    [("procnum", FInt procnum); ("tnum", FInt tnum); ("level", FInt level)].

(** No character of [s] is [c]. *)
Fixpoint free_of (c : ascii) (s : string) : bool :=
  match s with
  | EmptyString => true
  | String a s' => negb (Ascii.eqb a c) && free_of c s'
  end.

(** ** Reading the log *)

(** The paths of the objects a sequence of effects creates *)
Fixpoint created (l : list event) : list string :=
  match l with
  | [] => []
  | CreateObject path :: l' => path :: created l'
  | _ :: l' => created l'
  end.

(** The paths of the objects a sequence of effects inserts into the tree *)
Fixpoint inserted (l : list event) : list string :=
  match l with
  | [] => []
  | InsertObject path :: l' => path :: inserted l'
  | _ :: l' => inserted l'
  end.

(** The containers a sequence of effects prunes, with the keys kept *)
Fixpoint retained (l : list event) : list (string * list string) :=
  match l with
  | [] => []
  | RetainValues path keys _ :: l' => (path, keys) :: retained l'
  | _ :: l' => retained l'
  end.

(** The host enumerates no region: it is not asked because the probe of
    address 0 fails although modules are loaded, or the query raises, or
    it returns nothing. *)
Definition yields_no_regions (h : Host) : Prop :=
  (GetNumModules h <> 0 /\ probe_region_zero h = false) \/
  (exists e, get_regions h = inl e /\ is_Exception e = true) \/
  get_regions h = inr [].

(** [emits m w evs a]: run in [w], the computation [m] returns [a], adds
    the effects [evs] to the log and changes nothing else. *)
Definition emits {A : Type} (m : M A) (w : World) (evs : list event) (a : A)
  : Prop :=
  m w = (inr a, with_log w (log w ++ evs)).

(** ** The commands behind the transaction guard *)

(** The commands that call [require_tx] before they change the trace *)
Definition guarded (c : CommandName) : bool :=
  match c with
  | trace_tx_commit | trace_tx_abort
  | trace_putmem | trace_putval | trace_putmem_state | trace_delmem
  | trace_putreg | trace_delreg
  | trace_create_obj | trace_insert_obj | trace_remove_obj
  | trace_set_value | trace_retain_values | trace_disassemble
  | trace_put_processes | trace_put_available
  | trace_put_breakpoints | trace_put_watchpoints
  | trace_put_environment | trace_put_regions | trace_put_modules
  | trace_put_threads | trace_put_frames | trace_put_all => true
  | _ => false
  end.

Definition is_inr {A B : Type} (r : A + B) : bool :=
  match r with
  | inr _ => true
  | inl _ => false
  end.

(** The argument lists a guarded command lets through to the guard: the
    right number of words, and an optional PAGES word that evaluates.
    [putreg] checks the transaction before its arguments. *)
Definition accepts (h : Host) (c : CommandName) (args : list string) : bool :=
  match c, args with
  | (trace_tx_commit | trace_tx_abort), [] => true
  | trace_putmem, [_; _] => true
  | trace_putmem, [_; _; pages] => is_inr (get_eval h pages)
  | trace_putval, [_] => true
  | trace_putmem_state, [_; _; _] => true
  | trace_putmem_state, [_; _; st; _] => is_inr (get_eval h st)
  | trace_delmem, [_; _] => true
  | trace_putreg, _ => true
  | trace_delreg, ([] | [_]) => true
  | (trace_create_obj | trace_insert_obj | trace_remove_obj), [_] => true
  | trace_set_value, ([_; _; _] | [_; _; _; _]) => true
  | trace_retain_values, _ =>
      match parse_retain_values h args with
      | inr (_, _ :: _) => true
      | _ => false
      end
  | trace_disassemble, [_] => true
  | (trace_put_processes | trace_put_available
    | trace_put_breakpoints | trace_put_watchpoints
    | trace_put_environment | trace_put_regions | trace_put_modules
    | trace_put_threads | trace_put_frames | trace_put_all), [] => true
  | _, _ => false
  end.

(** [m], run in [w], leaves the world as it is. *)
Definition inert {A : Type} (m : M A) (w : World) : Prop :=
  exists r, m w = (r, w).

(** The error of the guard: it names the missing resource. *)
Definition guard_error (w : World) : exn :=
  RuntimeError match trace (STATE w) with
               | Some _ => "No transaction"
               | None => "No trace active"
               end.

(** ** The nesting of the session *)

Definition is_some {A : Type} (o : option A) : bool :=
  match o with
  | Some _ => true
  | None => false
  end.

(** A transaction needs a trace, and a trace needs a connection. *)
Definition nested_b (s : State) : bool :=
  implb (is_some (tx s)) (is_some (trace s)) &&
  implb (is_some (trace s)) (is_some (client s)).

Definition nested (s : State) : Prop := nested_b s = true.

(** [m] never assigns a field of [STATE], however it ends. *)
Definition keeps {A : Type} (m : M A) : Prop :=
  forall w, STATE (snd (m w)) = STATE w.

(** A Hoare triple on the session state.  Started where [P] holds, [m]
    ends with [Q] when it returns, and with the session nested when it
    raises. *)
Definition holds {A : Type} (P : State -> Prop) (m : M A)
    (Q : A -> State -> Prop) : Prop :=
  forall w, P (STATE w) ->
    match m w with
    | (inr a, w') => Q a (STATE w')
    | (inl _, w') => nested (STATE w')
    end.

(** The commands that assign [STATE] *)
Definition session_command (c : CommandName) : bool :=
  match c with
  | trace_connect | trace_listen | trace_disconnect
  | trace_start | trace_stop | trace_restart
  | trace_tx_start | trace_tx_commit | trace_tx_abort => true
  | _ => false
  end.

(** ** What a command may issue *)

(** [m] only adds to the log, and every effect it adds passes [ok],
    however it ends. *)
Definition adds_only {A : Type} (ok : event -> bool) (m : M A) : Prop :=
  forall w, exists evs,
    log (snd (m w)) = (log w ++ evs)%list /\ forallb ok evs = true.

(** [m] leaves the log as it is. *)
Definition silent {A : Type} (m : M A) : Prop :=
  forall w, log (snd (m w)) = log w.

(** The calls on the result object, which [convert_errors] makes for every
    command *)
Definition is_result (ev : event) : bool :=
  match ev with
  | ResultClear | SetStatusSuccess | SetError _ => true
  | _ => false
  end.

Definition is_batch (ev : event) : bool :=
  match ev with
  | BatchStart | BatchEnd => true
  | _ => false
  end.

Definition is_tx (ev : event) : bool :=
  match ev with
  | StartTx _ _ | Commit | Abort => true
  | _ => false
  end.

(** Creating, filling, inserting and pruning objects of the tree *)
Definition is_object_write (ev : event) : bool :=
  match ev with
  | CreateObject _ | InsertObject _ | SetValue _ _ _ _ | RetainValues _ _ _ =>
      true
  | _ => false
  end.

Definition is_overlay (ev : event) : bool :=
  match ev with
  | CreateOverlaySpace _ _ => true
  | _ => false
  end.

(** What [put_bytes] issues *)
Definition is_memory_put (ev : event) : bool :=
  match ev with
  | ReadMemory _ _ | CreateOverlaySpace _ _ | PutBytes _ _ | PutCString _ =>
      true
  | _ => false
  end.

(** The effects a command issues, read off its body and the functions it
    calls; the calls on the result object come with every command. *)
Definition footprint (c : CommandName) (ev : event) : bool :=
  is_result ev ||
  match c with
  | trace_connect =>
      match ev with SocketConnect _ _ | NewClient _ => true | _ => false end
  | trace_listen =>
      match ev with
      | SocketListen _ _ | SocketAccept | NewClient _ | Print _ => true
      | _ => false
      end
  | trace_disconnect => match ev with ClientClose => true | _ => false end
  | trace_start =>
      is_tx ev ||
      match ev with
      | CreateTrace _ _ _ | CreateRootObject _ _ | SetValue _ _ _ _
      | CreateObject _ | InsertObject _ => true
      | _ => false
      end
  | trace_stop => match ev with TraceClose => true | _ => false end
  | trace_restart =>
      is_tx ev ||
      match ev with
      | TraceClose | CreateTrace _ _ _ | CreateRootObject _ _
      | SetValue _ _ _ _ | CreateObject _ | InsertObject _ => true
      | _ => false
      end
  | trace_info | trace_info_lcsp =>
      match ev with Print _ => true | _ => false end
  | trace_tx_start => match ev with StartTx _ _ => true | _ => false end
  | trace_tx_commit => match ev with Commit => true | _ => false end
  | trace_tx_abort => match ev with Print _ | Abort => true | _ => false end
  | trace_save => match ev with TraceSave => true | _ => false end
  | trace_new_snap => match ev with Snapshot _ _ => true | _ => false end
  | trace_putmem | trace_putval => is_memory_put ev
  | trace_putmem_state =>
      match ev with
      | CreateOverlaySpace _ _ | SetMemoryState _ _ => true
      | _ => false
      end
  | trace_delmem => match ev with DeleteBytes _ => true | _ => false end
  | trace_putreg =>
      is_batch ev || is_overlay ev ||
      match ev with
      | CreateObject _ | InsertObject _ | SetValue _ _ _ _ | PutRegisters _ _ =>
          true
      | _ => false
      end
  | trace_delreg => match ev with DeleteRegisters _ _ => true | _ => false end
  | trace_create_obj =>
      match ev with
      | CreateObject _ | InsertObject _ | PutCString _ => true
      | _ => false
      end
  | trace_insert_obj =>
      match ev with InsertObject _ | PutCString _ => true | _ => false end
  | trace_remove_obj => match ev with RemoveObject _ => true | _ => false end
  | trace_set_value =>
      match ev with
      | CreateOverlaySpace _ _ | SetValue _ _ _ _ => true
      | _ => false
      end
  | trace_retain_values =>
      match ev with RetainValues _ _ _ => true | _ => false end
  | trace_get_obj =>
      match ev with GetObject _ | PutCString _ => true | _ => false end
  | trace_get_values =>
      match ev with GetValues _ | PutCString _ => true | _ => false end
  | trace_get_values_rng =>
      match ev with
      | GetValuesIntersecting _ | PutCString _ => true
      | _ => false
      end
  | trace_activate => match ev with ActivateObject _ => true | _ => false end
  | trace_disassemble =>
      match ev with
      | CreateOverlaySpace _ _ | Disassemble _ | PutCString _ => true
      | _ => false
      end
  | trace_put_processes | trace_put_available | trace_put_threads =>
      is_batch ev || is_object_write ev
  | trace_put_environment =>
      is_batch ev ||
      match ev with
      | CreateObject _ | InsertObject _ | SetValue _ _ _ _ => true
      | _ => false
      end
  | trace_put_breakpoints | trace_put_watchpoints | trace_put_regions
  | trace_put_modules | trace_put_frames =>
      is_batch ev || is_overlay ev || is_object_write ev
  | trace_put_all =>
      is_batch ev || is_memory_put ev || is_object_write ev
  | trace_install_hooks => match ev with InstallHooks => true | _ => false end
  | trace_remove_hooks => match ev with RemoveHooks => true | _ => false end
  | trace_sync_enable =>
      match ev with
      | InstallHooks | EnableCurrentProcess => true
      | _ => false
      end
  | trace_sync_disable =>
      match ev with DisableCurrentProcess => true | _ => false end
  | trace_sync_synth_stopped => match ev with OnStop => true | _ => false end
  | util_wait_stopped => false
  end.

(** The effects of a command line: tx-open adds its transaction and the
    command it hands to the interpreter to the effects of that command. *)
Fixpoint allowed (c : Command) (ev : event) : bool :=
  match c with
  | Ghidra name _ => footprint name ev
  | TxOpen _ nested =>
      is_result ev || is_tx ev ||
      match ev with HandleCommand _ => true | _ => false end ||
      allowed nested ev
  | Foreign _ => false
  end.

(** The world after some more effects *)
Definition after (w : World) (evs : list event) : World :=
  with_log w (log w ++ evs).

(** The values a sequence of effects sets under a key, in order *)
Fixpoint values_set (key : string) (l : list event) : list value :=
  match l with
  | [] => []
  | SetValue _ k v _ :: l' =>
      if String.eqb k key then v :: values_set key l' else values_set key l'
  | _ :: l' => values_set key l'
  end.

(** * Properties *)

(** ** Page quantization *)

Lemma PAGE_SIZE_pos : 0 < PAGE_SIZE.
Proof. reflexivity. Qed.

Lemma round_down_spec (a : Z) :
  let s := a / PAGE_SIZE * PAGE_SIZE in
  s mod PAGE_SIZE = 0 /\ s <= a < s + PAGE_SIZE.
Proof.
  cbv zeta. split.
  - apply Z.mod_mul. discriminate.
  - pose proof (Z.mod_pos_bound a PAGE_SIZE PAGE_SIZE_pos) as Hm.
    pose proof (Z.div_mod a PAGE_SIZE ltac:(discriminate)) as Hd.
    lia.
Qed.

Lemma round_up_spec (a : Z) :
  let e := (a + PAGE_SIZE - 1) / PAGE_SIZE * PAGE_SIZE in
  e mod PAGE_SIZE = 0 /\ a <= e < a + PAGE_SIZE.
Proof.
  cbv zeta. split.
  - apply Z.mod_mul. discriminate.
  - pose proof (Z.mod_pos_bound (a + PAGE_SIZE - 1) PAGE_SIZE PAGE_SIZE_pos) as Hm.
    pose proof (Z.div_mod (a + PAGE_SIZE - 1) PAGE_SIZE ltac:(discriminate)) as Hd.
    lia.
Qed.

(** C1, as the specification states it: the worked example does not hold.
    The end 8300 lies past the boundary 8192, so rounding it up gives
    12288. *)
Lemma quantize_pages_example_refuted :
  quantize_pages 4100 8300 <> (4096, 8192).
Proof. vm_compute. discriminate. Qed.

(** C1, amended: [quantize_pages 4100 8300] is [(4096, 12288)], and in
    general the result is the start rounded down and the end rounded up to
    a multiple of the page size, each moved by less than one page. *)
Theorem quantize_pages_rounds :
  quantize_pages 4100 8300 = (4096, 12288) /\
  forall start end_ : Z,
    let '(s, e) := quantize_pages start end_ in
    s mod PAGE_SIZE = 0 /\ s <= start < s + PAGE_SIZE /\
    e mod PAGE_SIZE = 0 /\ end_ <= e < end_ + PAGE_SIZE.
Proof.
  split; [ reflexivity | ].
  intros start end_. unfold quantize_pages.
  destruct (round_down_spec start) as [Hs1 Hs2].
  destruct (round_up_spec end_) as [He1 He2].
  repeat split; tauto.
Qed.

(** ** Register bytes *)



Lemma get_byte_order_inv (order : Z) (o : ByteOrderName) :
  get_byte_order order = inr o ->
  (o = big /\ order = lldb.eByteOrderBig) \/
  (o = little /\ order = lldb.eByteOrderLittle).
Proof.
  unfold get_byte_order.
  destruct (Z.eqb_spec order lldb.eByteOrderBig) as [-> | _].
  - intros [= <-]. now left.
  - destruct (Z.eqb_spec order lldb.eByteOrderLittle) as [-> | _].
    + intros [= <-]. now right.
    + destruct (order =? lldb.eByteOrderPDP); discriminate.
Qed.

(** C5: for both supported byte orders, [data_to_reg_bytes] returns the
    canonical big-endian bytes, which are the bytes reversed when the source
    is little-endian and the bytes themselves when it is big-endian; taking
    the canonical bytes back to the source order gives the original byte
    sequence, and so does [data_to_reg_bytes] applied a second time. *)
Theorem data_to_reg_bytes_round_trip (o : ByteOrderName) (bs : list byte) :
  exists canon : list byte,
    data_to_reg_bytes (mkSBData (order_code o) bs) = inr canon /\
    canon = match o with little => rev bs | big => bs end /\
    from_reg_bytes o canon = bs /\
    data_to_reg_bytes (mkSBData (order_code o) canon) = inr bs.
Proof.
  destruct o; cbn.
  - exists bs. repeat split; reflexivity.
  - exists (rev bs). rewrite rev_involutive. repeat split; reflexivity.
Qed.

(** ** Paths *)

Lemma uint_free_of_bracket (d : Decimal.uint) :
  free_of "]" (DecimalString.NilEmpty.string_of_uint d) = true.
Proof. induction d; cbn; auto. Qed.

Lemma str_int_free_of_bracket (n : Z) : free_of "]" (str_int n) = true.
Proof.
  unfold str_int, DecimalString.NilZero.string_of_int.
  destruct (Z.to_int n) as [d | d];
    unfold DecimalString.NilZero.string_of_uint;
    destruct d; cbn; auto using uint_free_of_bracket.
Qed.

Lemma str_int_inj (n m : Z) : str_int n = str_int m -> n = m.
Proof.
  unfold str_int. intros H.
  assert (Hnz : forall z, Z.to_int z <> Decimal.Pos Decimal.Nil /\
                          Z.to_int z <> Decimal.Neg Decimal.Nil).
  { intros [ | p | p ]; cbn; split; try discriminate;
      intros [= E]; now apply (DecimalPos.Unsigned.to_uint_nonnil p). }
  apply DecimalZ.to_int_inj.
  apply (f_equal DecimalString.NilZero.int_of_string) in H.
  rewrite !DecimalString.NilZero.isi in H by apply Hnz.
  congruence.
Qed.

(** Two texts free of the closing bracket, each followed by one, agree as
    soon as the whole strings agree. *)
Lemma app_bracket_inj (x x' r r' : string) :
  free_of "]" x = true -> free_of "]" x' = true ->
  x ++ String "]" r = x' ++ String "]" r' ->
  x = x' /\ r = r'.
Proof.
  revert x'. induction x as [ | a x IH ]; intros [ | a' x' ]; cbn.
  - intros _ _ [= ->]. auto.
  - intros _ Hx' [= <- _]. rewrite Ascii.eqb_refl in Hx'. discriminate.
  - intros Hx _ [= -> _]. rewrite Ascii.eqb_refl in Hx. discriminate.
  - intros Hx Hx' [= -> E].
    apply andb_true_iff in Hx as [_ Hx]. apply andb_true_iff in Hx' as [_ Hx'].
    destruct (IH x' Hx Hx' E) as [-> ->]. auto.
Qed.

Lemma frame_path_eq (procnum tnum level : Z) :
  frame_path procnum tnum level =
  inr ("Processes[" ++ str_int procnum ++ "].Threads[" ++ str_int tnum
         ++ "].Stack[" ++ str_int level ++ "]").
Proof. reflexivity. Qed.

(** C7: the frame path of process 7, thread 3, frame 0 is
    [Processes[7].Threads[3].Stack[0]]; the construction always returns a
    path, and two triples with the same path are the same triple. *)
Theorem frame_path_deterministic_injective :
  frame_path 7 3 0 = inr "Processes[7].Threads[3].Stack[0]" /\
  (forall procnum tnum level : Z,
     exists path : string, frame_path procnum tnum level = inr path) /\
  (forall p t l p' t' l' : Z,
     frame_path p t l = frame_path p' t' l' -> (p, t, l) = (p', t', l')).
Proof.
  split; [ reflexivity | split ].
  - intros. rewrite frame_path_eq. eauto.
  - intros p t l p' t' l'. rewrite !frame_path_eq. intros [= E].
    apply app_bracket_inj in E as [Ep E]; try apply str_int_free_of_bracket.
    apply str_int_inj in Ep. injection E as E.
    apply app_bracket_inj in E as [Et E]; try apply str_int_free_of_bracket.
    apply str_int_inj in Et. injection E as E.
    apply (app_bracket_inj _ _ "" "") in E as [El _];
      try apply str_int_free_of_bracket.
    apply str_int_inj in El. congruence.
Qed.

Section Properties.

Variable h : Host.

(** ** Memory commands *)

Lemma require_tx_open (w : World) (tr : Trace) (t : Transaction) :
  trace (STATE w) = Some tr -> tx (STATE w) = Some t ->
  require_tx w = (inr (tr, t), w).
Proof.
  intros Htr Htx. unfold require_tx, require_trace, bind.
  now rewrite Htr, Htx.
Qed.

(** C2: in [putval], once the expression has been evaluated to a value
    with a valid address, the range handed to [put_bytes] starts at the
    address and ends at start + start + size: the start is counted twice,
    and the end differs from start + size whenever the address is not 0.
    Only the one-argument form evaluates the expression; the two-argument
    form stops before, at [args[2]]. *)
Theorem putval_end_counts_start_twice
    (expression : string) (w : World) (tr : Trace) (t : Transaction)
    (val : SBValue) :
  trace (STATE w) = Some tr -> tx (STATE w) = Some t ->
  get_eval h expression = inr val ->
  IsValid (addr val) = true ->
  let start := address_int (addr val) in
  ghidra_trace_putval_func h [expression] w
  = put_bytes h start (start + start + size val) true true w /\
  (start <> 0 -> start + start + size val <> start + size val) /\
  (forall pages : string,
     ghidra_trace_putval_func h [expression; pages] w
     = (inl (IndexError "list index out of range"), w)).
Proof.
  intros Htr Htx Hval Hvalid start. split; [ | split ].
  - unfold ghidra_trace_putval_func, bind at 1. cbn.
    unfold bind at 1. rewrite (require_tx_open w tr t Htr Htx).
    unfold bind at 1, try_except, lift, bind at 1. rewrite Hval. cbn.
    rewrite Hvalid. reflexivity.
  - lia.
  - intros pages. reflexivity.
Qed.

(** C9: with four arguments, [putmem-state] computes the pages flag from
    the third argument, the state, and never reads the fourth.  The body
    evaluates the state word as an expression of the target, with
    [util.get_eval]: when that fails the command fails with that error and
    does nothing else, and when it gives a value the flag is whether the
    value, as an unsigned number, is not 0.  The command is the same
    computation whatever the fourth argument is. *)
Theorem putmem_state_ignores_pages_argument
    (address length st pages : string) :
  (forall w : World,
     ghidra_trace_putmem_state_func h [address; length; st; pages] w
     = match get_eval h st with
       | inl e => (inl e, w)
       | inr v =>
           (_ <- require_tx ;;
            putmem_state h address length st
              (negb (GetValueAsUnsigned v =? 0)))%py w
       end) /\
  (forall (w : World) (e : exn),
     get_eval h st = inl e ->
     ghidra_trace_putmem_state h [address; length; st; pages] w
     = (inr tt, with_log w (log w ++ [ResultClear; SetError (str_exn e)]))) /\
  (forall pages' : string,
     ghidra_trace_putmem_state h [address; length; st; pages]
     = ghidra_trace_putmem_state h [address; length; st; pages']).
Proof.
  assert (Hbody : forall w : World,
            ghidra_trace_putmem_state_func h [address; length; st; pages] w
            = match get_eval h st with
              | inl e => (inl e, w)
              | inr v =>
                  (_ <- require_tx ;;
                   putmem_state h address length st
                     (negb (GetValueAsUnsigned v =? 0)))%py w
              end).
  { intros w.
    unfold ghidra_trace_putmem_state_func, eval_flag, bind, lift, ret. cbn.
    destruct (get_eval h st); reflexivity. }
  split; [ exact Hbody | split; [ | intros pages'; reflexivity ] ].
  intros w e He. unfold ghidra_trace_putmem_state.
  unfold convert_errors, bind at 1, record at 1.
  rewrite Hbody, He. unfold is_BaseException, record, with_log. cbn.
  now rewrite <- app_assoc.
Qed.

Lemma require_trace_live (w : World) (tr : Trace) :
  trace (STATE w) = Some tr -> require_trace w = (inr tr, w).
Proof. intros Htr. unfold require_trace. now rewrite Htr. Qed.

Lemma require_trace_none (w : World) :
  trace (STATE w) = None ->
  require_trace w = (inl (RuntimeError "No trace active"), w).
Proof. intros Htr. unfold require_trace. now rewrite Htr. Qed.

Lemma put_bytes_empty (start end_ : Z) (result pages : bool) (w : World) :
  (let '(s, e) :=
     if pages then quantize_pages start end_ else (start, end_) in
   e - s <= 0) ->
  put_bytes h start end_ result pages w
  = (match trace (STATE w) with
     | Some _ => inr tt
     | None => inl (RuntimeError "No trace active")
     end, w).
Proof.
  intros Hle. unfold put_bytes, bind at 1.
  destruct (trace (STATE w)) as [tr | ] eqn:Htr.
  - rewrite (require_trace_live w tr Htr).
    destruct (if pages then quantize_pages start end_ else (start, end_))
      as [s e].
    unfold bind, util_get_process.
    apply Z.leb_le in Hle. rewrite Hle. reflexivity.
  - now rewrite (require_trace_none w Htr).
Qed.

(** C10: when the range, after the page quantization if it is asked for,
    has [end - start <= 0], [put_bytes] leaves the world as it is: no
    memory read and no write to the trace is issued.  With a trace it
    returns; without one it raises from [require_trace], its first
    statement, which every caller has already passed.  In particular
    [putmem] with pages false and a length that is not positive returns
    with the world unchanged. *)
Theorem put_bytes_empty_range :
  (forall (start end_ : Z) (result pages : bool) (w : World),
     (let '(s, e) :=
        if pages then quantize_pages start end_ else (start, end_) in
      e - s <= 0) ->
     put_bytes h start end_ result pages w
     = (match trace (STATE w) with
        | Some _ => inr tt
        | None => inl (RuntimeError "No trace active")
        end, w)) /\
  (forall (address length : string) (result : bool) (a n : Z) (w : World)
          (tr : Trace),
     trace (STATE w) = Some tr ->
     parse_and_eval h address = inr a ->
     parse_and_eval h length = inr n ->
     n <= 0 ->
     putmem h address length result false w = (inr tt, w)).
Proof.
  split; [ exact put_bytes_empty | ].
  intros address length result a n w tr Htr Ha Hn Hle.
  unfold putmem, eval_range, eval_address, try_except, bind, lift, ret.
  rewrite Ha, Hn.
  rewrite (put_bytes_empty a (a + n) result false w) by (cbn; lia).
  now rewrite Htr.
Qed.

(** ** Regions *)

Lemma call_ok (ev : event) (w : World) :
  fails h (log w) ev = None ->
  call h ev w = (inr tt, with_log w (log w ++ [ev])).
Proof. intros H. unfold call, record. now rewrite H. Qed.

Lemma bind_util_get_process {A : Type} (k : option SBProcess -> M A)
    (w : World) :
  bind (util_get_process h) k w = k (get_process h (clock w)) w.
Proof. reflexivity. Qed.

Lemma bind_inr {A B : Type} (m : M A) (k : A -> M B) (w w' : World) (a : A) :
  m w = (inr a, w') -> bind m k w = k a w'.
Proof. intros H. unfold bind. now rewrite H. Qed.


(** What [put_regions] finds when the host yields no regions *)
Lemma no_regions_found {A : Type} (k : list Region -> M A) (w : World)
    (p : SBProcess) :
  get_process h (clock w) = Some p ->
  yields_no_regions h ->
  bind (should_query_regions h)
    (fun query =>
       bind (if query then
               try_except (lift (get_regions h)) is_Exception
                 (fun _ => ret [])
             else ret []) k) w
  = k [] w.
Proof.
  intros Hp Hno.
  unfold should_query_regions, bind, util_get_process, deref, try_except,
    lift, ret.
  destruct Hno as [[Hmod Hprobe] | [[e [He Hexc]] | Hnil]].
  - apply Z.eqb_neq in Hmod. rewrite Hmod, Hp, Hprobe. reflexivity.
  - rewrite He.
    destruct (GetNumModules h =? 0); [ now rewrite Hexc | ].
    rewrite Hp. destruct (probe_region_zero h); [ now rewrite Hexc | reflexivity ].
  - rewrite Hnil.
    destruct (GetNumModules h =? 0); [ reflexivity | ].
    rewrite Hp. destruct (probe_region_zero h); reflexivity.
Qed.

Lemma with_log_nil (w : World) : with_log w (log w ++ []) = w.
Proof. destruct w. unfold with_log. cbn. now rewrite app_nil_r. Qed.

Lemma with_log_app (w : World) (l1 l2 : list event) :
  with_log (with_log w (log w ++ l1)) (log (with_log w (log w ++ l1)) ++ l2)
  = with_log w (log w ++ l1 ++ l2).
Proof. unfold with_log. cbn. now rewrite app_assoc. Qed.

Lemma emits_ret {A : Type} (a : A) (w : World) : emits (ret a) w [] a.
Proof. unfold emits, ret. now rewrite with_log_nil. Qed.

Lemma emits_lift {A : Type} (a : A) (w : World) : emits (lift (inr a)) w [] a.
Proof. unfold emits, lift. now rewrite with_log_nil. Qed.

Lemma emits_call (ev : event) (w : World) :
  fails h (log w) ev = None -> emits (call h ev) w [ev] tt.
Proof. intros H. unfold emits. now apply call_ok. Qed.

Lemma emits_bind {A B : Type} (m : M A) (k : A -> M B) (w : World)
    (l1 l2 : list event) (a : A) (b : B) :
  emits m w l1 a ->
  emits (k a) (with_log w (log w ++ l1)) l2 b ->
  emits (bind m k) w (l1 ++ l2) b.
Proof.
  unfold emits. intros Hm Hk. unfold bind. rewrite Hm, Hk.
  now rewrite with_log_app.
Qed.

Lemma region_path_eq (procnum start : Z) :
  format REGION_PATTERN [("procnum", FInt procnum); ("start", FInt start)]
  = inr ("Processes[" ++ str_int procnum ++ "].Memory["
           ++ hex_zero_padded 8 start ++ "]").
Proof. reflexivity. Qed.

Lemma region_key_eq (start : Z) :
  format REGION_KEY_PATTERN [("start", FInt start)]
  = inr ("[" ++ hex_zero_padded 8 start ++ "]").
Proof. reflexivity. Qed.

Lemma memory_path_eq (procnum : Z) :
  format MEMORY_PATTERN [("procnum", FInt procnum)]
  = inr ("Processes[" ++ str_int procnum ++ "].Memory").
Proof. reflexivity. Qed.

Ltac fold_emits :=
  match goal with
  | |- ?m ?w = (inr ?a, with_log ?w (log ?w ++ ?l)) => change (emits m w l a)
  end.

(** One step of a run along which nothing raises: the hypotheses in the
    context decide the tests and the format lemmas give the paths. *)
Ltac emit_step :=
  cbv beta;
  lazymatch goal with
  | |- emits (bind _ _) _ _ _ => eapply emits_bind
  | |- emits (ret _) _ _ _ => apply emits_ret
  | |- emits (lift (format _ _)) _ _ _ =>
      first [ rewrite region_path_eq | rewrite region_key_eq
            | rewrite memory_path_eq ];
      apply emits_lift
  | |- emits (call _ _) _ _ _ => apply emits_call; auto
  | |- emits (if ?b then _ else _) _ _ _ =>
      match goal with H : b = _ |- _ => rewrite H end
  | |- emits (match ?x with _ => _ end) _ _ _ =>
      match goal with H : x = _ |- _ => rewrite H end
  end.

(** C6: when the host yields no regions and a thread is selected,
    [put_regions], run with a process, a trace with its memory mapper, and a
    trace that accepts every call, writes exactly one region to the trace,
    the one for [full_mem()]: it creates the object of that region, sets its
    range, which is the range of the fallback region, and its other
    attributes, inserts the object into the tree, and then prunes the memory
    container down to the key of that one region.  These are all the effects
    of the run, in this order, so the container is not left empty. *)
Theorem put_regions_fallback (w : World) (p : SBProcess) (t : SBThread)
    (tr : Trace) (mm : DefaultMemoryMapper) :
  get_process h (clock w) = Some p ->
  selected_thread h = Some t ->
  yields_no_regions h ->
  trace (STATE w) = Some tr ->
  memory_mapper (extra tr) = Some mm ->
  (forall l ev, fails h l ev = None) ->
  let fm := full_mem h in
  let key := "[" ++ hex_zero_padded 8 (r_start fm) ++ "]" in
  let mpath := "Processes[" ++ str_int (GetProcessID p) ++ "].Memory" in
  let rpath := "Processes[" ++ str_int (GetProcessID p) ++ "].Memory" ++ key in
  let base := fst (map mm (Some p) (r_start fm)) in
  let addr := snd (map mm (Some p) (r_start fm)) in
  exists evs : list event,
    put_regions h w = (inr tt, with_log w (log w ++ evs)) /\
    evs
    = ([CreateObject rpath] ++
       (if String.eqb base (space addr) then []
        else [CreateOverlaySpace base (space addr)]) ++
       [SetValue rpath "Range"
          (VRange (extend addr (r_end fm - r_start fm))) None] ++
       match r_perms fm with
       | Some perms => [SetValue rpath "Permissions" (VStr perms) None]
       | None => []
       end ++
       [SetValue rpath "_readable"
          (VBool (perm_or_none (r_perms fm) "r")) None;
        SetValue rpath "_writable"
          (VBool (perm_or_none (r_perms fm) "w")) None;
        SetValue rpath "_executable"
          (VBool (perm_or_none (r_perms fm) "x")) None;
        SetValue rpath "Offset" (VStr (hex (r_offset fm))) None;
        SetValue rpath "Object File"
          (value_of_option_string (r_objfile fm)) None;
        InsertObject rpath;
        RetainValues mpath [key] "elements"])%list /\
    created evs = [rpath] /\
    inserted evs = [rpath] /\
    retained evs = [(mpath, [key])] /\
    In (SetValue rpath "Range"
          (VRange (extend (snd (map mm (Some p) (r_start fm)))
                     (r_end fm - r_start fm))) None) evs.
Proof.
  intros Hp Ht Hno Htr Hmm Hok fm key mpath rpath base addr.
  subst base addr rpath mpath key fm.
  destruct (map mm (Some p) (r_start (full_mem h))) as [base addr] eqn:Hmap.
  cbn [fst snd].
  destruct (String.eqb base (space addr)) eqn:Hbase;
    destruct (r_perms (full_mem h)) as [perms | ] eqn:Hperms.
  all: assert (Hoverlay : negb (String.eqb base (space addr)) = negb _)
         by (rewrite Hbase; reflexivity); cbn [negb] in Hoverlay.
  all: unfold put_regions.
  all: rewrite bind_util_get_process, Hp.
  all: rewrite (no_regions_found _ w p Hp Hno).
  all: rewrite Ht; cbn [len List.length Z.of_nat Z.eqb andb].
  all: rewrite (bind_inr _ _ w w tr (require_trace_live w tr Htr)).
  all: unfold require_mm; rewrite Hmm.
  all: cbn [for_append deref]; unfold overlay_if_needed.
  all: eexists; split; [ fold_emits; repeat emit_step | ].
  all: rewrite ?Hperms; cbn [snd app];
    split; [ reflexivity
           | split; [ reflexivity
                    | split; [ reflexivity | split; [ reflexivity | ] ] ] ].
  all: cbn [app In]; repeat first [ left; reflexivity | right ].
Qed.

(** ** Waiting for the process to stop *)

(** With a process, the first evaluation of the loop condition raises: the
    [lldb] module has no constant of the name the source uses. *)
Lemma wait_loop_raises (fuel : nat) (start timeout : Z) (p : SBProcess)
    (w : World) :
  wait_loop h (S fuel) start timeout (Some p) w
  = (inl (AttributeError "module 'lldb' has no attribute 'eStateRunnig'"), w).
Proof. reflexivity. Qed.

(** The loop never outlives its fuel. *)
Lemma wait_loop_ends (start timeout : Z) (p : option SBProcess) (w : World) :
  fst (wait_loop h (wait_fuel timeout) start timeout p w) <> inr None.
Proof. destruct p; cbn; discriminate. Qed.

Lemma wait_stopped_never_polls (w : World) (p : SBProcess) :
  get_process h (clock w) = Some p ->
  ghidra_util_wait_stopped h [] w
  = (inr tt,
     with_log w
       (log w ++ [ResultClear;
                  SetError "module 'lldb' has no attribute 'eStateRunnig'"])).
Proof.
  intros Hp.
  unfold ghidra_util_wait_stopped, convert_errors, ghidra_util_wait_stopped_func.
  unfold bind, record, ret, time_time, util_get_process. cbn.
  rewrite Hp. cbn. unfold with_log. cbn. now rewrite <- app_assoc.
Qed.
(** ** The transaction guard *)

Lemma inert_ret {A : Type} (a : A) (w : World) : inert (ret a) w.
Proof. now exists (inr a). Qed.

Lemma inert_raise {A : Type} (e : exn) (w : World) : inert (@raise A e) w.
Proof. now exists (inl e). Qed.

Lemma inert_lift {A : Type} (r : exn + A) (w : World) : inert (lift r) w.
Proof. now exists r. Qed.

Lemma inert_index (args : list string) (i : nat) (w : World) :
  inert (index args i) w.
Proof. unfold index. destruct (nth_error args i); [ apply inert_ret | apply inert_raise ]. Qed.

Lemma inert_require_trace (w : World) : inert require_trace w.
Proof. unfold inert, require_trace. destruct (trace (STATE w)); eauto. Qed.

Lemma inert_bind {A B : Type} (m : M A) (k : A -> M B) (w : World) :
  inert m w -> (forall a, inert (k a) w) -> inert (bind m k) w.
Proof.
  intros [r Hm] Hk. unfold inert, bind. rewrite Hm.
  destruct r as [e | a]; [ eauto | apply Hk ].
Qed.

Lemma inert_eval_flag (expr : string) (w : World) : inert (eval_flag h expr) w.
Proof.
  unfold eval_flag. apply inert_bind; [ apply inert_lift | intros; apply inert_ret ].
Qed.

Ltac inert_tac :=
  repeat first
    [ apply inert_ret | apply inert_raise | apply inert_lift
    | apply inert_index | apply inert_require_trace | apply inert_eval_flag
    | apply inert_bind; [ | intros ? ]
    | match goal with
      | |- inert (if ?b then _ else _) _ => destruct b
      | |- inert (match ?x with _ => _ end) _ => destruct x
      end ].

Lemma refused_some_raise {A : Type} (e : exn) (w : World) :
  exists e', @raise A e w = (inl e', w).
Proof. now exists e. Qed.

Lemma stopped_bind {A B : Type} (m : M A) (k : A -> M B) (w : World) :
  inert m w ->
  (forall a, exists e, k a w = (inl e, w)) ->
  exists e, bind m k w = (inl e, w).
Proof.
  intros [r Hm] Hk. unfold bind. rewrite Hm.
  destruct r as [e | a]; [ eauto | apply Hk ].
Qed.

Lemma stopped_require_tx {B : Type} (k : Trace * Transaction -> M B)
    (w : World) :
  tx (STATE w) = None ->
  exists e, bind require_tx k w = (inl e, w).
Proof.
  intros Htx. unfold require_tx, require_trace, bind.
  destruct (trace (STATE w)); [ rewrite Htx | ]; eauto.
Qed.

(** Every path of a guarded command reaches [require_tx] through steps
    that leave the world alone, or raises before. *)
Ltac stopped_tac :=
  repeat first
    [ apply refused_some_raise
    | apply stopped_require_tx; assumption
    | apply stopped_bind; [ solve [ inert_tac ] | intros ? ]
    | match goal with
      | |- exists e, (if ?b then _ else _) _ = _ => destruct b
      | |- exists e, (match ?x with _ => _ end) _ = _ => destruct x
      end ].

Lemma guarded_stops (c : CommandName) (args : list string) (w : World) :
  guarded c = true -> tx (STATE w) = None ->
  exists e, command_func h c args w = (inl e, w).
Proof.
  intros Hg Htx.
  destruct c; try discriminate Hg; clear Hg; cbv [command_func].
  all: match goal with
       | |- exists e, ?f h ?a ?v = _ => unfold f
       | |- exists e, ?f ?a ?v = _ => unfold f
       end.
  all: stopped_tac.
Qed.

(** Running the words of a command up to the guard: the definitions that
    take the arguments apart are unfolded, and the hypotheses decide the
    tests they leave. *)
Ltac to_guard :=
  repeat
    (cbv beta iota delta
       [bind ret raise lift index eval_flag require_tx require_trace
        len List.length nth_error negb Z.eqb Z.ltb Z.compare Z.of_nat
        Pos.of_succ_nat Pos.succ Pos.eqb Pos.compare Pos.compare_cont
        List.tl];
     try match goal with
         | H : ?x = _ |- context [match ?x with _ => _ end] => rewrite H
         end).

Lemma len_cons_ltb {A : Type} (x : A) (l : list A) : (len (x :: l) <? 1) = false.
Proof.
  apply Z.ltb_ge. unfold len. cbn [List.length]. rewrite Nat2Z.inj_succ.
  pose proof (Nat2Z.is_nonneg (List.length l)). lia.
Qed.

Lemma retain_values_guard (args : list string) (w : World) :
  accepts h trace_retain_values args = true -> tx (STATE w) = None ->
  ghidra_trace_retain_values_func h args w = (inl (guard_error w), w).
Proof.
  intros Hacc Htx. cbv [accepts] in Hacc.
  destruct (parse_retain_values h args) as [ e | [kinds [ | path keys ] ] ]
    eqn:Hparse; try discriminate Hacc.
  unfold ghidra_trace_retain_values_func, bind at 1, lift. rewrite Hparse.
  rewrite len_cons_ltb. unfold guard_error.
  destruct (trace (STATE w)) as [tr | ] eqn:Htr.
  all: cbv beta iota delta [bind ret index nth_error require_tx require_trace].
  all: rewrite Htr; try rewrite Htx; reflexivity.
Qed.

Lemma guarded_error (c : CommandName) (args : list string) (w : World) :
  guarded c = true -> accepts h c args = true -> tx (STATE w) = None ->
  command_func h c args w = (inl (guard_error w), w).
Proof.
  intros Hg Hacc Htx.
  destruct c; try discriminate Hg; clear Hg;
    try (apply retain_values_guard; assumption).
  all: unfold guard_error.
  all: destruct (trace (STATE w)) as [tr | ] eqn:Htr.
  all: try (destruct args as [ | a0 [ | a1 [ | a2 [ | a3 [ | a4 args ] ] ] ] ];
            try discriminate Hacc).
  all: cbv [accepts is_inr] in Hacc.
  all: repeat match type of Hacc with
              | match ?x with _ => _ end = true =>
                  destruct x eqn:?; try discriminate Hacc; subst
              end.
  all: cbv [command_func].
  all: match goal with
       | |- ?f h ?a ?v = _ => unfold f
       | |- ?f ?a ?v = _ => unfold f
       end.
  all: to_guard.
  all: reflexivity.
Qed.

(** ** Computations that leave the session state alone *)

Lemma keeps_ret {A : Type} (a : A) : keeps (ret a).
Proof. intros w. reflexivity. Qed.

Lemma keeps_raise {A : Type} (e : exn) : keeps (@raise A e).
Proof. intros w. reflexivity. Qed.

Lemma keeps_lift {A : Type} (r : exn + A) : keeps (lift r).
Proof. intros w. reflexivity. Qed.

Lemma keeps_record (ev : event) : keeps (record ev).
Proof. intros w. reflexivity. Qed.

Lemma keeps_bind {A B : Type} (m : M A) (k : A -> M B) :
  keeps m -> (forall a, keeps (k a)) -> keeps (bind m k).
Proof.
  intros Hm Hk w. unfold bind. specialize (Hm w).
  destruct (m w) as [[e | a] w']; cbn in *; [ assumption | ].
  now rewrite Hk.
Qed.

Lemma keeps_call (ev : event) : keeps (call h ev).
Proof. intros w. unfold call. destruct (fails h (log w) ev); reflexivity. Qed.

Lemma keeps_try_except {A : Type} (body : M A) (catches : exn -> bool)
    (handler : exn -> M A) :
  keeps body -> (forall e, keeps (handler e)) ->
  keeps (try_except body catches handler).
Proof.
  intros Hb Hh w. unfold try_except. specialize (Hb w).
  destruct (body w) as [[e | a] w']; cbn in *; [ | assumption ].
  destruct (catches e); cbn; [ now rewrite Hh | assumption ].
Qed.

Lemma keeps_convert_errors (func : M unit) :
  keeps func -> keeps (convert_errors func).
Proof.
  intros Hf w. unfold convert_errors, bind, record, is_BaseException. cbn.
  specialize (Hf (with_log w (log w ++ [ResultClear]))).
  destruct (func _) as [[e | a] w']; cbn in *; assumption.
Qed.

Lemma keeps_open_tx {A : Type} (description : string)
    (body : Transaction -> M A) :
  (forall t, keeps (body t)) -> keeps (open_tx h description body).
Proof.
  intros Hb. unfold open_tx.
  apply keeps_bind; [ apply keeps_call | intros _ w ].
  specialize (Hb (mkTransaction description false) w).
  destruct (body _ w) as [[e | a] w']; cbn in Hb; rewrite <- Hb.
  - apply (keeps_bind (call h Abort) (fun _ => raise e));
      [ apply keeps_call | intros; apply keeps_raise ].
  - apply (keeps_bind (call h Commit) (fun _ => ret a));
      [ apply keeps_call | intros; apply keeps_ret ].
Qed.

Lemma keeps_for_each {A : Type} (xs : list A) (body : A -> M unit) :
  (forall x, keeps (body x)) -> keeps (for_each xs body).
Proof.
  intros Hb. induction xs as [ | x xs IH ]; cbn.
  - apply keeps_ret.
  - apply keeps_bind; auto.
Qed.

Lemma keeps_for_append {A B : Type} (xs : list A) (acc : list B)
    (body : A -> M B) :
  (forall x, keeps (body x)) -> keeps (for_append xs acc body).
Proof.
  intros Hb. revert acc. induction xs as [ | x xs IH ]; intros acc; cbn.
  - apply keeps_ret.
  - apply keeps_bind; auto.
Qed.

Lemma keeps_for_fold {A S : Type} (xs : list A) (acc : S)
    (body : S -> A -> M S) :
  (forall s x, keeps (body s x)) -> keeps (for_fold xs acc body).
Proof.
  intros Hb. revert acc. induction xs as [ | x xs IH ]; intros acc; cbn.
  - apply keeps_ret.
  - apply keeps_bind; auto.
Qed.

Lemma keeps_reader {A : Type} (f : World -> exn + A) :
  keeps (fun w => (f w, w)).
Proof. intros w. reflexivity. Qed.

Lemma keeps_require_client : keeps require_client.
Proof. intros w. unfold require_client. now destruct (client (STATE w)). Qed.

Lemma keeps_require_trace : keeps require_trace.
Proof. intros w. unfold require_trace. now destruct (trace (STATE w)). Qed.

Lemma keeps_require_tx : keeps require_tx.
Proof.
  unfold require_tx. apply keeps_bind; [ apply keeps_require_trace | ].
  intros tr w. now destruct (tx (STATE w)).
Qed.

Lemma keeps_time_sleep (ms : Z) : keeps (time_sleep ms).
Proof. intros w. reflexivity. Qed.

Lemma keeps_set_convenience_variable (name val : string) :
  keeps (set_convenience_variable name val).
Proof. intros w. reflexivity. Qed.

Lemma keeps_wait_loop (fuel : nat) (start timeout : Z) (p : option SBProcess) :
  keeps (wait_loop h fuel start timeout p).
Proof.
  revert p. induction fuel as [ | fuel IH ]; intros p; cbn [wait_loop].
  - apply keeps_ret.
  - apply keeps_bind.
    + destruct p; cbn; [ apply keeps_raise | apply keeps_ret ].
    + intros [ | ]; [ | apply keeps_ret ].
      apply keeps_bind; [ apply keeps_time_sleep | intros _ ].
      apply keeps_bind; [ apply (keeps_reader (fun w => inr _)) | intros p' ].
      apply keeps_bind; [ apply (keeps_reader (fun w => inr _)) | intros now ].
      destruct (now - start >? 1000 * timeout); [ apply keeps_raise | apply IH ].
Qed.

Ltac head_of t :=
  lazymatch t with
  | ?f _ => head_of f
  | _ => t
  end.

(** The session state is kept by every primitive but the setters; a
    defined function is unfolded into its steps. *)
Ltac keeps_tac :=
  repeat first
    [ apply keeps_ret | apply keeps_raise | apply keeps_lift
    | apply keeps_record | apply keeps_call
    | apply keeps_require_client | apply keeps_require_trace
    | apply keeps_require_tx | apply keeps_time_sleep
    | apply keeps_set_convenience_variable | apply keeps_wait_loop
    | apply keeps_convert_errors | apply keeps_open_tx; intros ?
    | apply keeps_try_except; [ | intros ? ]
    | apply keeps_for_each; intros ?
    | apply keeps_for_append; intros ?
    | apply keeps_for_fold; intros ? ?
    | apply keeps_bind; [ | intros ? ]
    | match goal with
      | |- keeps (if ?b then _ else _) => destruct b
      | |- keeps (match ?x with _ => _ end) => destruct x
      | |- keeps ((match ?x with _ => _ end) _) => destruct x
      | |- keeps (fun w => (_, w)) => intros ?; reflexivity
      | |- keeps ?m => let f := head_of m in progress unfold f
      end ].

Lemma other_commands_keep (c : CommandName) (args : list string) :
  session_command c = false -> keeps (command_func h c args).
Proof.
  intros Hc. destruct c; try discriminate Hc; clear Hc; cbv [command_func].
  all: keeps_tac.
Qed.

(** ** Triples on the session state *)

Ltac state_tac :=
  intros;
  repeat match goal with
         | I := _ : State -> Prop |- _ => subst I
         end;
  cbv beta in *;
  repeat match goal with
         | H : exists _, _ |- _ => destruct H
         | H : _ /\ _ |- _ => destruct H
         end;
  subst;
  repeat match goal with
         | s : State |- _ => destruct s as [[?|] [?|] [?|]]
         end;
  unfold nested, nested_b in *; cbn in *;
  repeat split; try tauto; try congruence.

Lemma holds_ret {A : Type} (P : State -> Prop) (a : A)
    (Q : A -> State -> Prop) :
  (forall s, P s -> Q a s) -> holds P (ret a) Q.
Proof. intros H w Hw. cbn. auto. Qed.

Lemma holds_raise {A : Type} (P : State -> Prop) (e : exn)
    (Q : A -> State -> Prop) :
  (forall s, P s -> nested s) -> holds P (raise e) Q.
Proof. intros H w Hw. cbn. auto. Qed.

Lemma holds_bind {A B : Type} (P : State -> Prop) (m : M A) (k : A -> M B)
    (R : A -> State -> Prop) (Q : B -> State -> Prop) :
  holds P m R -> (forall a, holds (R a) (k a) Q) -> holds P (bind m k) Q.
Proof.
  intros Hm Hk w Hw. unfold bind. specialize (Hm w Hw).
  destruct (m w) as [[e | a] w']; [ assumption | ].
  exact (Hk a w' Hm).
Qed.

Lemma holds_keeps {A : Type} (P : State -> Prop) (m : M A) :
  keeps m -> (forall s, P s -> nested s) -> holds P m (fun _ => P).
Proof.
  intros Hk HP w Hw. specialize (Hk w).
  destruct (m w) as [[e | a] w']; cbn in Hk; rewrite Hk; auto.
Qed.

Lemma holds_post {A : Type} (P : State -> Prop) (m : M A)
    (Q Q' : A -> State -> Prop) :
  holds P m Q -> (forall a s, Q a s -> Q' a s) -> holds P m Q'.
Proof.
  intros Hm HQ w Hw. specialize (Hm w Hw).
  destruct (m w) as [[e | a] w']; auto.
Qed.


Lemma holds_set_client (P : State -> Prop) (v : option Client)
    (Q : unit -> State -> Prop) :
  (forall s, P s -> Q tt (mkState v (trace s) (tx s))) ->
  holds P (set_client v) Q.
Proof. intros H w Hw. cbn. auto. Qed.

Lemma holds_set_trace (P : State -> Prop) (v : option Trace)
    (Q : unit -> State -> Prop) :
  (forall s, P s -> Q tt (mkState (client s) v (tx s))) ->
  holds P (set_trace v) Q.
Proof. intros H w Hw. cbn. auto. Qed.

Lemma holds_set_tx (P : State -> Prop) (v : option Transaction)
    (Q : unit -> State -> Prop) :
  (forall s, P s -> Q tt (mkState (client s) (trace s) v)) ->
  holds P (set_tx v) Q.
Proof. intros H w Hw. cbn. auto. Qed.


Lemma holds_require_client (P : State -> Prop) :
  (forall s, P s -> nested s) ->
  holds P require_client (fun _ s => P s /\ client s <> None).
Proof.
  intros HP w Hw. unfold require_client.
  destruct (client (STATE w)) eqn:Hc; [ | auto ].
  split; [ assumption | congruence ].
Qed.

Lemma holds_require_no_client (P : State -> Prop) :
  (forall s, P s -> nested s) ->
  holds P require_no_client (fun _ s => P s /\ client s = None).
Proof.
  intros HP w Hw. unfold require_no_client.
  destruct (client (STATE w)) eqn:Hc; auto.
Qed.

Lemma holds_require_trace (P : State -> Prop) :
  (forall s, P s -> nested s) ->
  holds P require_trace (fun _ s => P s /\ trace s <> None).
Proof.
  intros HP w Hw. unfold require_trace.
  destruct (trace (STATE w)) eqn:Hc; [ | auto ].
  split; [ assumption | congruence ].
Qed.

Lemma holds_try_except {A : Type} (P : State -> Prop) (body : M A)
    (catches : exn -> bool) (handler : exn -> M A)
    (Q : A -> State -> Prop) :
  holds P body Q -> (forall e, holds nested (handler e) Q) ->
  holds P (try_except body catches handler) Q.
Proof.
  intros Hb Hh w Hw. unfold try_except. specialize (Hb w Hw).
  destruct (body w) as [[e | a] w']; [ | assumption ].
  destruct (catches e); [ exact (Hh e w' Hb) | assumption ].
Qed.

Lemma holds_convert_errors (P : State -> Prop) (func : M unit) :
  holds P func (fun _ => nested) ->
  holds P (convert_errors func) (fun _ => nested).
Proof.
  intros Hf w Hw. unfold convert_errors, bind, record, is_BaseException.
  cbn. specialize (Hf (with_log w (log w ++ [ResultClear])) Hw).
  destruct (func _) as [[e | a] w']; cbn; assumption.
Qed.

Lemma holds_open_tx {A : Type} (P : State -> Prop) (description : string)
    (body : Transaction -> M A) :
  (forall s, P s -> nested s) ->
  (forall t, holds P (body t) (fun _ => nested)) ->
  holds P (open_tx h description body) (fun _ => nested).
Proof.
  intros HP Hb. unfold open_tx.
  apply (holds_bind P _ _ (fun _ => P));
    [ apply holds_keeps; [ apply keeps_call | assumption ] | intros _ ].
  intros w Hw. specialize (Hb (mkTransaction description false) w Hw).
  destruct (body _ w) as [[e | a] w'].
  - pose proof (keeps_call Abort w') as Hk. unfold bind.
    destruct (call h Abort w') as [[e' | u] w'']; cbn in *; now rewrite Hk.
  - pose proof (keeps_call Commit w') as Hk. unfold bind.
    destruct (call h Commit w') as [[e' | u] w'']; cbn in *; now rewrite Hk.
Qed.

Ltac split_test :=
  match goal with
  | |- holds _ (if ?b then _ else _) _ => destruct b
  | |- holds _ (match ?x with _ => _ end) _ => destruct x
  end.

(** A step that keeps the session state, under the assertion [I] *)
Ltac keep_step I :=
  apply (holds_bind _ _ _ (fun _ => I));
  [ apply holds_keeps; [ solve [ keeps_tac ] | solve [ state_tac ] ]
  | intros ?; cbv beta ].

Lemma holds_reset_tx : holds nested reset_tx (fun _ => nested).
Proof. apply holds_set_tx. state_tac. Qed.

Lemma holds_reset_trace (I : State -> Prop) :
  (forall s, I s -> nested s) ->
  (forall s, I s -> I (mkState (client s) None None)) ->
  holds I reset_trace (fun _ => I).
Proof.
  intros HI Hreset w Hw. cbn. auto.
Qed.

Lemma holds_reset_client : holds nested reset_client (fun _ => nested).
Proof. intros w Hw. cbn. reflexivity. Qed.

Lemma reset_trace_nested : holds nested reset_trace (fun _ => nested).
Proof. apply holds_reset_trace; state_tac. Qed.

(** ** The commands that assign the session state *)

Lemma connect_nested (args : list string) :
  holds nested (ghidra_trace_connect_func h args) (fun _ => nested).
Proof.
  unfold ghidra_trace_connect_func.
  eapply holds_bind; [ apply holds_require_no_client; state_tac | intros ?; cbv beta ].
  set (I := fun s => nested s /\ client s = None).
  destruct (negb (len args =? 1)); [ apply holds_raise; state_tac | ].
  keep_step I.
  split_test; [ apply holds_raise; state_tac | ].
  keep_step I. keep_step I.
  apply holds_try_except; [ | intros e; apply holds_raise; state_tac ].
  keep_step I. keep_step I. keep_step I.
  apply holds_set_client. state_tac.
Qed.

Lemma listen_nested (args : list string) :
  holds nested (ghidra_trace_listen_func h args) (fun _ => nested).
Proof.
  unfold ghidra_trace_listen_func.
  keep_step nested. split_test.
  eapply holds_bind; [ apply holds_require_no_client; state_tac | intros ?; cbv beta ].
  set (I := fun s => nested s /\ client s = None).
  apply holds_try_except; [ | intros e; apply holds_raise; state_tac ].
  keep_step I. keep_step I.
  split_test.
  keep_step I. keep_step I.
  split_test.
  keep_step I. keep_step I.
  apply holds_set_client. state_tac.
Qed.

Lemma disconnect_nested (args : list string) :
  holds nested (ghidra_trace_disconnect_func h args) (fun _ => nested).
Proof.
  unfold ghidra_trace_disconnect_func.
  destruct (negb (len args =? 0)); [ apply holds_raise; state_tac | ].
  keep_step nested. keep_step nested.
  apply holds_reset_client.
Qed.

Lemma set_memory_mapper_connected (mm : DefaultMemoryMapper) :
  holds (fun s => nested s /\ client s <> None) (set_memory_mapper mm)
    (fun _ s => nested s /\ client s <> None).
Proof.
  intros w Hw. unfold set_memory_mapper.
  destruct (STATE w) as [[c | ] [t | ] [x | ]] eqn:Hs; cbn; rewrite ?Hs; cbn;
    state_tac.
Qed.

Lemma set_register_mapper_connected (rm : DefaultRegisterMapper) :
  holds (fun s => nested s /\ client s <> None) (set_register_mapper rm)
    (fun _ s => nested s /\ client s <> None).
Proof.
  intros w Hw. unfold set_register_mapper.
  destruct (STATE w) as [[c | ] [t | ] [x | ]] eqn:Hs; cbn; rewrite ?Hs; cbn;
    state_tac.
Qed.

(** [start_trace] keeps a connected, nested session connected and nested,
    wherever it stops. *)
Lemma start_trace_connected (name : string) :
  holds (fun s => nested s /\ client s <> None) (start_trace h name)
    (fun _ s => nested s /\ client s <> None).
Proof.
  set (I := fun s => nested s /\ client s <> None).
  unfold start_trace.
  keep_step I. split_test.
  keep_step I. keep_step I.
  apply (holds_bind _ _ _ (fun _ => I));
    [ apply holds_set_trace; subst I; state_tac | intros ?; cbv beta ].
  keep_step I.
  apply (holds_bind _ _ _ (fun _ => I));
    [ apply set_memory_mapper_connected | intros ?; cbv beta ].
  keep_step I.
  apply (holds_bind _ _ _ (fun _ => I));
    [ apply set_register_mapper_connected | intros ?; cbv beta ].
  keep_step I. keep_step I. keep_step I.
  apply holds_keeps; [ keeps_tac | subst I; state_tac ].
Qed.

Lemma start_nested (args : list string) :
  holds nested (ghidra_trace_start_func h args) (fun _ => nested).
Proof.
  unfold ghidra_trace_start_func.
  keep_step nested.
  eapply holds_bind; [ apply holds_require_client; state_tac | intros ?; cbv beta ].
  set (I := fun s => nested s /\ client s <> None).
  apply (holds_bind _ _ _ (fun _ => I));
    [ apply holds_keeps;
      [ intros w; unfold require_no_trace; now destruct (trace (STATE w))
      | subst I; state_tac ]
    | intros ?; cbv beta ].
  eapply holds_post; [ apply start_trace_connected | subst I; state_tac ].
Qed.

Lemma stop_nested (args : list string) :
  holds nested (ghidra_trace_stop_func h args) (fun _ => nested).
Proof.
  unfold ghidra_trace_stop_func.
  destruct (negb (len args =? 0)); [ apply holds_raise; state_tac | ].
  keep_step nested. keep_step nested.
  apply reset_trace_nested.
Qed.

Lemma restart_nested (args : list string) :
  holds nested (ghidra_trace_restart_func h args) (fun _ => nested).
Proof.
  unfold ghidra_trace_restart_func.
  keep_step nested.
  eapply holds_bind; [ apply holds_require_client; state_tac | intros ?; cbv beta ].
  set (I := fun s => nested s /\ client s <> None).
  keep_step I.
  apply (holds_bind _ _ _ (fun _ => I)).
  - split_test; [ | apply holds_ret; auto ].
    keep_step I. apply holds_reset_trace; subst I; state_tac.
  - intros ?; cbv beta.
    eapply holds_post; [ apply start_trace_connected | subst I; state_tac ].
Qed.

Lemma txstart_nested (args : list string) :
  holds nested (ghidra_trace_txstart_func h args) (fun _ => nested).
Proof.
  unfold ghidra_trace_txstart_func.
  destruct (negb (len args =? 1)); [ apply holds_raise; state_tac | ].
  keep_step nested.
  apply (holds_bind _ _ _ (fun _ => nested));
    [ apply holds_keeps;
      [ intros w; unfold require_no_tx; now destruct (tx (STATE w))
      | state_tac ]
    | intros ?; cbv beta ].
  eapply holds_bind; [ apply holds_require_trace; state_tac | intros ?; cbv beta ].
  set (I := fun s => nested s /\ trace s <> None).
  keep_step I.
  apply holds_set_tx. subst I. state_tac.
Qed.

Lemma txcommit_nested (args : list string) :
  holds nested (ghidra_trace_txcommit_func h args) (fun _ => nested).
Proof.
  unfold ghidra_trace_txcommit_func.
  destruct (negb (len args =? 0)); [ apply holds_raise; state_tac | ].
  keep_step nested. keep_step nested.
  apply holds_reset_tx.
Qed.

Lemma txabort_nested (args : list string) :
  holds nested (ghidra_trace_txabort_func h args) (fun _ => nested).
Proof.
  unfold ghidra_trace_txabort_func.
  destruct (negb (len args =? 0)); [ apply holds_raise; state_tac | ].
  keep_step nested. keep_step nested. keep_step nested.
  apply holds_reset_tx.
Qed.

Lemma txopen_nested (args : list string) (nested_command : M unit) :
  holds nested nested_command (fun _ => nested) ->
  holds nested (ghidra_trace_txopen_func h args nested_command)
    (fun _ => nested).
Proof.
  intros IH. unfold ghidra_trace_txopen_func.
  destruct (negb (len args =? 2)); [ apply holds_raise; state_tac | ].
  keep_step nested. keep_step nested.
  unfold open_tracked_tx.
  eapply holds_bind; [ apply holds_require_trace; state_tac | intros ?; cbv beta ].
  set (I := fun s => nested s /\ trace s <> None).
  apply (holds_bind _ _ _ (fun _ => nested)).
  - apply holds_open_tx; [ subst I; state_tac | intros t ].
    apply (holds_bind _ _ _ (fun _ => nested));
      [ apply holds_set_tx; subst I; state_tac | intros ?; cbv beta ].
    keep_step nested. exact IH.
  - intros ?; cbv beta.
    apply (holds_bind _ _ _ (fun _ => nested));
      [ apply holds_reset_tx | intros ?; apply holds_ret; auto ].
Qed.

Lemma command_nested (c : CommandName) (args : list string) :
  holds nested (command_func h c args) (fun _ => nested).
Proof.
  destruct (session_command c) eqn:Hc.
  - destruct c; try discriminate Hc; cbv [command_func];
      auto using connect_nested, listen_nested, disconnect_nested,
        start_nested, stop_nested, restart_nested, txstart_nested,
        txcommit_nested, txabort_nested.
  - apply holds_keeps; [ now apply other_commands_keep | auto ].
Qed.

Lemma run_nested (c : Command) : holds nested (run h c) (fun _ => nested).
Proof.
  induction c as [ name args | args nested_command IH | text ]; cbn [run].
  - apply holds_convert_errors, command_nested.
  - unfold ghidra_trace_txopen. apply holds_convert_errors.
    now apply txopen_nested.
  - apply holds_ret. auto.
Qed.

Lemma convert_errors_raises (func : M unit) (w : World) (e : exn) :
  func (with_log w (log w ++ [ResultClear]))
  = (inl e, with_log w (log w ++ [ResultClear])) ->
  convert_errors func w
  = (inr tt, with_log w (log w ++ [ResultClear; SetError (str_exn e)])).
Proof.
  intros H. unfold convert_errors, bind, record, is_BaseException. cbn.
  unfold with_log in *. cbn in *. rewrite H. cbn.
  now rewrite <- app_assoc.
Qed.

(** C3, amended: a guarded command (the commands that change what the
    trace holds, and tx-commit and tx-abort), invoked while no transaction
    is open, raises and leaves the world as it was, so that nothing is
    issued to the trace.  When its arguments are accepted the error names
    the missing resource: "No transaction" if a trace is active, "No trace
    active" if there is none; the command then ends with that error set on
    its result.  And tx-start with its one argument, invoked while a
    transaction is open, fails with "Transaction already started". *)
Theorem guarded_commands_need_transaction :
  (forall (c : CommandName) (args : list string) (w : World),
     guarded c = true -> tx (STATE w) = None ->
     (exists e, command_func h c args w = (inl e, w)) /\
     (accepts h c args = true ->
      command_func h c args w
      = (inl (RuntimeError match trace (STATE w) with
                           | Some _ => "No transaction"
                           | None => "No trace active"
                           end), w) /\
      run h (Ghidra c args) w
      = (inr tt,
         with_log w
           (log w ++ [ResultClear;
                      SetError match trace (STATE w) with
                               | Some _ => "No transaction"
                               | None => "No trace active"
                               end])))) /\
  (forall (description : string) (w : World) (t : Transaction),
     tx (STATE w) = Some t ->
     ghidra_trace_txstart_func h [description] w
     = (inl (RuntimeError "Transaction already started"), w) /\
     run h (Ghidra trace_tx_start [description]) w
     = (inr tt,
        with_log w
          (log w ++ [ResultClear; SetError "Transaction already started"]))).
Proof.
  split.
  - intros c args w Hg Htx. split; [ now apply guarded_stops | ].
    intros Hacc. split; [ exact (guarded_error c args w Hg Hacc Htx) | ].
    cbn [run].
    rewrite (convert_errors_raises _ w (guard_error w)); [ reflexivity | ].
    exact (guarded_error c args (with_log w (log w ++ [ResultClear]))
             Hg Hacc Htx).
  - intros description w t Htx.
    assert (Hraise : forall w', tx (STATE w') = Some t ->
              ghidra_trace_txstart_func h [description] w'
              = (inl (RuntimeError "Transaction already started"), w')).
    { intros w' Htx'. unfold ghidra_trace_txstart_func. cbn.
      unfold bind, require_no_tx. now rewrite Htx'. }
    split; [ now apply Hraise | ].
    cbn [run command_func].
    rewrite (convert_errors_raises _ w
               (RuntimeError "Transaction already started"));
      [ reflexivity | now apply Hraise ].
Qed.

(** ** The nesting invariant *)

Lemma convert_errors_state (func : M unit) (w : World) :
  STATE (snd (convert_errors func w))
  = STATE (snd (func (with_log w (log w ++ [ResultClear])))).
Proof.
  unfold convert_errors, bind, record, is_BaseException. cbn.
  destruct (func _) as [[e | a] w']; reflexivity.
Qed.

Lemma bind_keeps_state {A B : Type} (m : M A) (k : A -> M B) (w : World)
    (s : State) :
  keeps m -> STATE w = s ->
  (forall a w', STATE w' = s -> STATE (snd (k a w')) = s) ->
  STATE (snd (bind m k w)) = s.
Proof.
  intros Hm Hw Hk. unfold bind. specialize (Hm w).
  destruct (m w) as [[e | a] w']; cbn in *; [ congruence | ].
  apply Hk. congruence.
Qed.

(** A second connection is refused: the slot keeps the one it has. *)
Lemma second_connection_refused (args : list string) (w : World) :
  client (STATE w) <> None ->
  STATE (snd (run h (Ghidra trace_connect args) w)) = STATE w /\
  STATE (snd (run h (Ghidra trace_listen args) w)) = STATE w.
Proof.
  intros Hc. cbn [run command_func]. rewrite !convert_errors_state. split.
  - unfold ghidra_trace_connect_func, bind, require_no_client. cbn.
    destruct (client (STATE w)); [ reflexivity | congruence ].
  - unfold ghidra_trace_listen_func.
    apply bind_keeps_state; [ keeps_tac | reflexivity | ].
    intros [host port] w' Hw'. unfold bind, require_no_client.
    rewrite Hw'. destruct (client (STATE w)); [ assumption | congruence ].
Qed.

Lemma second_trace_refused (args : list string) (w : World) :
  trace (STATE w) <> None ->
  STATE (snd (run h (Ghidra trace_start args) w)) = STATE w.
Proof.
  intros Ht. cbn [run command_func]. rewrite convert_errors_state.
  unfold ghidra_trace_start_func.
  apply bind_keeps_state; [ keeps_tac | reflexivity | ].
  intros name w' Hw'.
  apply bind_keeps_state; [ keeps_tac | assumption | ].
  intros _ w'' Hw''. unfold bind, require_no_trace.
  rewrite Hw''. destruct (trace (STATE w)); [ assumption | congruence ].
Qed.

Lemma second_transaction_refused (args : list string) (w : World) :
  tx (STATE w) <> None ->
  STATE (snd (run h (Ghidra trace_tx_start args) w)) = STATE w.
Proof.
  intros Ht. cbn [run command_func]. rewrite convert_errors_state.
  unfold ghidra_trace_txstart_func.
  destruct (negb (len args =? 1)); [ reflexivity | ].
  apply bind_keeps_state; [ keeps_tac | reflexivity | ].
  intros description w' Hw'. unfold bind, require_no_tx.
  rewrite Hw'. destruct (tx (STATE w)); [ assumption | congruence ].
Qed.

(** X21: the session starts nested and every command line keeps it nested:
    a transaction only with a trace, a trace only with a connection.  The
    state has one slot for each of the three, and connect, listen, start
    and tx-start refuse to fill a slot that is taken.  Resetting the
    connection also resets the trace and the transaction, and resetting the
    trace also resets the transaction. *)
Theorem session_stays_nested :
  nested (STATE initial_world) /\
  (forall (c : Command) (w : World),
     nested (STATE w) -> nested (STATE (snd (run h c w)))) /\
  (forall (args : list string) (w : World),
     (client (STATE w) <> None ->
      STATE (snd (run h (Ghidra trace_connect args) w)) = STATE w /\
      STATE (snd (run h (Ghidra trace_listen args) w)) = STATE w) /\
     (trace (STATE w) <> None ->
      STATE (snd (run h (Ghidra trace_start args) w)) = STATE w) /\
     (tx (STATE w) <> None ->
      STATE (snd (run h (Ghidra trace_tx_start args) w)) = STATE w)) /\
  (forall w : World,
     STATE (snd (reset_client w)) = mkState None None None /\
     STATE (snd (reset_trace w)) = mkState (client (STATE w)) None None /\
     STATE (snd (reset_tx w))
     = mkState (client (STATE w)) (trace (STATE w)) None).
Proof.
  split; [ reflexivity | split; [ | split ] ].
  - intros c w Hw. pose proof (run_nested c w Hw) as H.
    destruct (run h c w) as [[e | a] w']; exact H.
  - intros args w.
    auto using second_connection_refused, second_trace_refused,
      second_transaction_refused.
  - intros w. repeat split; reflexivity.
Qed.

(** ** The session commands, one by one *)

(** Running a command in a world given by its fields: the primitives of
    the monad and of the session are unfolded, and the hypotheses decide
    the tests they leave. *)
Ltac run_world :=
  repeat
    (cbv beta iota delta
       [bind ret raise lift record call index deref try_except
        require_client require_no_client require_trace require_no_trace
        require_tx require_no_tx reset_client reset_trace reset_tx
        set_client set_trace set_tx set_convenience_variable get_STATE
        util_get_process require_mm require_rm with_STATE with_log
        is_BaseException
        STATE conv_map clock log client trace tx nth_error];
     try match goal with
         | H : ?x = _ |- context [match ?x with _ => _ end] => rewrite H
         end).

(** The same, with a tactic for the tests the hypotheses do not decide by
    themselves. *)
Ltac run_using tac := repeat first [ progress run_world | progress tac ].

(** C4: tx-open starts a second transaction.  Unlike tx-start, which
    refuses with "Transaction already started", tx-open does not ask whether
    a transaction is open: run with a trace and a transaction open, around a
    command that leaves the session alone, it starts another transaction on
    the trace while the first is still open, puts it in the one slot of
    the session in place of the first, commits it, and leaves the slot
    empty.  The first transaction has been neither committed nor aborted,
    and the session has lost it: a tx-commit that follows fails with "No
    transaction". *)
Theorem txopen_opens_second_transaction (w : World) (tr : Trace)
    (t : Transaction) (description cmd : string) :
  trace (STATE w) = Some tr ->
  tx (STATE w) = Some t ->
  (forall l ev, fails h l ev = None) ->
  let after_open :=
    mkWorld (mkState (client (STATE w)) (Some tr) None) (conv_map w) (clock w)
      (log w ++ [ResultClear; StartTx description false; HandleCommand cmd;
                 Commit; SetStatusSuccess]) in
  run h (TxOpen [description; cmd] (Foreign cmd)) w = (inr tt, after_open) /\
  run h (Ghidra trace_tx_start [description]) w
  = (inr tt,
     with_log w (log w ++ [ResultClear; SetError "Transaction already started"])) /\
  run h (Ghidra trace_tx_commit []) after_open
  = (inr tt,
     with_log after_open
       (log after_open ++ [ResultClear; SetError "No transaction"])).
Proof.
  intros Htr Htx Hok after_open. subst after_open.
  destruct w as [[c t0 x] cm ck lg]. cbn in Htr, Htx. subst t0 x.
  unfold with_log. cbn [STATE conv_map clock log client trace tx].
  split; [ | split ].
  all: cbn [run command_func].
  all: unfold ghidra_trace_txopen, convert_errors, ghidra_trace_txopen_func,
         open_tracked_tx, open_tx, ghidra_trace_txstart_func,
         ghidra_trace_txcommit_func.
  all: cbn [len List.length Z.of_nat Z.eqb negb Pos.of_succ_nat Pos.eqb
              Pos.succ].
  all: run_using ltac:(rewrite ?Hok).
  all: now rewrite <- ?app_assoc.
Qed.

(** X4: only connect, listen, disconnect, start, stop, restart, tx-start,
    tx-commit and tx-abort (and tx-open, which is not a [CommandName])
    assign the session state.  Every other command, run as a command line,
    leaves the client, the trace and the transaction exactly as they were,
    whether it succeeds or fails; this includes put-all, which runs other
    commands. *)
Theorem other_commands_leave_session (c : CommandName) (args : list string)
    (w : World) :
  session_command c = false ->
  STATE (snd (run h (Ghidra c args) w)) = STATE w.
Proof.
  intros Hc. cbn [run].
  apply (keeps_convert_errors (command_func h c args)).
  now apply other_commands_keep.
Qed.

(** X5: disconnect closes the connection and nothing else.  With a client,
    when the close succeeds the three slots of the session are cleared and
    the tracing flag is set to false, although no call was issued to close
    the trace or to end the transaction; when the close raises, the session
    is left as it was and the error is set on the result.  Without a client
    nothing is issued. *)
Theorem disconnect_only_closes_client (w : World) :
  match client (STATE w) with
  | Some _ =>
      match fails h (log w ++ [ResultClear]) ClientClose with
      | None =>
          ghidra_trace_disconnect h [] w
          = (inr tt,
             mkWorld (mkState None None None)
               (("_ghidra_tracing", "false") :: conv_map w) (clock w)
               (log w ++ [ResultClear; ClientClose; SetStatusSuccess]))
      | Some e =>
          ghidra_trace_disconnect h [] w
          = (inr tt,
             with_log w
               (log w ++ [ResultClear; ClientClose; SetError (str_exn e)]))
      end
  | None =>
      ghidra_trace_disconnect h [] w
      = (inr tt, with_log w (log w ++ [ResultClear; SetError "Not connected"]))
  end.
Proof.
  destruct w as [[c t x] cm ck lg]. unfold with_log.
  cbn [STATE conv_map clock log client trace tx].
  destruct c as [c | ];
    [ destruct (fails h (lg ++ [ResultClear]) ClientClose) as [e | ] eqn:Hf
    | ].
  all: unfold ghidra_trace_disconnect, convert_errors,
         ghidra_trace_disconnect_func.
  all: cbn [len List.length Z.of_nat Z.eqb negb].
  all: run_world.
  all: now rewrite <- !app_assoc.
Qed.

(** X6: tx-start followed by tx-commit, or by tx-abort, is a round trip on
    the session: with a trace, no transaction and a trace that accepts the
    calls, tx-start fills the transaction slot with the new transaction,
    and the commit or the abort empties it again, so that only the log
    tells the world before from the world after.  A commit that raises
    leaves the slot filled. *)
Theorem txstart_txcommit_round_trip (description : string) (w : World)
    (tr : Trace) :
  trace (STATE w) = Some tr ->
  tx (STATE w) = None ->
  (forall l, fails h l (StartTx description false) = None) ->
  tx (STATE (snd (ghidra_trace_txstart h [description] w)))
  = Some (mkTransaction description false) /\
  ((forall l, fails h l Commit = None) ->
   (ghidra_trace_txstart h [description] ;; ghidra_trace_txcommit h [])%py w
   = (inr tt,
      with_log w
        (log w ++ [ResultClear; StartTx description false; SetStatusSuccess;
                   ResultClear; Commit; SetStatusSuccess]))) /\
  ((forall l, fails h l Abort = None) ->
   (ghidra_trace_txstart h [description] ;; ghidra_trace_txabort h [])%py w
   = (inr tt,
      with_log w
        (log w ++ [ResultClear; StartTx description false; SetStatusSuccess;
                   ResultClear; Print "Aborting trace transaction!"; Abort;
                   SetStatusSuccess]))) /\
  (forall e, (forall l, fails h l Commit = Some e) ->
   tx (STATE (snd ((ghidra_trace_txstart h [description] ;;
                    ghidra_trace_txcommit h [])%py w)))
   = Some (mkTransaction description false)).
Proof.
  intros Htr Htx Hstart.
  destruct w as [[c t x] cm ck lg]. cbn in Htr, Htx. subst t x.
  unfold with_log, ghidra_trace_txstart, ghidra_trace_txcommit,
    ghidra_trace_txabort, convert_errors, ghidra_trace_txstart_func,
    ghidra_trace_txcommit_func, ghidra_trace_txabort_func.
  cbn [len List.length Z.of_nat Z.eqb negb Pos.of_succ_nat Pos.eqb].
  split; [ | split; [ | split ] ]; [ | intros Hc | intros Hc | intros e Hc ].
  all: repeat (progress run_world; rewrite ?Hstart, ?Hc).
  all: try reflexivity.
  all: now rewrite <- !app_assoc.
Qed.


(** ** The paths of the objects *)

Lemma string_app_assoc (a b c : string) : ((a ++ b) ++ c = a ++ b ++ c)%string.
Proof. induction a as [ | x a IH ]; cbn; [ reflexivity | now rewrite IH ]. Qed.

Lemma string_app_nil_r (a : string) : (a ++ "")%string = a.
Proof. induction a as [ | x a IH ]; cbn; [ reflexivity | now rewrite IH ]. Qed.

Lemma process_path_eq (procnum : Z) :
  format PROCESS_PATTERN [("procnum", FInt procnum)]
  = inr ("Processes[" ++ str_int procnum ++ "]").
Proof. reflexivity. Qed.

Lemma thread_path_eq (procnum tnum : Z) :
  format THREAD_PATTERN [("procnum", FInt procnum); ("tnum", FInt tnum)]
  = inr ("Processes[" ++ str_int procnum ++ "].Threads[" ++ str_int tnum ++ "]").
Proof. reflexivity. Qed.

Lemma frame_pattern_eq (procnum tnum level : Z) :
  format FRAME_PATTERN
    [("procnum", FInt procnum); ("tnum", FInt tnum); ("level", FInt level)]
  = inr ("Processes[" ++ str_int procnum ++ "].Threads[" ++ str_int tnum
           ++ "].Stack[" ++ str_int level ++ "]").
Proof. reflexivity. Qed.

(** X8: the path of every object is the path of its container followed by
    its key, for each process, thread and frame number and each bank name:
    a process under [Processes], its threads under [.Threads], a thread's
    frames under [.Stack], and the registers of a frame under the
    frame.  In particular the object [put_frames] creates at the frame
    path followed by [.Registers] is the register space of [putreg], and the
    key a synchronizer retains in a container names the object it created
    there. *)
Theorem paths_extend_their_container (procnum tnum level : Z) (bank : string) :
  exists pkey tkey fkey proc thread frame : string,
    format PROCESS_KEY_PATTERN [("procnum", FInt procnum)] = inr pkey /\
    format THREAD_KEY_PATTERN [("tnum", FInt tnum)] = inr tkey /\
    format FRAME_KEY_PATTERN [("level", FInt level)] = inr fkey /\
    format PROCESS_PATTERN [("procnum", FInt procnum)] = inr proc /\
    proc = PROCESSES_PATH ++ pkey /\
    format THREADS_PATTERN [("procnum", FInt procnum)]
    = inr (proc ++ ".Threads") /\
    format THREAD_PATTERN [("procnum", FInt procnum); ("tnum", FInt tnum)]
    = inr thread /\
    thread = (proc ++ ".Threads") ++ tkey /\
    format STACK_PATTERN [("procnum", FInt procnum); ("tnum", FInt tnum)]
    = inr (thread ++ ".Stack") /\
    format FRAME_PATTERN
      [("procnum", FInt procnum); ("tnum", FInt tnum); ("level", FInt level)]
    = inr frame /\
    frame = (thread ++ ".Stack") ++ fkey /\
    format REGS_PATTERN
      [("procnum", FInt procnum); ("tnum", FInt tnum); ("level", FInt level)]
    = inr (frame ++ ".Registers") /\
    format BANK_PATTERN
      [("procnum", FInt procnum); ("tnum", FInt tnum); ("level", FInt level);
       ("bank", FStr bank)]
    = inr ((frame ++ ".Registers") ++ "." ++ bank).
Proof.
  exists ("[" ++ str_int procnum ++ "]"), ("[" ++ str_int tnum ++ "]"),
    ("[" ++ str_int level ++ "]"), ("Processes[" ++ str_int procnum ++ "]"),
    ("Processes[" ++ str_int procnum ++ "].Threads[" ++ str_int tnum ++ "]"),
    ("Processes[" ++ str_int procnum ++ "].Threads[" ++ str_int tnum
       ++ "].Stack[" ++ str_int level ++ "]").
  repeat split.
  all: repeat first [ progress cbn [append] | rewrite string_app_assoc ].
  all: try reflexivity.
  cbn. now rewrite string_app_nil_r.
Qed.

(** X9: [activate] with a path activates nothing: with a trace, the
    command with one argument issues no call at all and reports success.
    Without an argument it activates the selected frame, or else the
    selected thread, or else the process; with a frame but no thread
    selected it fails on the thread. *)
Theorem activate_ignores_its_path (w : World) (tr : Trace) :
  trace (STATE w) = Some tr ->
  (forall path : string,
     ghidra_trace_activate h [path] w
     = (inr tt, with_log w (log w ++ [ResultClear; SetStatusSuccess]))) /\
  (forall p : SBProcess,
     get_process h (clock w) = Some p ->
     (forall l path, fails h l (ActivateObject path) = None) ->
     let proc := "Processes[" ++ str_int (GetProcessID p) ++ "]" in
     ghidra_trace_activate h [] w
     = (inr tt,
        with_log w
          (log w ++
           ResultClear ::
           match selected_frame h, selected_thread h with
           | Some f, Some t =>
               [ActivateObject
                  (proc ++ ".Threads[" ++ str_int (GetThreadID t)
                     ++ "].Stack[" ++ str_int (GetFrameID f) ++ "]");
                SetStatusSuccess]
           | Some f, None =>
               [SetError "'NoneType' object has no attribute 'GetThreadID'"]
           | None, Some t =>
               [ActivateObject
                  (proc ++ ".Threads[" ++ str_int (GetThreadID t) ++ "]");
                SetStatusSuccess]
           | None, None => [ActivateObject proc; SetStatusSuccess]
           end))).
Proof.
  intros Htr. destruct w as [[c t x] cm ck lg]. cbn in Htr. subst t.
  unfold with_log. cbn [STATE conv_map clock log client trace tx].
  split.
  - intros path.
    unfold ghidra_trace_activate, convert_errors, ghidra_trace_activate_func,
      activate.
    cbn [len List.length Z.of_nat Z.eqb negb Pos.of_succ_nat Pos.eqb].
    run_world. now rewrite <- !app_assoc.
  - intros p Hp Hok.
    unfold ghidra_trace_activate, convert_errors, ghidra_trace_activate_func,
      activate.
    cbn [len List.length Z.of_nat Z.eqb negb Pos.of_succ_nat Pos.eqb].
    destruct (selected_frame h) as [f | ];
      destruct (selected_thread h) as [t | ].
    all: repeat (progress run_world;
                 rewrite ?frame_pattern_eq, ?thread_path_eq, ?process_path_eq,
                   ?Hok).
    all: repeat first [ progress cbn [append] | rewrite string_app_assoc ].
    all: now rewrite <- !app_assoc.
Qed.

(** X10: new-snap is not behind the transaction guard.  With a trace, and
    whether or not a transaction is open, it issues the snapshot: under
    the description alone, or at the snap its first argument names. *)
Theorem new_snap_needs_no_transaction (w : World) (tr : Trace)
    (description : string) :
  trace (STATE w) = Some tr ->
  (forall l time, fails h l (Snapshot description time) = None) ->
  ghidra_trace_new_snap h [description] w
  = (inr tt,
     with_log w
       (log w ++ [ResultClear; Snapshot description None; SetStatusSuccess])) /\
  (forall (snap : string) (n : Z),
     py_int h snap = Some n ->
     ghidra_trace_new_snap h [snap; description] w
     = (inr tt,
        with_log w
          (log w ++ [ResultClear; Snapshot description (Some n);
                     SetStatusSuccess]))).
Proof.
  intros Htr Hok. destruct w as [[c t x] cm ck lg]. cbn in Htr. subst t.
  unfold with_log. cbn [STATE conv_map clock log client trace tx].
  split; [ | intros snap n Hn ].
  all: unfold ghidra_trace_new_snap, convert_errors,
         ghidra_trace_new_snap_func, int.
  all: cbn [len List.length Z.of_nat Z.eqb negb Pos.of_succ_nat Pos.eqb
              Pos.succ].
  all: repeat (progress run_world; rewrite ?Hok).
  all: now rewrite <- !app_assoc.
Qed.

(** ** Starting and restarting a trace *)


(** X12: a start that fails half way.  The trace slot is assigned as soon
    as the trace is created, before the mappers are computed: when the
    memory mapper of the language cannot be computed, [start] ends with that
    error, but the slot holds a trace without mappers and the tracing flag
    has not been touched.  A second [start] is then refused with "Trace
    already started". *)
Theorem failed_start_leaves_trace (w : World) (c : Client)
    (name name' language compiler : string) (e : exn) :
  client (STATE w) = Some c ->
  trace (STATE w) = None ->
  compute_ghidra_lcsp h = inr (language, compiler) ->
  compute_memory_mapper h language = inl e ->
  (forall l, fails h l (CreateTrace name language compiler) = None) ->
  let w' :=
    mkWorld
      (mkState (Some c) (Some (mkTrace name (mkExtra None None))) (tx (STATE w)))
      (conv_map w) (clock w)
      (log w ++ [ResultClear; CreateTrace name language compiler;
                 SetError (str_exn e)]) in
  ghidra_trace_start h [name] w = (inr tt, w') /\
  ghidra_trace_start h [name'] w'
  = (inr tt,
     with_log w' (log w' ++ [ResultClear; SetError "Trace already started"])).
Proof.
  intros Hc Htr Hl Hmm Hok.
  destruct w as [[c' t x] cm ck lg]. cbn in Hc, Htr. subst c' t.
  unfold with_log. cbn [STATE conv_map clock log client trace tx].
  split.
  all: unfold ghidra_trace_start, convert_errors, ghidra_trace_start_func,
         start_trace.
  all: cbn [len List.length Z.of_nat Z.eqb negb Pos.of_succ_nat Pos.eqb].
  all: repeat (progress run_world; rewrite ?Hl, ?Hmm, ?Hok).
  all: now rewrite <- !app_assoc.
Qed.

(** X13: restart is stop followed by start.  Given at most one word, the
    body of [restart], run connected and with a trace, is the body of [stop]
    followed by the body of [start], whatever the trace answers to the
    close; run without a trace it is the body of [start]. *)
Theorem restart_is_stop_then_start (args : list string) (w : World) :
  len args <= 1 ->
  (forall (c : Client) (tr : Trace),
     client (STATE w) = Some c ->
     trace (STATE w) = Some tr ->
     ghidra_trace_restart_func h args w
     = (ghidra_trace_stop_func h [] ;; ghidra_trace_start_func h args)%py w) /\
  (trace (STATE w) = None ->
   ghidra_trace_restart_func h args w = ghidra_trace_start_func h args w).
Proof.
  intros Hlen. destruct w as [[c' t x] cm ck lg].
  destruct args as [ | a [ | b args ] ];
    [ | | exfalso; unfold len in Hlen; cbn [List.length] in Hlen; lia ].
  all: split; [ intros c tr Hc Htr | intros Htr ]; cbn in *; subst.
  all: unfold ghidra_trace_restart_func, ghidra_trace_stop_func,
         ghidra_trace_start_func.
  all: cbn [len List.length Z.of_nat Z.eqb negb Pos.of_succ_nat Pos.eqb].
  all: try (destruct (fails h lg TraceClose) as [e | ] eqn:Hclose).
  all: try (destruct c' as [c' | ]).
  all: repeat (progress run_world; rewrite ?Hclose).
  all: reflexivity.
Qed.

(** ** Putting memory *)

(** X14: [put_bytes] on a range that is not empty, with a trace, its
    memory mapper and a process.  The range, quantized to whole pages if
    [pages] is set, is read from the process.  When the read succeeds the
    bytes are put at the mapped address, after the overlay space has been
    created if the mapped space differs from its base, and the count is
    reported if there is a result object.  When the read fails nothing is
    written to the trace and the error names the start of the quantized
    range, in hexadecimal, not the address that was asked for. *)
Theorem put_bytes_reads_then_writes (start end_ s e : Z) (result pages : bool)
    (w : World) (tr : Trace) (mm : DefaultMemoryMapper) (p : SBProcess) :
  trace (STATE w) = Some tr ->
  memory_mapper (extra tr) = Some mm ->
  get_process h (clock w) = Some p ->
  (if pages then quantize_pages start end_ else (start, end_)) = (s, e) ->
  0 < e - s ->
  match proc_ReadMemory h s (e - s) with
  | (true, Some buf) =>
      (forall l ev, fails h l ev = None) ->
      put_bytes h start end_ result pages w
      = (inr tt,
         with_log w
           (log w ++
            [ReadMemory s (e - s)] ++
            (if String.eqb (fst (map mm (Some p) s))
                  (space (snd (map mm (Some p) s)))
             then []
             else [CreateOverlaySpace (fst (map mm (Some p) s))
                     (space (snd (map mm (Some p) s)))]) ++
            [PutBytes (snd (map mm (Some p) s)) buf] ++
            (if result then
               [PutCString
                  match put_bytes_reply h (snd (map mm (Some p) s)) buf with
                  | FutureDone n | Count n => "Wrote " ++ str_int n ++ " bytes"
                  | FuturePending =>
                      "Wrong " ++ str_int (len buf)
                        ++ " bytes, perhaps in the future"
                  end]
             else [])))
  | _ =>
      put_bytes h start end_ result pages w
      = (inl (RuntimeError ("Cannot read memory at " ++ hex_digits s)),
         with_log w (log w ++ [ReadMemory s (e - s)]))
  end.
Proof.
  intros Htr Hmm Hp Hq Hlen.
  destruct w as [[c t x] cm ck lg]. cbn in Htr, Hp. subst t.
  unfold with_log. cbn [STATE conv_map clock log client trace tx].
  assert (Hle : (e - s <=? 0) = false) by (apply Z.leb_gt; lia).
  destruct (proc_ReadMemory h s (e - s)) as [[ | ] [buf | ]] eqn:Hread.
  1: intros Hok;
     destruct (map mm (Some p) s) as [base addr] eqn:Hmap; cbn [fst snd];
     destruct (String.eqb base (space addr)) eqn:Hbase;
     destruct result;
     destruct (put_bytes_reply h addr buf) eqn:Hreply.
  all: unfold put_bytes.
  all: run_using ltac:(rewrite ?Hq, ?Hle, ?Hok, ?Hbase; cbn [negb]).
  all: rewrite <- ?app_assoc; cbn [app]; reflexivity.
Qed.

(** ** What the commands issue *)

Lemma adds_silent {A : Type} (ok : event -> bool) (m : M A) :
  silent m -> adds_only ok m.
Proof.
  intros H w. exists []. rewrite H, app_nil_r. auto.
Qed.

Lemma adds_ret {A : Type} (ok : event -> bool) (a : A) : adds_only ok (ret a).
Proof. apply adds_silent. intros w. reflexivity. Qed.

Lemma adds_raise {A : Type} (ok : event -> bool) (e : exn) :
  adds_only ok (@raise A e).
Proof. apply adds_silent. intros w. reflexivity. Qed.

Lemma adds_lift {A : Type} (ok : event -> bool) (r : exn + A) :
  adds_only ok (lift r).
Proof. apply adds_silent. intros w. reflexivity. Qed.

Lemma adds_stopped {A : Type} (ok : event -> bool) (m : M A) :
  (forall w, exists e, m w = (inl e, w)) -> adds_only ok m.
Proof.
  intros H. apply adds_silent. intros w. destruct (H w) as [e ->]. reflexivity.
Qed.

Lemma adds_record (ok : event -> bool) (ev : event) :
  ok ev = true -> adds_only ok (record ev).
Proof. intros H w. exists [ev]. cbn. now rewrite H. Qed.

Lemma adds_call (ok : event -> bool) (ev : event) :
  ok ev = true -> adds_only ok (call h ev).
Proof.
  intros H w. exists [ev]. unfold call, bind, record, raise.
  destruct (fails h (log w) ev); cbn; now rewrite H.
Qed.

Lemma adds_bind {A B : Type} (ok : event -> bool) (m : M A) (k : A -> M B) :
  adds_only ok m -> (forall a, adds_only ok (k a)) -> adds_only ok (bind m k).
Proof.
  intros Hm Hk w. unfold bind. destruct (Hm w) as [l1 [E1 O1]].
  destruct (m w) as [[e | a] w']; cbn in E1 |- *; [ eauto | ].
  destruct (Hk a w') as [l2 [E2 O2]].
  exists (l1 ++ l2)%list. rewrite E2, E1, app_assoc, forallb_app, O1, O2. auto.
Qed.

Lemma adds_try_except {A : Type} (ok : event -> bool) (body : M A)
    (catches : exn -> bool) (handler : exn -> M A) :
  adds_only ok body -> (forall e, adds_only ok (handler e)) ->
  adds_only ok (try_except body catches handler).
Proof.
  intros Hb Hh w. unfold try_except. destruct (Hb w) as [l1 [E1 O1]].
  destruct (body w) as [[e | a] w']; cbn in E1 |- *; [ | eauto ].
  destruct (catches e); cbn; [ | eauto ].
  destruct (Hh e w') as [l2 [E2 O2]].
  exists (l1 ++ l2)%list. rewrite E2, E1, app_assoc, forallb_app, O1, O2. auto.
Qed.

Lemma adds_convert_errors (ok : event -> bool) (func : M unit) :
  (forall ev, is_result ev = true -> ok ev = true) ->
  adds_only ok func -> adds_only ok (convert_errors func).
Proof.
  intros Hr Hf. unfold convert_errors.
  apply adds_bind; [ apply adds_record; now apply Hr | intros _ w ].
  destruct (Hf w) as [l1 [E1 O1]].
  destruct (func w) as [[e | a] w']; cbn in E1 |- *.
  - exists (l1 ++ [SetError (str_exn e)])%list.
    rewrite E1, app_assoc, forallb_app, O1. cbn. now rewrite Hr.
  - exists (l1 ++ [SetStatusSuccess])%list.
    rewrite E1, app_assoc, forallb_app, O1. cbn. now rewrite Hr.
Qed.

Lemma adds_open_tx {A : Type} (ok : event -> bool) (description : string)
    (body : Transaction -> M A) :
  (forall ev, is_tx ev = true -> ok ev = true) ->
  (forall t, adds_only ok (body t)) ->
  adds_only ok (open_tx h description body).
Proof.
  intros Ht Hb. unfold open_tx.
  apply adds_bind; [ apply adds_call; now apply Ht | intros _ w ].
  destruct (Hb (mkTransaction description false) w) as [l1 [E1 O1]].
  destruct (body _ w) as [[e | a] w']; cbn in E1.
  - destruct (adds_bind ok (call h Abort) (fun _ => @raise A e)
                (adds_call ok Abort (Ht Abort eq_refl))
                (fun _ => @adds_raise A ok e) w') as [l2 [E2 O2]].
    exists (l1 ++ l2)%list.
    rewrite E2, E1, app_assoc, forallb_app, O1, O2. auto.
  - destruct (adds_bind ok (call h Commit) (fun _ => ret a)
                (adds_call ok Commit (Ht Commit eq_refl))
                (fun _ => adds_ret ok a) w') as [l2 [E2 O2]].
    exists (l1 ++ l2)%list.
    rewrite E2, E1, app_assoc, forallb_app, O1, O2. auto.
Qed.

Lemma adds_for_each {A : Type} (ok : event -> bool) (xs : list A)
    (body : A -> M unit) :
  (forall x, adds_only ok (body x)) -> adds_only ok (for_each xs body).
Proof.
  intros Hb. induction xs as [ | x xs IH ]; cbn.
  - apply adds_ret.
  - apply adds_bind; auto.
Qed.

Lemma adds_for_append {A B : Type} (ok : event -> bool) (xs : list A)
    (acc : list B) (body : A -> M B) :
  (forall x, adds_only ok (body x)) -> adds_only ok (for_append xs acc body).
Proof.
  intros Hb. revert acc. induction xs as [ | x xs IH ]; intros acc; cbn.
  - apply adds_ret.
  - apply adds_bind; auto.
Qed.

Lemma adds_for_fold {A S : Type} (ok : event -> bool) (xs : list A) (acc : S)
    (body : S -> A -> M S) :
  (forall s x, adds_only ok (body s x)) -> adds_only ok (for_fold xs acc body).
Proof.
  intros Hb. revert acc. induction xs as [ | x xs IH ]; intros acc; cbn.
  - apply adds_ret.
  - apply adds_bind; auto.
Qed.

Lemma adds_weaken {A : Type} (ok ok' : event -> bool) (m : M A) :
  (forall ev, ok ev = true -> ok' ev = true) ->
  adds_only ok m -> adds_only ok' m.
Proof.
  intros Hsub Hm w. destruct (Hm w) as [l [E O]]. exists l. split; [ exact E | ].
  rewrite forallb_forall in *. auto.
Qed.

(** The accessors of the session read and assign [STATE] and the
    convenience variables; they issue nothing. *)
Ltac silent_tac :=
  intros ?w;
  cbv beta iota delta
    [require_client require_no_client require_trace require_no_trace
     require_tx require_no_tx reset_client reset_trace reset_tx
     set_client set_trace set_tx set_convenience_variable
     get_convenience_variable get_STATE set_memory_mapper
     set_register_mapper util_get_process time_time bind with_STATE];
  repeat match goal with
         | |- context [match ?x with _ => _ end] =>
             lazymatch x with
             | context [match _ with _ => _ end] => fail
             | _ => destruct x
             end
         end;
  reflexivity.

Lemma silent_session :
  silent require_client /\ silent require_no_client /\
  silent require_trace /\ silent require_no_trace /\
  silent require_tx /\ silent require_no_tx /\
  silent reset_client /\ silent reset_trace /\ silent reset_tx /\
  silent get_STATE /\ silent (util_get_process h) /\ silent time_time /\
  (forall c, silent (set_client c)) /\ (forall t, silent (set_trace t)) /\
  (forall t, silent (set_tx t)) /\
  (forall n v, silent (set_convenience_variable n v)) /\
  (forall n, silent (get_convenience_variable n)) /\
  (forall mm, silent (set_memory_mapper mm)) /\
  (forall rm, silent (set_register_mapper rm)).
Proof. repeat split; intros; silent_tac. Qed.

Ltac session_head f :=
  lazymatch f with
  | require_client => idtac | require_no_client => idtac
  | require_trace => idtac | require_no_trace => idtac
  | require_tx => idtac | require_no_tx => idtac
  | reset_client => idtac | reset_trace => idtac | reset_tx => idtac
  | get_STATE => idtac | util_get_process => idtac | time_time => idtac
  | set_client => idtac | set_trace => idtac | set_tx => idtac
  | set_convenience_variable => idtac | get_convenience_variable => idtac
  | set_memory_mapper => idtac | set_register_mapper => idtac
  end.

(** The body of [putreg] given three words, and the body of wait-stopped
    given anything, raise and leave the world as it was. *)
Lemma putreg_three_words_stops (a b c : string) (w : World) :
  exists e, ghidra_trace_putreg_func h [a; b; c] w = (inl e, w).
Proof.
  destruct w as [[c0 [t | ] [x | ]] cm ck lg].
  all: unfold ghidra_trace_putreg_func.
  all: cbn [len List.length Z.of_nat Z.eqb negb Pos.of_succ_nat Pos.eqb
              Pos.succ].
  all: run_world; eauto.
Qed.

Lemma wait_stopped_stops (args : list string) (w : World) :
  exists e, ghidra_util_wait_stopped_func h args w = (inl e, w).
Proof.
  unfold ghidra_util_wait_stopped_func, bind at 1.
  destruct args as [ | a [ | b args ] ].
  - unfold bind, ret, time_time, util_get_process. cbn.
    destruct (get_process h (clock w)) eqn:Hp; cbn; eauto.
  - unfold bind, ret, raise, time_time, util_get_process, int, index. cbn.
    destruct (py_int h a) eqn:Hn; cbn; [ | eauto ].
    unfold bind, ret, raise. cbn.
    destruct (get_process h (clock w)) eqn:Hp; cbn; eauto.
  - replace (len (a :: b :: args) =? 0) with false
      by (symmetry; apply Z.eqb_neq; unfold len; cbn [List.length]; lia).
    replace (len (a :: b :: args) =? 1) with false
      by (symmetry; apply Z.eqb_neq; unfold len; cbn [List.length]; lia).
    cbn. eauto.
Qed.

(** Every step of a command adds effects of its footprint.  A test on
    words that are known is evaluated; any other test is followed on both
    sides. *)
Ltac adds_tac :=
  repeat first
    [ apply adds_ret | apply adds_raise | apply adds_lift
    | apply adds_stopped;
      solve [ apply putreg_three_words_stops | apply wait_stopped_stops ]
    | apply adds_record; reflexivity
    | apply adds_call; reflexivity
    | match goal with
      | |- adds_only _ ?m =>
          let f := head_of m in session_head f;
          apply adds_silent; solve [ silent_tac ]
      end
    | apply adds_convert_errors;
      [ let ev := fresh in let H := fresh in
        intros ev H; destruct ev; try discriminate H; reflexivity
      | ]
    | apply adds_open_tx;
      [ let ev := fresh in let H := fresh in
        intros ev H; destruct ev; try discriminate H; reflexivity
      | intros ? ]
    | apply adds_try_except; [ | intros ? ]
    | apply adds_for_each; intros ?
    | apply adds_for_append; intros ?
    | apply adds_for_fold; intros ? ?
    | match goal with
      | |- adds_only _ (bind _ _) => apply adds_bind; [ | intros ? ]
      | |- adds_only _ (if ?b then _ else _) =>
          first
            [ let v := eval cbv in b in
              lazymatch v with
              | true => change b with true
              | false => change b with false
              end;
              cbv iota
            | destruct b ]
      | |- adds_only _ (match ?x with _ => _ end) => destruct x
      | |- adds_only _ ((match ?x with _ => _ end) _) => destruct x
      | |- adds_only _ ?m => let f := head_of m in progress unfold f
      end ].

Lemma footprint_adds (c : CommandName) (args : list string) :
  adds_only (footprint c) (command_func h c args).
Proof.
  destruct c; cbv [command_func].
  all: adds_tac.
Qed.

(** X15: every command line stays within its footprint.  Whatever the
    arguments, the state of the session and the answers of the host, and
    whether it succeeds or fails, a command only adds to what has been
    issued, and all it adds are the calls on its result object and the
    effects listed for it by [footprint].  So the query commands (info,
    get-obj, get-values, get-values-rng) write nothing to the trace, delmem
    and get-values-rng create no overlay space, disconnect closes neither
    the trace nor the transaction, wait-stopped never sleeps, and no
    command but putreg puts registers. *)
Theorem commands_stay_in_footprint (c : Command) (w : World) :
  exists evs : list event,
    log (snd (run h c w)) = (log w ++ evs)%list /\
    forallb (allowed c) evs = true.
Proof.
  revert w. change (adds_only (allowed c) (run h c)).
  induction c as [ name args | args nested_command IH | text ]; cbn [run allowed].
  - apply adds_convert_errors; [ | apply footprint_adds ].
    intros ev Hev. unfold footprint. now rewrite Hev.
  - unfold ghidra_trace_txopen.
    apply adds_convert_errors; [ intros ev Hev; now rewrite Hev | ].
    unfold ghidra_trace_txopen_func, open_tracked_tx.
    destruct (negb (len args =? 2)); [ apply adds_raise | ].
    assert (Hsilent : forall (A : Type) (m : M A),
              silent m ->
              adds_only
                (fun ev =>
                   is_result ev || is_tx ev ||
                   match ev with HandleCommand _ => true | _ => false end ||
                   allowed nested_command ev) m)
      by (intros; now apply adds_silent).
    apply adds_bind; [ unfold index; destruct (nth_error args 0);
                       [ apply adds_ret | apply adds_raise ] | intros description ].
    apply adds_bind; [ unfold index; destruct (nth_error args 1);
                       [ apply adds_ret | apply adds_raise ] | intros cmd ].
    apply adds_bind; [ apply Hsilent; silent_tac | intros _ ].
    apply adds_bind; [ | intros a; apply adds_bind;
                         [ apply Hsilent; silent_tac
                         | intros _; apply adds_ret ] ].
    apply adds_open_tx.
    + intros ev Hev. rewrite Hev. now rewrite orb_true_r.
    + intros t.
      apply adds_bind; [ apply Hsilent; silent_tac | intros _ ].
      apply adds_bind; [ apply adds_record; apply orb_true_iff; left;
                         apply orb_true_r | intros _ ].
      apply (adds_weaken (allowed nested_command)); [ | exact IH ].
      intros ev Hev. rewrite Hev. apply orb_true_r.
  - apply adds_ret.
Qed.

(** X16: put-all puts no registers.  The command hands the three words
    of the default register bank, General Purpose Registers, to putreg,
    which takes one word at most: run with a transaction open, as it is
    inside put-all, that call ends with the usage error set on the result
    and issues nothing.  Whatever its arguments and the state of the
    session, no register write is among the effects put-all issues. *)
Theorem put_all_puts_no_registers :
  split " " DEFAULT_REGISTER_BANK = ["General"; "Purpose"; "Registers"] /\
  (forall (w : World) (tr : Trace) (t : Transaction),
     trace (STATE w) = Some tr -> tx (STATE w) = Some t ->
     ghidra_trace_putreg h ["General"; "Purpose"; "Registers"] w
     = (inr tt,
        with_log w
          (log w ++ [ResultClear;
                     SetError "Usage: ghidra trace putreg [GROUP]"]))) /\
  (forall (args : list string) (w : World),
     exists evs : list event,
       log (snd (ghidra_trace_put_all h args w)) = (log w ++ evs)%list /\
       forall space_ values, ~ In (PutRegisters space_ values) evs).
Proof.
  split; [ reflexivity | split ].
  - intros w tr t Htr Htx. destruct w as [[c0 t0 x] cm ck lg].
    cbn in Htr, Htx. subst t0 x.
    unfold ghidra_trace_putreg.
    apply (convert_errors_raises _ _
             (RuntimeError "Usage: ghidra trace putreg [GROUP]")).
    unfold ghidra_trace_putreg_func.
    cbn [len List.length Z.of_nat Z.eqb negb Pos.of_succ_nat Pos.eqb Pos.succ].
    run_world. reflexivity.
  - intros args w.
    assert (Hr : forall ev, is_result ev = true ->
                            footprint trace_put_all ev = true)
      by (intros ev Hev; unfold footprint; now rewrite Hev).
    destruct (adds_convert_errors (footprint trace_put_all)
                (ghidra_trace_put_all_func h args) Hr
                (footprint_adds trace_put_all args) w) as [evs [E O]].
    exists evs. split; [ exact E | ].
    intros space_ values Hin. rewrite forallb_forall in O.
    apply O in Hin. discriminate Hin.
Qed.

(** ** The synchronizers: one object for each element, and its key kept *)



Lemma emits_lift_eq {A : Type} (r : exn + A) (a : A) (w : World) :
  r = inr a -> emits (lift r) w [] a.
Proof. intros ->. apply emits_lift. Qed.



Lemma thread_key_eq (tnum : Z) :
  format THREAD_KEY_PATTERN [("tnum", FInt tnum)]
  = inr ("[" ++ str_int tnum ++ "]").
Proof. reflexivity. Qed.

Lemma threads_path_eq (procnum : Z) :
  format THREADS_PATTERN [("procnum", FInt procnum)]
  = inr ("Processes[" ++ str_int procnum ++ "].Threads").
Proof. reflexivity. Qed.

Lemma flat_map_singleton {A B : Type} (f : A -> B) (l : list A) :
  flat_map (fun x => [f x]) l = List.map f l.
Proof. induction l as [ | x l IH ]; cbn; [ reflexivity | now rewrite IH ]. Qed.

Lemma emits_util_get_process (w : World) :
  emits (util_get_process h) w [] (get_process h (clock w)).
Proof. unfold emits, util_get_process. now rewrite with_log_nil. Qed.

Lemma emits_bind_after {A B : Type} (m : M A) (k : A -> M B) (w : World)
    (l1 l2 : list event) (a : A) (b : B) :
  emits m w l1 a ->
  emits (k a) (after w l1) l2 b ->
  emits (bind m k) w (l1 ++ l2) b.
Proof. apply emits_bind. Qed.

Lemma regs_path_eq (procnum tnum level : Z) :
  format REGS_PATTERN
    [("procnum", FInt procnum); ("tnum", FInt tnum); ("level", FInt level)]
  = inr ("Processes[" ++ str_int procnum ++ "].Threads[" ++ str_int tnum
           ++ "].Stack[" ++ str_int level ++ "].Registers").
Proof. reflexivity. Qed.

Lemma bank_path_eq (procnum tnum level : Z) (bank : string) :
  format BANK_PATTERN
    [("procnum", FInt procnum); ("tnum", FInt tnum); ("level", FInt level);
     ("bank", FStr bank)]
  = inr ("Processes[" ++ str_int procnum ++ "].Threads[" ++ str_int tnum
           ++ "].Stack[" ++ str_int level ++ "].Registers." ++ bank).
Proof. cbn. now rewrite string_app_nil_r. Qed.

Lemma watch_path_eq (procnum watchnum : Z) :
  format PROC_WATCH_PATTERN
    [("procnum", FInt procnum); ("watchnum", FInt watchnum)]
  = inr ("Processes[" ++ str_int procnum ++ "].Watchpoints["
           ++ str_int watchnum ++ "]").
Proof. reflexivity. Qed.

(** One step of a run along which nothing raises, with the paths the
    patterns give. *)
Ltac emit_path :=
  cbv beta;
  lazymatch goal with
  | |- emits (bind _ _) _ _ _ => eapply emits_bind_after
  | |- emits (ret _) _ _ _ => apply emits_ret
  | |- emits (lift (format ?pat _)) _ _ _ =>
      apply emits_lift_eq;
      lazymatch pat with
      | THREAD_PATTERN => apply thread_path_eq
      | THREAD_KEY_PATTERN => apply thread_key_eq
      | THREADS_PATTERN => apply threads_path_eq
      | PROCESS_PATTERN => apply process_path_eq
      | FRAME_PATTERN => apply frame_pattern_eq
      | PROC_WATCH_PATTERN => apply watch_path_eq
      | REGS_PATTERN => apply regs_path_eq
      | BANK_PATTERN => apply bank_path_eq
      end
  | |- emits require_trace _ _ _ =>
      match goal with
      | H : trace (STATE _) = Some _ |- _ =>
          unfold emits; rewrite with_log_nil;
          apply require_trace_live; exact H
      end
  | |- emits (require_mm _) _ _ _ => unfold require_mm
  | |- emits (require_rm _) _ _ _ => unfold require_rm
  | |- emits (call _ _) _ _ _ => apply emits_call; auto
  | |- emits (if ?b then _ else _) _ _ _ =>
      match goal with H : b = _ |- _ => rewrite H end
  | |- emits (match ?x with _ => _ end) _ _ _ =>
      match goal with H : x = _ |- _ => rewrite H end
  end.


(** ** Watchpoints *)

Lemma prefix_app (a b s : string) :
  String.prefix (a ++ b) s = true -> String.prefix a s = true.
Proof.
  revert s. induction a as [ | x a IH ]; intros s; cbn.
  - destruct s; reflexivity.
  - destruct s as [ | y s ]; [ discriminate | ]. cbn.
    destruct (ascii_dec x y); [ apply IH | discriminate ].
Qed.

Lemma contains_app (a b s : string) :
  contains (a ++ b) s = true -> contains a s = true.
Proof.
  induction s as [ | y s IH ]; cbn [contains].
  - destruct (String.prefix (a ++ b) "") eqn:E; [ | discriminate ].
    intros _. now rewrite (prefix_app a b "" E).
  - destruct (String.prefix (a ++ b) (String y s)) eqn:E.
    + intros _. now rewrite (prefix_app a b _ E).
    + intros H. destruct (String.prefix a (String y s)); auto.
Qed.

(** X19: the kinds of a watchpoint.  [put_single_watchpoint] writes the
    attribute Kinds up to three times: WRITE always, then READ if the
    description contains "type = r", then READ,WRITE if it contains
    "type = rw", which contains "type = r".  The value that stays is
    therefore READ,WRITE for a read-write watchpoint, READ for a read
    watchpoint and WRITE for any other. *)
Theorem watchpoint_kinds (wp : SBWatchpoint) (p : SBProcess) (w : World)
    (tr : Trace) (mm : DefaultMemoryMapper) :
  trace (STATE w) = Some tr ->
  memory_mapper (extra tr) = Some mm ->
  (forall l ev, fails h l ev = None) ->
  let reads := contains "type = r" (wp_description wp) in
  let reads_and_writes := contains "type = rw" (wp_description wp) in
  exists evs : list event,
    put_single_watchpoint h wp (Some p) w
    = (inr tt, with_log w (log w ++ evs)) /\
    values_set "Kinds" evs
    = (VStr "WRITE" :: (if reads then [VStr "READ"] else []) ++
       (if reads_and_writes then [VStr "READ,WRITE"] else []))%list /\
    List.last (values_set "Kinds" evs) VNone
    = VStr (if reads_and_writes then "READ,WRITE"
            else if reads then "READ" else "WRITE") /\
    (reads_and_writes = true -> reads = true).
Proof.
  intros Htr Hmm Hok reads reads_and_writes.
  assert (Himp : reads_and_writes = true -> reads = true)
    by (apply (contains_app "type = r" "w")).
  subst reads reads_and_writes.
  destruct (contains "type = r" (wp_description wp)) eqn:Hr;
    destruct (contains "type = rw" (wp_description wp)) eqn:Hrw;
    try (specialize (Himp eq_refl); discriminate Himp).
  all: destruct (map mm (Some p) (GetWatchAddress wp)) as [base a] eqn:Hmap.
  all: destruct (negb (String.eqb base (space a))) eqn:Hover.
  all: destruct (truthy (wp_GetCondition wp)) eqn:Hcond.
  all: unfold put_single_watchpoint, overlay_if_needed.
  all: rewrite (bind_inr _ _ w w tr (require_trace_live w tr Htr)).
  all: unfold require_mm; rewrite Hmm; cbn [deref].
  all: eexists; split; [ fold_emits; repeat emit_path | ].
  all: cbn; auto.
Qed.

(** ** Registers *)

(** The same loop, when the effects of an iteration do not depend on the
    world it runs in. *)
Lemma emits_for_append_uniform {A B : Type} (xs : list A) (body : A -> M B)
    (val_of : A -> B) (evs_of : A -> list event) :
  (forall x w', In x xs -> emits (body x) w' (evs_of x) (val_of x)) ->
  forall (acc : list B) (w : World),
    emits (for_append xs acc body) w (flat_map evs_of xs)
      (acc ++ List.map val_of xs)%list.
Proof.
  induction xs as [ | x xs IH ]; intros Hb acc w.
  - cbn. rewrite app_nil_r. apply emits_ret.
  - cbn [for_append flat_map List.map].
    eapply emits_bind; [ apply Hb; now left | ].
    cbv beta. replace (acc ++ val_of x :: List.map val_of xs)%list
      with ((acc ++ [val_of x]) ++ List.map val_of xs)%list
      by now rewrite <- app_assoc.
    apply IH. intros y w' Hy. apply Hb. now right.
Qed.

(** X20: what [putreg] puts for a bank.  With a process, a selected
    thread, a trace with its register mapper and a trace that accepts the
    calls, and when every register of the bank has big- or little-endian
    data, [putreg] creates the register container of the frame and the
    object of the bank under it, sets for every register its display value on
    the bank object, and ends with a single call that puts, in the order
    of the bank, the value the mapper makes of each register name and
    the canonical, big-endian bytes of the register. *)
Theorem putreg_puts_canonical_values (frame : SBFrame) (bank : SBBank)
    (w : World) (p : SBProcess) (t : SBThread) (tr : Trace)
    (rm : DefaultRegisterMapper) (canon : SBRegister -> list byte) :
  get_process h (clock w) = Some p ->
  selected_thread h = Some t ->
  trace (STATE w) = Some tr ->
  register_mapper (extra tr) = Some rm ->
  (forall l ev, fails h l ev = None) ->
  (forall r, In r (bank_children bank) ->
     data_to_reg_bytes (reg_data r) = inr (canon r)) ->
  let space_ :=
    "Processes[" ++ str_int (GetProcessID p) ++ "].Threads["
      ++ str_int (GetThreadID t) ++ "].Stack[" ++ str_int (GetFrameID frame)
      ++ "].Registers" in
  let bank_path := space_ ++ "." ++ bank_name bank in
  putreg h frame bank w
  = (inr tt,
     with_log w
       (log w ++
        [CreateOverlaySpace "register" space_;
         CreateObject space_; InsertObject space_;
         CreateObject bank_path; InsertObject bank_path] ++
        List.map (fun r => SetValue bank_path (reg_GetName r)
                             (value_of_option_string (reg_display r)) None)
          (bank_children bank) ++
        [PutRegisters space_
           (List.map (fun r => map_value rm (Some p) (reg_GetName r) (canon r))
              (bank_children bank))])).
Proof.
  intros Hp Ht Htr Hrm Hok Hcanon space_ bank_path.
  assert (Hloop : forall (bp : string) (w' : World),
    emits
      (for_append (bank_children bank) []
         (fun item =>
            bytes <- lift (data_to_reg_bytes (reg_data item)) ;;
            call h (SetValue bp (reg_GetName item)
                      (value_of_option_string (reg_display item)) None) ;;
            ret (map_value rm (Some p) (reg_GetName item) bytes))%py)
      w'
      (flat_map (fun r => [SetValue bp (reg_GetName r)
                             (value_of_option_string (reg_display r)) None])
         (bank_children bank))
      (List.map (fun r => map_value rm (Some p) (reg_GetName r) (canon r))
         (bank_children bank))).
  { intros bp w'.
    apply (emits_for_append_uniform (bank_children bank) _
             (fun r => map_value rm (Some p) (reg_GetName r) (canon r))
             (fun r => [SetValue bp (reg_GetName r)
                          (value_of_option_string (reg_display r)) None])).
    intros r w'' Hr. rewrite (Hcanon r Hr).
    apply (emits_bind _ _ _ [] _ (canon r)); [ apply emits_lift | ].
    apply (emits_bind _ _ _ [_] [] tt); [ apply emits_call; auto | ].
    apply emits_ret. }
  enough (H : exists evs,
            emits (putreg h frame bank) w evs tt /\
            evs
            = ([CreateOverlaySpace "register" space_;
                CreateObject space_; InsertObject space_;
                CreateObject bank_path; InsertObject bank_path] ++
               List.map (fun r => SetValue bank_path (reg_GetName r)
                                    (value_of_option_string (reg_display r))
                                    None)
                 (bank_children bank) ++
               [PutRegisters space_
                  (List.map (fun r => map_value rm (Some p) (reg_GetName r)
                                        (canon r))
                     (bank_children bank))])%list)
    by (destruct H as [evs [H ->]]; exact H).
  unfold putreg, regs_space.
  eexists. split.
  - eapply emits_bind_after; [ apply emits_util_get_process | ].
    rewrite Hp, Ht. cbn [deref].
    repeat first [ emit_path | apply Hloop ].
  - assert (Hbp : bank_path
                  = "Processes[" ++ str_int (GetProcessID p) ++ "].Threads["
                      ++ str_int (GetThreadID t) ++ "].Stack["
                      ++ str_int (GetFrameID frame) ++ "].Registers."
                      ++ bank_name bank).
    { subst bank_path space_.
      repeat first [ progress cbn [append] | rewrite string_app_assoc ].
      reflexivity. }
    rewrite Hbp. subst space_. cbn [app].
    now rewrite flat_map_singleton.
Qed.
(*END-PROPERTIES*)
End Properties.

(** C8: [wait-stopped] on a process that is running and never stops, with
    the default timeout.  The claim asks for polling and, after one second,
    the error "Timed out waiting for thread to stop"; the code sleeps not
    once and fails at once with an [AttributeError], because the loop
    condition names the constant [lldb.eStateRunnig], which the [lldb]
    module does not have. *)
Theorem wait_stopped_fails_before_polling :
  (forall time : Z,
     option_map state (get_process Demo.host time) = Some lldb.eStateRunning) /\
  ghidra_util_wait_stopped Demo.host [] Demo.traced
  = (inr tt,
     with_log Demo.traced
       [ResultClear;
        SetError "module 'lldb' has no attribute 'eStateRunnig'"]) /\
  ~ In (Sleep 100)
      (log (snd (ghidra_util_wait_stopped Demo.host [] Demo.traced))) /\
  ~ In (SetError "Timed out waiting for thread to stop")
      (log (snd (ghidra_util_wait_stopped Demo.host [] Demo.traced))).
Proof.
  split; [ reflexivity | ].
  split; [ reflexivity | ].
  split; cbn; intros [H | [H | []]]; discriminate.
Qed.

(** * Concrete runs *)

(** The theorems above, at the host and the worlds of [Demo]. *)

(** [putval counter]: the variable is at 8192 and 4 bytes long, and the
    range handed on ends at 8192 + 8192 + 4. *)
Example putval_counter_reads :
  filter (fun ev => match ev with ReadMemory _ _ => true | _ => false end)
    (log (snd (ghidra_trace_putval Demo.host ["counter"] Demo.in_tx)))
  = [ReadMemory 8192 12288].
Proof. reflexivity. Qed.

Lemma putval_counter_run :
  get_eval Demo.host "counter" = inr Demo.counter /\
  IsValid (addr Demo.counter) = true /\
  ghidra_trace_putval_func Demo.host ["counter"] Demo.in_tx
  = put_bytes Demo.host 8192 16388 true true Demo.in_tx.
Proof.
  split; [ reflexivity | split; [ reflexivity | ] ].
  apply (putval_end_counts_start_twice Demo.host "counter" Demo.in_tx
           Demo.the_trace Demo.the_tx Demo.counter); reflexivity.
Defined.

(** C3 as the specification states it fails where there is no trace: in
    the initial session no transaction is open, and [putmem] fails with
    "No trace active", not with "No transaction". *)
Lemma putmem_without_trace_names_the_trace :
  tx (STATE initial_world) = None /\
  run Demo.host (Ghidra trace_putmem ["0"; "1"]) initial_world
  = (inr tt,
     with_log initial_world [ResultClear; SetError "No trace active"]) /\
  ghidra_trace_putmem_func Demo.host ["0"; "1"] initial_world
  <> (inl (RuntimeError "No transaction"), initial_world).
Proof.
  split; [ reflexivity | split; [ reflexivity | ] ].
  vm_compute. discriminate.
Qed.

Lemma putmem_without_transaction_run :
  guarded trace_putmem = true /\
  tx (STATE Demo.traced) = None /\
  accepts Demo.host trace_putmem ["0"; "1"] = true /\
  run Demo.host (Ghidra trace_putmem ["0"; "1"]) Demo.traced
  = (inr tt,
     with_log Demo.traced [ResultClear; SetError "No transaction"]) /\
  run Demo.host (Ghidra trace_tx_start ["again"]) Demo.in_tx
  = (inr tt,
     with_log Demo.in_tx
       [ResultClear; SetError "Transaction already started"]).
Proof.
  split; [ reflexivity | ].
  split; [ reflexivity | ].
  split; [ reflexivity | ].
  split.
  - apply (proj1 (guarded_commands_need_transaction Demo.host)
             trace_putmem ["0"; "1"] Demo.traced);
      reflexivity.
  - apply (proj2 (guarded_commands_need_transaction Demo.host)
             "again" Demo.in_tx Demo.the_tx);
      reflexivity.
Defined.

(** A transaction opened around [ghidra trace stop]: the nested command
    resets the trace and the transaction together. *)
Lemma txopen_stop_run :
  nested (STATE Demo.traced) /\
  nested (STATE (snd (run Demo.host
                        (TxOpen ["stop it"; "ghidra trace stop"]
                           (Ghidra trace_stop []))
                        Demo.traced))).
Proof.
  split; [ reflexivity | ].
  apply (proj1 (proj2 (session_stays_nested Demo.host))). reflexivity.
Defined.

(** [tx-open second bt] while the transaction of [Demo.in_tx] is open *)
Lemma txopen_second_run :
  tx (STATE Demo.in_tx) = Some Demo.the_tx /\
  run Demo.host (TxOpen ["second"; "bt"] (Foreign "bt")) Demo.in_tx
  = (inr tt,
     mkWorld (mkState (Some Demo.the_client) (Some Demo.the_trace) None)
       [("_ghidra_tracing", "true")] 0
       [ResultClear; StartTx "second" false; HandleCommand "bt"; Commit;
        SetStatusSuccess]).
Proof.
  split; [ reflexivity | ].
  apply (proj1 (txopen_opens_second_transaction Demo.host Demo.in_tx
                  Demo.the_trace Demo.the_tx "second" "bt"
                  eq_refl eq_refl (fun _ _ => eq_refl))).
Defined.

Lemma put_regions_fallback_run :
  yields_no_regions Demo.host /\
  exists evs : list event,
    put_regions Demo.host Demo.in_tx
    = (inr tt, with_log Demo.in_tx (log Demo.in_tx ++ evs)) /\
    evs
    = [CreateObject "Processes[7].Memory[00000000]";
       SetValue "Processes[7].Memory[00000000]" "Range"
         (VRange (extend (mkAddress "ram" 0) 18446744073709551616)) None;
       SetValue "Processes[7].Memory[00000000]" "_readable" (VBool true) None;
       SetValue "Processes[7].Memory[00000000]" "_writable" (VBool true) None;
       SetValue "Processes[7].Memory[00000000]" "_executable" (VBool true)
         None;
       SetValue "Processes[7].Memory[00000000]" "Offset" (VStr "0x0") None;
       SetValue "Processes[7].Memory[00000000]" "Object File" VNone None;
       InsertObject "Processes[7].Memory[00000000]";
       RetainValues "Processes[7].Memory" ["[00000000]"] "elements"] /\
    created evs = ["Processes[7].Memory[00000000]"] /\
    inserted evs = ["Processes[7].Memory[00000000]"] /\
    retained evs = [("Processes[7].Memory", ["[00000000]"])] /\
    In (SetValue "Processes[7].Memory[00000000]" "Range"
          (VRange (extend (mkAddress "ram" 0) 18446744073709551616)) None)
       evs.
Proof.
  assert (Hno : yields_no_regions Demo.host).
  { left. split; [ discriminate | reflexivity ]. }
  split; [ exact Hno | ].
  apply (put_regions_fallback Demo.host Demo.in_tx Demo.process7
           Demo.thread3 Demo.the_trace Demo.mm);
    (exact Hno || reflexivity).
Defined.

Lemma frame_path_run :
  frame_path 7 3 0 = frame_path 7 3 0 /\ (7, 3, 0) = (7, 3, 0).
Proof.
  split; [ reflexivity | ].
  apply (proj2 (proj2 frame_path_deterministic_injective)). reflexivity.
Defined.

(** [putmem-state 0 4096 known 0]: with a fourth word the state word is
    evaluated as an expression, and no variable is called known. *)
Lemma putmem_state_known_run :
  get_eval Demo.host "known" = inl (HostError "undeclared identifier") /\
  ghidra_trace_putmem_state Demo.host ["0"; "4096"; "known"; "0"] Demo.in_tx
  = (inr tt,
     with_log Demo.in_tx [ResultClear; SetError "undeclared identifier"]) /\
  ghidra_trace_putmem_state Demo.host ["0"; "4096"; "known"] Demo.in_tx
  = (inr tt,
     with_log Demo.in_tx
       [ResultClear;
        SetMemoryState (mkAddressRange (mkAddress "ram" 0) 4096) "known";
        SetStatusSuccess]).
Proof.
  split; [ reflexivity | ].
  split; [ | reflexivity ].
  apply (proj1 (proj2 (putmem_state_ignores_pages_argument Demo.host
                         "0" "4096" "known" "0"))
           Demo.in_tx (HostError "undeclared identifier")).
  reflexivity.
Defined.

Lemma put_bytes_empty_run :
  put_bytes Demo.host 4100 4100 true false Demo.in_tx = (inr tt, Demo.in_tx) /\
  putmem Demo.host "4100" "0" true false Demo.in_tx = (inr tt, Demo.in_tx).
Proof.
  split.
  - apply (proj1 (put_bytes_empty_range Demo.host) 4100 4100 true false
             Demo.in_tx).
    cbn. lia.
  - apply (proj2 (put_bytes_empty_range Demo.host) "4100" "0" true 4100 0
             Demo.in_tx Demo.the_trace);
      (reflexivity || lia).
Defined.

(** * Further properties *)

(** ** Pages *)

Lemma align_fixed (a : Z) :
  a mod PAGE_SIZE = 0 ->
  a / PAGE_SIZE * PAGE_SIZE = a /\
  (a + PAGE_SIZE - 1) / PAGE_SIZE * PAGE_SIZE = a.
Proof.
  intros Ha.
  pose proof (Z.div_mod a PAGE_SIZE ltac:(discriminate)) as Hd.
  assert (Hq : a = PAGE_SIZE * (a / PAGE_SIZE)) by lia.
  split; [ lia | ].
  pose proof (round_up_spec a) as [Hm Hb]. cbv zeta in Hm, Hb.
  pose proof (Z.div_mod ((a + PAGE_SIZE - 1) / PAGE_SIZE * PAGE_SIZE) PAGE_SIZE
                ltac:(discriminate)) as Hd'.
  rewrite Hm in Hd'.
  set (q := a / PAGE_SIZE) in *.
  set (e := (a + PAGE_SIZE - 1) / PAGE_SIZE * PAGE_SIZE) in *.
  set (q' := e / PAGE_SIZE) in *.
  unfold PAGE_SIZE in *. nia.
Qed.

(** X1: quantizing twice is quantizing once, the quantized range is a
    whole number of pages and never shorter than the requested range, and an
    empty range at an address that is not page-aligned becomes the whole
    page around that address. *)
Theorem quantize_pages_idempotent_and_covering (start end_ : Z) :
  let '(s, e) := quantize_pages start end_ in
  quantize_pages s e = (s, e) /\
  (e - s) mod PAGE_SIZE = 0 /\
  end_ - start <= e - s /\
  (start mod PAGE_SIZE <> 0 ->
   quantize_pages start start
   = (start / PAGE_SIZE * PAGE_SIZE, start / PAGE_SIZE * PAGE_SIZE + PAGE_SIZE)).
Proof.
  unfold quantize_pages.
  destruct (round_down_spec start) as [Hs1 Hs2].
  destruct (round_up_spec end_) as [He1 He2].
  cbv zeta in *.
  set (s := start / PAGE_SIZE * PAGE_SIZE) in *.
  set (e := (end_ + PAGE_SIZE - 1) / PAGE_SIZE * PAGE_SIZE) in *.
  repeat split.
  - destruct (align_fixed s Hs1) as [-> _].
    destruct (align_fixed e He1) as [_ ->]. reflexivity.
  - rewrite Zminus_mod, Hs1, He1. reflexivity.
  - lia.
  - intros Hna. f_equal.
    destruct (round_up_spec start) as [Hu1 Hu2]. cbv zeta in *.
    set (u := (start + PAGE_SIZE - 1) / PAGE_SIZE * PAGE_SIZE) in *.
    assert (Hsu : s <> start) by (intros E; rewrite <- E in Hna; contradiction).
    pose proof (Z.div_mod s PAGE_SIZE ltac:(discriminate)) as Hds.
    pose proof (Z.div_mod u PAGE_SIZE ltac:(discriminate)) as Hdu.
    rewrite Hs1 in Hds. rewrite Hu1 in Hdu.
    unfold PAGE_SIZE in *. nia.
Qed.

Lemma quantize_pages_unaligned_run :
  4100 mod PAGE_SIZE <> 0 /\ quantize_pages 4100 4100 = (4096, 8192).
Proof.
  split; [ discriminate | ].
  apply (quantize_pages_idempotent_and_covering 4100 4100). discriminate.
Defined.

(** ** Integers and register bytes *)

Lemma int_from_bytes_big_acc (bs : list byte) (acc : Z) :
  int_from_bytes_big acc bs
  = acc * 256 ^ len bs + int_from_bytes_big 0 bs /\
  0 <= int_from_bytes_big 0 bs < 256 ^ len bs.
Proof.
  revert acc. induction bs as [ | b bs IH ]; intros acc.
  - cbn. lia.
  - cbn [int_from_bytes_big].
    destruct (IH (acc * 256 + Z.of_N (Byte.to_N b))) as [E1 _].
    destruct (IH (0 * 256 + Z.of_N (Byte.to_N b))) as [E2 Hb].
    rewrite E1, E2.
    assert (Hbyte : 0 <= Z.of_N (Byte.to_N b) <= 255).
    { pose proof (Byte.to_N_bounded b). lia. }
    assert (Hlen : len (b :: bs) = len bs + 1).
    { unfold len. cbn [List.length]. lia. }
    rewrite Hlen, Z.pow_add_r by (unfold len; lia).
    assert (Hpow : 0 < 256 ^ len bs) by (apply Z.pow_pos_nonneg; unfold len; lia).
    nia.
Qed.

Lemma len_rev {A : Type} (l : list A) : len (rev l) = len l.
Proof. unfold len. now rewrite length_rev. Qed.

(** X2: for both supported byte orders, the integer [data_to_int] reads
    from the data is the integer the canonical register bytes of
    [data_to_reg_bytes] denote in big-endian order; it is never negative
    and fits the number of bytes, and the canonical bytes are as many as the
    data has. *)
Theorem data_to_int_agrees_with_reg_bytes (o : ByteOrderName) (bs : list byte) :
  exists (canon : list byte) (n : Z),
    data_to_reg_bytes (mkSBData (order_code o) bs) = inr canon /\
    data_to_int (mkSBData (order_code o) bs) = inr n /\
    n = int_from_bytes canon big /\
    0 <= n < 256 ^ len bs /\
    len canon = len bs.
Proof.
  destruct o; cbn.
  - exists bs, (int_from_bytes_big 0 bs). repeat split;
      apply (int_from_bytes_big_acc bs 0).
  - exists (rev bs), (int_from_bytes_big 0 (rev bs)).
    pose proof (proj2 (int_from_bytes_big_acc (rev bs) 0)) as Hb.
    rewrite len_rev in Hb |- *. repeat split; apply Hb.
Qed.

(** X3: a byte order other than big and little is refused: the two
    decoders raise [ValueError] exactly when the order of the data is
    neither [eByteOrderBig] nor [eByteOrderLittle], and the PDP order has
    its own message. *)
Theorem unsupported_byte_order_refused (data : SBData) :
  ((exists msg, data_to_reg_bytes data = inl (ValueError msg) /\
                data_to_int data = inl (ValueError msg)) <->
   (byte_order data <> lldb.eByteOrderBig /\
    byte_order data <> lldb.eByteOrderLittle)) /\
  (byte_order data = lldb.eByteOrderPDP ->
   data_to_reg_bytes data = inl (ValueError "PDP byte order unsupported")).
Proof.
  unfold data_to_reg_bytes, data_to_int, get_byte_order.
  destruct (Z.eqb_spec (byte_order data) lldb.eByteOrderBig) as [E1 | N1];
    [ | destruct (Z.eqb_spec (byte_order data) lldb.eByteOrderLittle)
          as [E2 | N2];
        [ | destruct (Z.eqb_spec (byte_order data) lldb.eByteOrderPDP)
              as [E3 | N3] ] ].
  - split; [ split | ].
    + intros [msg [H _]]. discriminate.
    + intros [H _]. contradiction.
    + rewrite E1. discriminate.
  - split; [ split | ].
    + intros [msg [H _]]. discriminate.
    + intros [_ H]. contradiction.
    + rewrite E2. discriminate.
  - split; [ split | ]; eauto.
  - split; [ split | ]; eauto. intros E. contradiction.
Qed.

Lemma pdp_order_refused_run :
  data_to_reg_bytes (mkSBData lldb.eByteOrderPDP [x01; x02])
  = inl (ValueError "PDP byte order unsupported").
Proof.
  apply (proj2 (unsupported_byte_order_refused
                  (mkSBData lldb.eByteOrderPDP [x01; x02]))).
  reflexivity.
Defined.

(** ** Converting values *)

(** X17: how [convert_value] reads scalars.  For a value whose type,
    typedefs stripped, is a short, an int, a long or a long long, signed
    or not, and whose data is big- or little-endian, the result is the
    integer the bytes of the value denote as an unsigned number in that
    order: never negative, so that a negative C integer is recorded as its
    two's complement.  For a bool the result is whether the text of the value
    is non-empty, so that a variable that prints as false is recorded as
    true.  In both cases the schema asked for is ignored and the schema
    returned is that of the type, and the world is left as it is. *)
Theorem convert_value_scalars (h : Host) (expr : string) (val : SBValue)
    (schema : option Schema) (w : World) (name : string) (code : BasicType) :
  strip_typedefs (GetType val) = TBasic name code ->
  (forall o : ByteOrderName,
     byte_order (data val) = order_code o ->
     is_short_code code || is_int_code code || is_long_code code = true ->
     convert_value h expr val schema w
     = (inr (VInt (int_from_bytes (uint8s (data val)) o),
             Some (if is_short_code code then sch.SHORT
                   else if is_int_code code then sch.INT else sch.LONG)), w) /\
     0 <= int_from_bytes (uint8s (data val)) o < 256 ^ len (uint8s (data val))) /\
  (code = eBasicTypeBool ->
   convert_value h expr val schema w
   = (inr (VBool (truthy (GetValue val)), Some sch.BOOL), w) /\
   (GetValue val = Some "false" -> truthy (GetValue val) = true)).
Proof.
  intros Hty. split.
  - intros o Ho Hcode. split.
    + unfold convert_value. rewrite Hty. cbn [GetBasicType].
      unfold data_to_int, get_byte_order, bind, lift, ret. rewrite Ho.
      destruct code; try discriminate Hcode; destruct o; reflexivity.
    + destruct o; cbn [int_from_bytes].
      * apply (int_from_bytes_big_acc (uint8s (data val)) 0).
      * rewrite <- (len_rev (uint8s (data val))).
        apply (int_from_bytes_big_acc (rev (uint8s (data val))) 0).
  - intros ->. split.
    + unfold convert_value. rewrite Hty. reflexivity.
    + intros ->. reflexivity.
Qed.

Lemma convert_value_minus_one_run :
  convert_value Demo.host "minus_one"
    (mkSBValue (TTypedef "int32_t" (TBasic "int" eBasicTypeInt)) (Some "-1")
       4294967295 None
       (mkSBData lldb.eByteOrderLittle [xff; xff; xff; xff])
       (mkSBAddress true 8192) 4 [] "(int32_t) minus_one = -1")
    None Demo.traced
  = (inr (VInt 4294967295, Some sch.INT), Demo.traced).
Proof.
  apply (proj1 (proj1 (convert_value_scalars Demo.host "minus_one"
                         (mkSBValue
                            (TTypedef "int32_t" (TBasic "int" eBasicTypeInt))
                            (Some "-1") 4294967295 None
                            (mkSBData lldb.eByteOrderLittle [xff; xff; xff; xff])
                            (mkSBAddress true 8192) 4 []
                            "(int32_t) minus_one = -1")
                         None Demo.traced "int" eBasicTypeInt eq_refl)
                  little eq_refl eq_refl)).
Defined.

(** ** Concrete runs of the session and memory properties *)

Lemma other_commands_leave_session_run :
  session_command trace_put_all = false /\
  STATE (snd (run Demo.host (Ghidra trace_put_all []) Demo.in_tx))
  = STATE Demo.in_tx.
Proof.
  split; [ reflexivity | ].
  apply (other_commands_leave_session Demo.host trace_put_all [] Demo.in_tx).
  reflexivity.
Defined.

Lemma txstart_txcommit_run :
  trace (STATE Demo.traced) = Some Demo.the_trace /\
  tx (STATE Demo.traced) = None /\
  (ghidra_trace_txstart Demo.host ["demo"] ;;
   ghidra_trace_txcommit Demo.host [])%py Demo.traced
  = (inr tt,
     with_log Demo.traced
       [ResultClear; StartTx "demo" false; SetStatusSuccess;
        ResultClear; Commit; SetStatusSuccess]).
Proof.
  split; [ reflexivity | ].
  split; [ reflexivity | ].
  apply (proj1 (proj2 (txstart_txcommit_round_trip Demo.host "demo"
                         Demo.traced Demo.the_trace eq_refl eq_refl
                         (fun _ => eq_refl)))).
  intros l. reflexivity.
Defined.

Lemma activate_run :
  trace (STATE Demo.traced) = Some Demo.the_trace /\
  ghidra_trace_activate Demo.host ["Processes[7]"] Demo.traced
  = (inr tt, with_log Demo.traced [ResultClear; SetStatusSuccess]) /\
  ghidra_trace_activate Demo.host [] Demo.traced
  = (inr tt,
     with_log Demo.traced
       [ResultClear; ActivateObject "Processes[7].Threads[3].Stack[0]";
        SetStatusSuccess]).
Proof.
  split; [ reflexivity | ].
  split.
  - apply (proj1 (activate_ignores_its_path Demo.host Demo.traced
                    Demo.the_trace eq_refl)).
  - apply (proj2 (activate_ignores_its_path Demo.host Demo.traced
                    Demo.the_trace eq_refl) Demo.process7).
    + reflexivity.
    + intros l path. reflexivity.
Defined.

Lemma new_snap_run :
  trace (STATE Demo.traced) = Some Demo.the_trace /\
  tx (STATE Demo.traced) = None /\
  ghidra_trace_new_snap Demo.host ["5"; "after main"] Demo.traced
  = (inr tt,
     with_log Demo.traced
       [ResultClear; Snapshot "after main" (Some 5); SetStatusSuccess]).
Proof.
  split; [ reflexivity | ].
  split; [ reflexivity | ].
  apply (proj2 (new_snap_needs_no_transaction Demo.host Demo.traced
                  Demo.the_trace "after main" eq_refl (fun _ _ => eq_refl))
           "5" 5).
  reflexivity.
Defined.


Lemma failed_start_run :
  compute_memory_mapper Demo.host_without_mapper "x86:LE:64:default"
  = inl (KeyError "x86:LE:64:default") /\
  trace (STATE (snd (ghidra_trace_start Demo.host_without_mapper ["a"]
                       Demo.connected)))
  = Some (mkTrace "a" (mkExtra None None)) /\
  log (snd (ghidra_trace_start Demo.host_without_mapper ["a"] Demo.connected))
  = [ResultClear; CreateTrace "a" "x86:LE:64:default" "gcc";
     SetError "x86:LE:64:default"].
Proof.
  split; [ reflexivity | ].
  pose proof (proj1 (failed_start_leaves_trace Demo.host_without_mapper
                       Demo.connected Demo.the_client "a" "b"
                       "x86:LE:64:default" "gcc"
                       (KeyError "x86:LE:64:default")
                       eq_refl eq_refl eq_refl eq_refl (fun _ => eq_refl)))
    as H.
  rewrite H. split; reflexivity.
Defined.

Lemma restart_run :
  len ["again"] <= 1 /\
  ghidra_trace_restart_func Demo.host ["again"] Demo.traced
  = (ghidra_trace_stop_func Demo.host [] ;;
     ghidra_trace_start_func Demo.host ["again"])%py Demo.traced.
Proof.
  assert (Hlen : len ["again"] <= 1) by (vm_compute; discriminate).
  split; [ exact Hlen | ].
  apply (proj1 (restart_is_stop_then_start Demo.host ["again"] Demo.traced
                  Hlen) Demo.the_client Demo.the_trace);
    reflexivity.
Defined.

Lemma put_bytes_run :
  quantize_pages 4100 4101 = (4096, 8192) /\
  put_bytes Demo.host 4100 4101 true true Demo.in_tx
  = (inr tt,
     with_log Demo.in_tx
       [ReadMemory 4096 4096;
        PutBytes (mkAddress "ram" 4096) (repeat x00 4096);
        PutCString "Wrote 4096 bytes"]).
Proof.
  split; [ reflexivity | ].
  apply (put_bytes_reads_then_writes Demo.host 4100 4101 4096 8192 true true
           Demo.in_tx Demo.the_trace Demo.mm Demo.process7);
    reflexivity.
Defined.

Lemma put_all_putreg_run :
  ghidra_trace_putreg Demo.host ["General"; "Purpose"; "Registers"] Demo.in_tx
  = (inr tt,
     with_log Demo.in_tx
       [ResultClear; SetError "Usage: ghidra trace putreg [GROUP]"]).
Proof.
  apply (proj1 (proj2 (put_all_puts_no_registers Demo.host)) Demo.in_tx
           Demo.the_trace Demo.the_tx);
    reflexivity.
Defined.

(** ** Concrete runs of the synchronizers *)


Lemma watchpoint_kinds_run :
  contains "type = rw" "Watchpoint 1: addr = 0x2000 size = 4 type = rw" = true /\
  exists evs : list event,
    put_single_watchpoint Demo.host
      (mkSBWatchpoint 1 "Watchpoint 1: addr = 0x2000 size = 4 type = rw"
         8192 4 None 0 0 0 true)
      (Some Demo.process7) Demo.in_tx
    = (inr tt, with_log Demo.in_tx (log Demo.in_tx ++ evs)) /\
    values_set "Kinds" evs = [VStr "WRITE"; VStr "READ"; VStr "READ,WRITE"].
Proof.
  split; [ reflexivity | ].
  destruct (watchpoint_kinds Demo.host
              (mkSBWatchpoint 1
                 "Watchpoint 1: addr = 0x2000 size = 4 type = rw"
                 8192 4 None 0 0 0 true)
              Demo.process7 Demo.in_tx Demo.the_trace Demo.mm
              eq_refl eq_refl (fun _ _ => eq_refl))
    as [evs [Hrun [Hkinds _]]].
  exists evs. split; [ exact Hrun | exact Hkinds ].
Defined.

Lemma putreg_run :
  data_to_reg_bytes (reg_data Demo.rip)
  = inr [x00; x00; x00; x00; x00; x40; x10; x00] /\
  putreg Demo.host Demo.frame0 Demo.gpr Demo.in_tx
  = (inr tt,
     with_log Demo.in_tx
       [CreateOverlaySpace "register"
          "Processes[7].Threads[3].Stack[0].Registers";
        CreateObject "Processes[7].Threads[3].Stack[0].Registers";
        InsertObject "Processes[7].Threads[3].Stack[0].Registers";
        CreateObject
          "Processes[7].Threads[3].Stack[0].Registers.General Purpose Registers";
        InsertObject
          "Processes[7].Threads[3].Stack[0].Registers.General Purpose Registers";
        SetValue
          "Processes[7].Threads[3].Stack[0].Registers.General Purpose Registers"
          "rip" (VStr "0x0000000000401000") None;
        PutRegisters "Processes[7].Threads[3].Stack[0].Registers"
          [mkRegVal "rip" [x00; x00; x00; x00; x00; x40; x10; x00]]]).
Proof.
  split; [ reflexivity | ].
  apply (putreg_puts_canonical_values Demo.host Demo.frame0 Demo.gpr
           Demo.in_tx Demo.process7 Demo.thread3 Demo.the_trace Demo.rm
           (fun r => rev (uint8s (reg_data r))));
    try reflexivity.
  intros r [<- | []]. reflexivity.
Defined.
